(** * jwskate: JSON Web Keys (symmetric and elliptic-curve)

    A shallow embedding of [jwskate/utils.py], [jwskate/jwk/symetric.py] and
    [jwskate/jwk/ec.py], and the properties of these modules.

    Conventions of the embedding:
    - Python [bytes] are [list byte]; Python [str] is [string] (code points
      below 256); Python [int] is [Z].
    - A raised exception is the [Raise] branch of [result].
    - A [dict] with string keys is a [gmap string pyval]; the ordered class
      tables ([SIGNATURE_ALGORITHMS], ...) are association lists, because
      their iteration order is observable. *)

From Stdlib Require Import ZArith NArith List Lia Bool.
From Stdlib Require Import Strings.Byte Strings.Ascii Strings.String.
From stdpp Require Import gmap strings.

Import ListNotations.
Local Open Scope Z_scope.

(** ** Python values and exceptions *)

Inductive pyval : Type :=
| PNone
| PStr (s : string)
| PBytes (b : list byte).

(** The payloads of the [ValueError]s raised by the modelled modules. *)
Inductive value_error : Type :=
| Unsupported_alg (alg : string)
| Unsupported_signing_alg (alg : string)
| Key_size_mismatch (actual : Z) (description : string) (expected : Z)
| No_public_key
| No_algorithm_specified
| Negative_argument.

Inductive exn : Type :=
| ValueError (v : value_error)
| KeyError (k : string)
| TypeError
| OverflowError
| UnicodeEncodeError
| binascii_Error
| UnsupportedEllipticCurve (crv : option pyval)
| StructuralValidationError (param : string)
| ForeignError (code : N).

Inductive result (A : Type) : Type :=
| Ok (a : A)
| Raise (e : exn).
Arguments Ok {A} a.
Arguments Raise {A} e.

Definition rbind {A B} (r : result A) (k : A -> result B) : result B :=
  match r with
  | Ok a => k a
  | Raise e => Raise e
  end.

Declare Scope result_scope.
Delimit Scope result_scope with result.
Notation "'try' x ':=' r 'in' k" := (rbind r (fun x => k))
  (at level 10, x pattern, r at level 100, k at level 200, only parsing)
  : result_scope.

(** ** Bytes *)

Definition byte_of_N (n : N) : byte :=
  match Byte.of_N (n mod 256) with
  | Some b => b
  | None => x00
  end.

#[global] Instance byte_eq_decision : EqDecision byte := Byte.byte_eq_dec.

(** [a == b] on [bytes]. *)
Definition bytes_eqb (a b : list byte) : bool := bool_decide (a = b).

(** ** The [base64] standard module

    [base64.urlsafe_b64encode] and [base64.urlsafe_b64decode] are the
    interpreter's; they are embedded from CPython's [Lib/base64.py] and
    [Modules/binascii.c] (non-strict [a2b_base64]). *)

Module base64.

Definition BASE64_PAD : byte := "="%byte.

Definition table_b2a_base64 : list byte :=
  list_byte_of_string
    "ABCDEFGHIJKLMNOPQRSTUVWXYZabcdefghijklmnopqrstuvwxyz0123456789+/".

Definition b2a (n : N) : byte :=
  nth (N.to_nat n) table_b2a_base64 BASE64_PAD.

Fixpoint index_of (c : byte) (l : list byte) (i : N) : option N :=
  match l with
  | [] => None
  | x :: r => if Byte.eqb c x then Some i else index_of c r (N.succ i)
  end.

(** [table_a2b_base64[c]]: the sextet of an alphabet character, [None]
    for the table's "not a base64 character" entries. *)
Definition a2b (c : byte) : option N := index_of c table_b2a_base64 0%N.

(** [binascii.b2a_base64(data, newline=False)], three input bytes per four
    output characters, the last group padded with [=]. *)
Fixpoint b2a_base64 (data : list byte) : list byte :=
  match data with
  | [] => []
  | [a] =>
      let a := Byte.to_N a in
      [b2a (N.shiftr a 2); b2a (N.shiftl (N.land a 3) 4);
       BASE64_PAD; BASE64_PAD]
  | [a; b] =>
      let a := Byte.to_N a in
      let b := Byte.to_N b in
      [b2a (N.shiftr a 2);
       b2a (N.lor (N.shiftl (N.land a 3) 4) (N.shiftr b 4));
       b2a (N.shiftl (N.land b 15) 2);
       BASE64_PAD]
  | a :: b :: c :: rest =>
      let a := Byte.to_N a in
      let b := Byte.to_N b in
      let c := Byte.to_N c in
      b2a (N.shiftr a 2)
      :: b2a (N.lor (N.shiftl (N.land a 3) 4) (N.shiftr b 4))
      :: b2a (N.lor (N.shiftl (N.land b 15) 2) (N.shiftr c 6))
      :: b2a (N.land c 63)
      :: b2a_base64 rest
  end.

(** One valid sextet [v] entering the decoder at position [quad_pos]. *)
Definition a2b_sextet (quad_pos : nat) (leftchar v : N) (out : list byte)
  : nat * N * list byte :=
  match quad_pos with
  | O => (1%nat, v, out)
  | 1%nat =>
      (2%nat, N.land v 15,
       out ++ [byte_of_N (N.lor (N.shiftl leftchar 2) (N.shiftr v 4))])
  | 2%nat =>
      (3%nat, N.land v 3,
       out ++ [byte_of_N (N.lor (N.shiftl leftchar 4) (N.shiftr v 2))])
  | _ =>
      (O, 0%N, out ++ [byte_of_N (N.lor (N.shiftl leftchar 6) v)])
  end.

(** The loop of [binascii.a2b_base64] with [strict_mode] off: characters
    outside the alphabet are skipped; a pad character ends the input once
    it completes a quad ([quad_pos >= 2 && quad_pos + ++pads >= 4]); an
    input that ends inside a quad is an error. *)
Fixpoint a2b_loop (ascii : list byte) (quad_pos : nat) (leftchar : N)
    (pads : nat) (out : list byte) : result (list byte) :=
  match ascii with
  | [] =>
      if Nat.eqb quad_pos 0 then Ok out else Raise binascii_Error
  | this_ch :: rest =>
      if Byte.eqb this_ch BASE64_PAD then
        if Nat.leb 2 quad_pos then
          if Nat.leb 4 (quad_pos + S pads) then Ok out
          else a2b_loop rest quad_pos leftchar (S pads) out
        else a2b_loop rest quad_pos leftchar pads out
      else
        match a2b this_ch with
        | None => a2b_loop rest quad_pos leftchar pads out
        | Some v =>
            let '(q, l, o) := a2b_sextet quad_pos leftchar v out in
            a2b_loop rest q l O o
        end
  end.

Definition a2b_base64 (ascii : list byte) : result (list byte) :=
  a2b_loop ascii O 0%N O [].

Definition b64encode (s : list byte) : list byte := b2a_base64 s.
Definition b64decode (s : list byte) : result (list byte) := a2b_base64 s.

(** [bytes.maketrans(b'+/', b'-_')] and its inverse. *)
Definition _urlsafe_encode_translation (c : byte) : byte :=
  if Byte.eqb c "+"%byte then "-"%byte
  else if Byte.eqb c "/"%byte then "_"%byte
  else c.

Definition _urlsafe_decode_translation (c : byte) : byte :=
  if Byte.eqb c "-"%byte then "+"%byte
  else if Byte.eqb c "_"%byte then "/"%byte
  else c.

Definition urlsafe_b64encode (s : list byte) : list byte :=
  map _urlsafe_encode_translation (b64encode s).

Definition urlsafe_b64decode (s : list byte) : result (list byte) :=
  b64decode (map _urlsafe_decode_translation s).

End base64.

(** ** [jwskate/utils.py] *)

(** [bytes.rstrip(chars)] for a one-character [chars]. *)
Fixpoint lstrip (c : byte) (l : list byte) : list byte :=
  match l with
  | [] => []
  | x :: r => if Byte.eqb x c then lstrip c r else l
  end.

Definition rstrip (c : byte) (l : list byte) : list byte :=
  rev (lstrip c (rev l)).

(** [str.encode("utf-8")] on code points below 256. A [str] is modelled as
    a [string] of 8-bit characters, each read as the code point of that
    number, so the encoding below is total; text with larger code points,
    and lone surrogates, on which Python raises, are outside the model. The
    statements below pass only the ASCII text the encoders return, or
    parameter values, through it. *)
Definition utf8_char (c : ascii) : list byte :=
  let n := N_of_ascii c in
  if (n <? 128)%N then [byte_of_N n]
  else [byte_of_N (N.lor 192 (N.shiftr n 6)); byte_of_N (N.lor 128 (N.land n 63))].

Definition encode_utf8 (s : string) : list byte :=
  flat_map utf8_char (list_ascii_of_string s).

(** [str.encode("ascii")]: fails on a code point above 127. *)
Definition encode_ascii (s : string) : result (list byte) :=
  let b := list_byte_of_string s in
  if forallb (fun c => (Byte.to_N c <? 128)%N) b then Ok b
  else Raise UnicodeEncodeError.

(** [bytes.decode("ascii")]; the callers below only pass base64 output,
    which is ASCII (lemma [b64u_encode_bytes_ascii]). *)
Definition decode_ascii (b : list byte) : string := string_of_list_byte b.

(** [str(None)], what the helpers make of a missing parameter. *)
Definition str_None : string := "None".

Definition b64u_encode_bytes (data : list byte) (padded : bool) : list byte :=
  let encoded := base64.urlsafe_b64encode data in
  if padded then encoded else rstrip base64.BASE64_PAD encoded.

Definition b64u_encode_opt (data : pyval) (padded : bool) : string :=
  let data :=
    match data with
    | PBytes b => b
    | PStr s => encode_utf8 s
    | PNone => encode_utf8 str_None
    end in
  decode_ascii (b64u_encode_bytes data padded).

(** [b64u_encode(data)] with the defaults [encoding="utf-8", padded=False]. *)
Definition b64u_encode (data : pyval) : string := b64u_encode_opt data false.

Definition b64u_decode_bytes (data : list byte) : result (list byte) :=
  let padding_len := (List.length data mod 4)%nat in
  let data :=
    if Nat.eqb padding_len 0 then data
    else data ++ repeat base64.BASE64_PAD padding_len in
  base64.urlsafe_b64decode data.

Definition b64u_decode (data : pyval) : result (list byte) :=
  match data with
  | PBytes b => b64u_decode_bytes b
  | PStr s => rbind (encode_ascii s) b64u_decode_bytes
  | PNone => rbind (encode_ascii str_None) b64u_decode_bytes
  end.


(** [int.bit_length()]. *)
Definition bit_length (i : Z) : Z :=
  if Z.abs i =? 0 then 0 else Z.log2 (Z.abs i) + 1.

(** The low [length] base-256 digits of [i], most significant first. *)
Fixpoint to_bytes_be (length : nat) (i : Z) : list byte :=
  match length with
  | O => []
  | S n => to_bytes_be n (i / 256) ++ [byte_of_N (Z.to_N (i mod 256))]
  end.

(** [i.to_bytes(length, "big", signed=False)]: [ValueError] on a negative
    [length], [OverflowError] on a negative [i] and on an [i] that needs more
    than [length] bytes. The [length] is an integer of any size here; CPython
    converts it to [Py_ssize_t] first and raises [OverflowError] from
    [2 ** 63] on, so the model follows the interpreter for lengths below
    [2 ** 63], memory permitting. *)
Definition int_to_bytes (i : Z) (length : option Z) : result (list byte) :=
  let length :=
    match length with
    | Some l => l
    | None => (bit_length i + 7) / 8
    end in
  if length <? 0 then Raise (ValueError Negative_argument)
  else if (i <? 0) || (256 ^ length <=? i) then Raise OverflowError
  else Ok (to_bytes_be (Z.to_nat length) i).

(** [int.from_bytes(b, "big", signed=False)]. *)
Definition int_from_bytes (b : list byte) : Z :=
  fold_left (fun acc c => acc * 256 + Z.of_N (Byte.to_N c)) b 0.

Definition int_to_b64u (i : Z) (length : option Z) : result string :=
  (try data := int_to_bytes i length in Ok (b64u_encode (PBytes data)))%result.

Definition b64u_to_int (b : pyval) : result Z :=
  (try data := b64u_decode b in Ok (int_from_bytes data))%result.

(** ** Python call conventions *)

(** [seq[:stop]] and [seq[start:]] for an arbitrary integer bound: a
    negative bound counts from the end and is clamped at the start. *)
Definition slice_bound {A} (l : list A) (i : Z) : nat :=
  let n := Z.of_nat (List.length l) in
  Z.to_nat (if i <? 0 then Z.max (i + n) 0 else Z.min i n).

Definition slice_to {A} (l : list A) (stop : Z) : list A :=
  firstn (slice_bound l stop) l.

Definition slice_from {A} (l : list A) (start : Z) : list A :=
  skipn (slice_bound l start) l.

(** [d[k]] on a class table. *)
Fixpoint assoc {V} (table : list (string * V)) (k : string) : option V :=
  match table with
  | [] => None
  | (k', v) :: rest => if String.eqb k k' then Some v else assoc rest k
  end.

(** [f(a=.., b=.., **params)]: a name passed twice is a [TypeError]. *)
Definition kwargs (named : list (string * pyval)) (params : gmap string pyval)
  : result (gmap string pyval) :=
  if forallb (fun kv => bool_decide (params !! kv.1 = None)) named
  then Ok (list_to_map named ∪ params)
  else Raise TypeError.

(** Binding [**params] in a callee whose own parameters are [formals]. *)
Definition bind_params (formals : list string) (params : gmap string pyval)
  : result unit :=
  if forallb (fun k => bool_decide (params !! k = None)) formals
  then Ok tt
  else Raise TypeError.

(** ** The outside world: the entropy source and the cryptography engine *)

Inductive hash_alg : Type := SHA256 | SHA384 | SHA512.
Inductive mac_class : Type := HMAC.
Inductive aead_class : Type := AESCCM | AESGCM.
Inductive keywrap_alg : Type := AES_KW.

(** One entry per invocation of a primitive of the engine. *)
Inductive engine_call : Type :=
| Call_mac (mac : mac_class) (key : list byte) (h : hash_alg) (data : list byte)
| Call_aead_encrypt (c : aead_class) (key iv plaintext : list byte)
    (aad : option (list byte))
| Call_aead_decrypt (c : aead_class) (key iv data : list byte)
    (aad : option (list byte))
| Call_wrap (w : keywrap_alg) (wrapping_key key : list byte)
| Call_unwrap (w : keywrap_alg) (wrapping_key wrapped : list byte).

(** [tape] is the stream [secrets.token_bytes] reads, [cursor] the number
    of bytes read so far, [engine_calls] the engine invocations made so far,
    latest first. *)
Record world : Type := World {
  tape : nat -> byte;
  cursor : nat;
  engine_calls : list engine_call
}.

Definition M (A : Type) : Type := world -> result A * world.

Definition ret {A} (a : A) : M A := fun w => (Ok a, w).
Definition raise {A} (e : exn) : M A := fun w => (Raise e, w).
Definition lift {A} (r : result A) : M A := fun w => (r, w).
Definition bind {A B} (m : M A) (k : A -> M B) : M B :=
  fun w =>
    match m w with
    | (Ok a, w') => k a w'
    | (Raise e, w') => (Raise e, w')
    end.

Declare Scope M_scope.
Delimit Scope M_scope with M.
Notation "'do' x ':=' m 'in' k" := (bind m (fun x => k))
  (at level 10, x pattern, m at level 100, k at level 200, only parsing)
  : M_scope.

Definition record_call (c : engine_call) : M unit :=
  fun w => (Ok tt, World (tape w) (cursor w) (c :: engine_calls w)).

(** [secrets.token_bytes(nbytes)]. *)
Definition token_bytes (nbytes : Z) : M (list byte) :=
  fun w =>
    if nbytes <? 0 then (Raise (ValueError Negative_argument), w)
    else
      let n := Z.to_nat nbytes in
      (Ok (map (tape w) (seq (cursor w) n)),
       World (tape w) (cursor w + n) (engine_calls w)).

(** The primitives of the [cryptography] package, a trusted black box:
    [mac_finalize] is [mac(key, hashalg)] followed by [update(data)] and
    [finalize()], [aead_encrypt c key iv p aad] is
    [c(key).encrypt(iv, p, aad)]. *)
Class Cryptography : Type := {
  mac_finalize : mac_class -> list byte -> hash_alg -> list byte -> list byte;
  aead_encrypt : aead_class -> list byte -> list byte -> list byte ->
                 option (list byte) -> result (list byte);
  aead_decrypt : aead_class -> list byte -> list byte -> list byte ->
                 option (list byte) -> result (list byte);
  keywrap_wrap : keywrap_alg -> list byte -> list byte -> result (list byte);
  keywrap_unwrap : keywrap_alg -> list byte -> list byte -> result (list byte)
}.

(** The algorithm resolution helper of [jwskate/jwk/alg.py], which is not
    part of the modelled files: [get_alg key_alg alg supported_algs] and
    [get_algs key_alg alg algs supported_algs]. *)
Class AlgResolution : Type := {
  get_alg : option pyval -> option string -> list string -> result string;
  get_algs : option pyval -> option string -> option (list string) ->
             list string -> result (list string)
}.

Section Engine.
Context `{Cryptography}.

Definition run_mac (mac : mac_class) (key : list byte) (h : hash_alg)
    (data : list byte) : M (list byte) :=
  (do _ := record_call (Call_mac mac key h data) in
   ret (mac_finalize mac key h data))%M.

Definition run_aead_encrypt (c : aead_class) (key iv plaintext : list byte)
    (aad : option (list byte)) : M (list byte) :=
  (do _ := record_call (Call_aead_encrypt c key iv plaintext aad) in
   lift (aead_encrypt c key iv plaintext aad))%M.

Definition run_aead_decrypt (c : aead_class) (key iv data : list byte)
    (aad : option (list byte)) : M (list byte) :=
  (do _ := record_call (Call_aead_decrypt c key iv data aad) in
   lift (aead_decrypt c key iv data aad))%M.

Definition run_wrap (w : keywrap_alg) (wrapping_key key : list byte)
  : M (list byte) :=
  (do _ := record_call (Call_wrap w wrapping_key key) in
   lift (keywrap_wrap w wrapping_key key))%M.

Definition run_unwrap (w : keywrap_alg) (wrapping_key wrapped : list byte)
  : M (list byte) :=
  (do _ := record_call (Call_unwrap w wrapping_key wrapped) in
   lift (keywrap_unwrap w wrapping_key wrapped))%M.
End Engine.

(** ** The [Jwk] base class *)

Inductive param_kind : Type := kind_b64u | kind_name.

Record JwkParameter : Type := {
  description : string;
  is_private : bool;
  is_required : bool;
  kind : param_kind
}.

(** Modelled from the spec: attribute access on a key ([Jwk.__getattr__] of
    [jwk/base.py], which is not part of the modelled files). A key is its
    parameter mapping and [self.name] reads the parameter of that name; a
    parameter that is absent reads as [None], which is how validation
    reports a missing [crv] as an unsupported curve. *)
Definition attr (jwk : gmap string pyval) (name : string) : pyval :=
  default PNone (jwk !! name).

Definition check_kind (k : param_kind) (v : pyval) : bool :=
  match k, v with
  | kind_name, PStr _ => true
  | kind_name, _ => false
  | kind_b64u, PNone => false
  | kind_b64u, v => match b64u_decode v with Ok _ => true | Raise _ => false end
  end.

(** Modelled from the spec: the generic validation of the base entity
    ([jwskate/jwk/base.py] is not part of the modelled files). A key is
    valid only if the required parameters of its variant are present and each
    present value decodes according to its declared kind, else the
    structural validation error is raised; the private parameters may be
    absent (a public key). *)
Fixpoint Jwk_validate (PARAMS : list (string * JwkParameter))
    (jwk : gmap string pyval) : result unit :=
  match PARAMS with
  | [] => Ok tt
  | (name, p) :: rest =>
      match jwk !! name with
      | None =>
          if is_required p && negb (is_private p)
          then Raise (StructuralValidationError name)
          else Jwk_validate rest jwk
      | Some v =>
          if check_kind (kind p) v then Jwk_validate rest jwk
          else Raise (StructuralValidationError name)
      end
  end.

(** ** [jwskate/jwk/symetric.py] *)

Module SymmetricJwk.

Definition kty : string := "oct".

Definition PARAMS : list (string * JwkParameter) :=
  [("k", Build_JwkParameter "Key Value" true true kind_b64u)].

(** name: (MAC, alg, min_key_size) *)
Definition SIGNATURE_ALGORITHMS : list (string * (mac_class * hash_alg * Z)) :=
  [("HS256", (HMAC, SHA256, 256));
   ("HS384", (HMAC, SHA384, 384));
   ("HS512", (HMAC, SHA512, 512))].

(** name: ("Description", wrap and unwrap method, key_size) *)
Definition KEY_MANAGEMENT_ALGORITHMS
  : list (string * (string * keywrap_alg * Z)) :=
  [("A128KW",
    ("AES Key Wrap with default initial value using 128-bit key", AES_KW, 128));
   ("A192KW",
    ("AES Key Wrap with default initial value using 192-bit key", AES_KW, 192));
   ("A256KW",
    ("AES Key Wrap with default initial value using 256-bit key", AES_KW, 256))].

(** name: (description, alg, key_size, iv_size, tag_size) *)
Definition ENCRYPTION_ALGORITHMS
  : list (string * (string * aead_class * Z * Z * Z)) :=
  [("A128CBC-HS256", ("AES_128_CBC_HMAC_SHA_256", AESCCM, 128, 96, 16));
   ("A192CBC-HS384", ("AES_192_CBC_HMAC_SHA_384", AESCCM, 192, 96, 24));
   ("A256CBC-HS512", ("AES_128_CBC_HMAC_SHA_256", AESCCM, 256, 96, 32));
   ("A128GCM", ("AES GCM using 128-bit key", AESGCM, 128, 96, 16));
   ("A192GCM", ("AES GCM using 192-bit key", AESGCM, 192, 96, 16));
   ("A256GCM", ("AES GCM using 256-bit key", AESGCM, 256, 96, 16))].

(** Modelled from the spec: the three [supported_*_algorithms] attributes
    are inherited from the base class, which is not part of the modelled
    files; they are the identifiers of the class tables, in table order. *)
Definition supported_signing_algorithms : list string :=
  map fst SIGNATURE_ALGORITHMS.
Definition supported_encryption_algorithms : list string :=
  map fst ENCRYPTION_ALGORITHMS.
Definition supported_key_management_algorithms : list string :=
  map fst KEY_MANAGEMENT_ALGORITHMS.

(** [cls(params)]: the mapping becomes the key once it is validated. *)
Definition new (params : gmap string pyval) : result (gmap string pyval) :=
  (try _ := Jwk_validate PARAMS params in Ok params)%result.

Definition public_jwk (jwk : gmap string pyval) : result (gmap string pyval) :=
  Raise (ValueError No_public_key).

(** The [dict(...)] that [from_bytes] passes to [cls]. *)
Definition from_bytes_params (k : pyval) (params : gmap string pyval)
  : result (gmap string pyval) :=
  (try _ := bind_params ["cls"; "k"] params in
   kwargs [("key", PStr "oct"); ("k", PStr (b64u_encode k))] params)%result.

Definition from_bytes (k : pyval) (params : gmap string pyval)
  : result (gmap string pyval) :=
  (try d := from_bytes_params k params in new d)%result.

Definition generate (size : Z) (params : gmap string pyval)
  : M (gmap string pyval) :=
  (do _ := lift (bind_params ["cls"; "size"] params) in
   do key := token_bytes size in
   lift (from_bytes (PBytes key) params))%M.

(** The default of [size]. *)
Definition generate_default_size : Z := 128.

Definition generate_for_alg (alg : string) (params : gmap string pyval)
  : M (gmap string pyval) :=
  (do _ := lift (bind_params ["cls"; "alg"] params) in
   match assoc SIGNATURE_ALGORITHMS alg with
   | Some (_, _, min_key_size) =>
       do kw := lift (kwargs [("alg", PStr alg)] params) in
       generate min_key_size kw
   | None =>
       match assoc ENCRYPTION_ALGORITHMS alg with
       | Some (_, _, key_size, _, _) =>
           do kw := lift (kwargs [("alg", PStr alg)] params) in
           generate key_size kw
       | None => raise (ValueError (Unsupported_alg alg))
       end
   end)%M.

Definition key (jwk : gmap string pyval) : result (list byte) :=
  b64u_decode (attr jwk "k").

Definition key_size (jwk : gmap string pyval) : result Z :=
  (try k := key jwk in Ok (Z.of_nat (List.length k) * 8))%result.

Section Operations.
Context `{Cryptography} `{AlgResolution}.

Definition sign (jwk : gmap string pyval) (data : list byte)
    (alg : option string) : M (list byte) :=
  (do alg := lift (get_alg (jwk !! "alg") alg supported_signing_algorithms) in
   match assoc SIGNATURE_ALGORITHMS alg with
   | None => raise (ValueError (Unsupported_signing_alg alg))
   | Some (mac, hashalg, min_key_size) =>
       do k := lift (key jwk) in
       run_mac mac k hashalg data
   end)%M.

(** The body of the [for alg in ...] loop of [verify]. *)
Fixpoint verify_loop (jwk : gmap string pyval) (data signature : list byte)
    (algs : list string) : M bool :=
  match algs with
  | [] => ret false
  | alg :: rest =>
      match assoc SIGNATURE_ALGORITHMS alg with
      | None => raise (ValueError (Unsupported_signing_alg alg))
      | Some (mac, hashalg, min_key_size) =>
          (do k := lift (key jwk) in
           do candidate_signature := run_mac mac k hashalg data in
           if bytes_eqb signature candidate_signature then ret true
           else verify_loop jwk data signature rest)%M
      end
  end.

Definition verify (jwk : gmap string pyval) (data signature : list byte)
    (alg : option string) (algs : option (list string)) : M bool :=
  (do candidates :=
     lift (get_algs (jwk !! "alg") alg algs supported_signing_algorithms) in
   verify_loop jwk data signature candidates)%M.

Definition encrypt (jwk : gmap string pyval) (plaintext : list byte)
    (aad : option (list byte)) (alg : option string)
    (iv : option (list byte)) : M (list byte * list byte * list byte) :=
  (do alg :=
     lift (get_alg (jwk !! "alg") alg supported_encryption_algorithms) in
   match assoc ENCRYPTION_ALGORITHMS alg with
   | None => raise (KeyError alg)
   | Some (description, alg_class, key_size_, iv_size, tag_size) =>
       do size := lift (key_size jwk) in
       if negb (size =? key_size_) then
         raise (ValueError (Key_size_mismatch size description key_size_))
       else
         do iv := match iv with
                  | None => token_bytes iv_size
                  | Some iv => ret iv
                  end in
         do k := lift (key jwk) in
         do cyphertext_with_tag := run_aead_encrypt alg_class k iv plaintext aad in
         let cyphertext := slice_to cyphertext_with_tag (- tag_size) in
         let tag := slice_from cyphertext_with_tag (- tag_size) in
         ret (cyphertext, tag, iv)
   end)%M.

Definition decrypt (jwk : gmap string pyval) (cyphertext tag iv : list byte)
    (aad : option (list byte)) (alg : option string) : M (list byte) :=
  (do alg :=
     lift (get_alg (jwk !! "alg") alg supported_encryption_algorithms) in
   match assoc ENCRYPTION_ALGORITHMS alg with
   | None => raise (KeyError alg)
   | Some (description, alg_class, key_size_, iv_size, tag_size) =>
       do size := lift (key_size jwk) in
       if negb (size =? key_size_) then
         raise (ValueError (Key_size_mismatch size description key_size_))
       else
         do k := lift (key jwk) in
         let cyphertext_with_tag := cyphertext ++ tag in
         run_aead_decrypt alg_class k iv cyphertext_with_tag aad
   end)%M.

Definition wrap_key (jwk : gmap string pyval) (key_ : list byte)
    (alg : option string) : M (list byte) :=
  (do alg :=
     lift (get_alg (jwk !! "alg") alg supported_key_management_algorithms) in
   match assoc KEY_MANAGEMENT_ALGORITHMS alg with
   | None => raise (KeyError alg)
   | Some (description, method, key_size_) =>
       do size := lift (key_size jwk) in
       if negb (size =? key_size_) then
         raise (ValueError (Key_size_mismatch size description key_size_))
       else
         do k := lift (key jwk) in
         run_wrap method k key_
   end)%M.

Definition unwrap_key (jwk : gmap string pyval) (cypherkey : list byte)
    (alg : option string) : M (list byte) :=
  (do alg :=
     lift (get_alg (jwk !! "alg") alg supported_key_management_algorithms) in
   match assoc KEY_MANAGEMENT_ALGORITHMS alg with
   | None => raise (KeyError alg)
   | Some (description, method, key_size_) =>
       do size := lift (key_size jwk) in
       if negb (size =? key_size_) then
         raise (ValueError (Key_size_mismatch size description key_size_))
       else
         do k := lift (key jwk) in
         run_unwrap method k cypherkey
   end)%M.
End Operations.

End SymmetricJwk.

(** ** [jwskate.jwa]: curve and signature-algorithm descriptors *)

(** Modelled from the spec: the handle of the native curve in a curve
    descriptor. *)
Inductive native_curve : Type := SECP256R1 | SECP384R1 | SECP521R1 | SECP256K1.

(** Modelled from the spec: a curve descriptor, with its name, native
    handle and coordinate size in bytes. *)
Record EllipticCurve : Type := {
  name : string;
  cryptography_curve : native_curve;
  coordinate_size : Z
}.

#[global] Instance native_curve_eq_decision : EqDecision native_curve.
Proof. solve_decision. Defined.

#[global] Instance EllipticCurve_eq_decision : EqDecision EllipticCurve.
Proof. solve_decision. Defined.

(** Modelled from the spec: the curve registry of [jwskate.jwa], which is
    not part of the modelled files: three NIST curves with coordinate
    sizes 32, 48 and 66 bytes, and secp256k1 with 32 bytes. *)
Definition P_256 : EllipticCurve := Build_EllipticCurve "P-256" SECP256R1 32.
Definition P_384 : EllipticCurve := Build_EllipticCurve "P-384" SECP384R1 48.
Definition P_521 : EllipticCurve := Build_EllipticCurve "P-521" SECP521R1 66.
Definition secp256k1 : EllipticCurve :=
  Build_EllipticCurve "secp256k1" SECP256K1 32.

(** Modelled from the spec: an EC signing descriptor, with its identifier
    and the curve it requires. *)
Record ECSignatureAlg : Type := {
  sig_name : string;
  curve : EllipticCurve;
  hashing_alg : hash_alg
}.

(** Modelled from the spec: the EC signing descriptors of [jwskate.jwa],
    which is not part of the modelled files, each with the curve it
    requires. The spec names [ES256] for P-256 and [ES256K] for secp256k1
    and keys the tables to the four registered curves; [ES384] and [ES512]
    are given the two remaining curves, P-384 and P-521, as RFC 7518 has
    them; the statements below that name an algorithm name [ES256] and
    [ES256K] only. *)
Definition ES256 : ECSignatureAlg := Build_ECSignatureAlg "ES256" P_256 SHA256.
Definition ES384 : ECSignatureAlg := Build_ECSignatureAlg "ES384" P_384 SHA384.
Definition ES512 : ECSignatureAlg := Build_ECSignatureAlg "ES512" P_521 SHA512.
Definition ES256K : ECSignatureAlg :=
  Build_ECSignatureAlg "ES256K" secp256k1 SHA256.

(** ** [binapy.BinaPy], as far as [ec.py] uses it

    The [b64u] codec of the package is the unpadded urlsafe base64 of
    [utils.py]. *)
Module BinaPy.

(** [BinaPy.from_int(i, length)]. *)
Definition from_int (i : Z) (length : Z) : result (list byte) :=
  int_to_bytes i (Some length).

(** [bp.encode_to("b64u")]. *)
Definition encode_to_b64u (bp : list byte) : list byte :=
  b64u_encode_bytes bp false.

(** [BinaPy(value)]: a [str] is encoded, [bytes] are kept, anything else
    is a [TypeError]. *)
Definition new (value : pyval) : result (list byte) :=
  match value with
  | PBytes b => Ok b
  | PStr s => Ok (encode_utf8 s)
  | PNone => Raise TypeError
  end.

(** [bp.decode_from("b64u")], taken to be the decoder of [utils.py]: the
    two agree on the text the [b64u] encoder returns, which is all that the
    statements below decode with it; on other text the library may be
    stricter. *)
Definition decode_from_b64u (bp : list byte) : result (list byte) :=
  b64u_decode_bytes bp.

(** [bp.to_int()]. *)
Definition to_int (bp : list byte) : Z := int_from_bytes bp.

End BinaPy.

(** Modelled from the spec: the point-generation operation of a curve
    descriptor ([curve.generate()] of [jwskate.jwa], which is not part of the
    modelled files): it returns the coordinates [(x, y, d)] of a fresh key
    pair, or raises. *)
Class CurveGeneration : Type := {
  curve_generate : EllipticCurve -> M (Z * Z * Z)
}.

(** ** [jwskate/jwk/ec.py] *)

Module ECJwk.

Definition KTY : string := "EC".

Definition PARAMS : list (string * JwkParameter) :=
  [("crv", Build_JwkParameter "Curve" false true kind_name);
   ("x", Build_JwkParameter "X Coordinate" false true kind_b64u);
   ("y", Build_JwkParameter "Y Coordinate" false true kind_b64u);
   ("d", Build_JwkParameter "ECC Private Key" true true kind_b64u)].

Definition CURVES : list (string * EllipticCurve) :=
  map (fun curve => (name curve, curve)) [P_256; P_384; P_521; secp256k1].

Definition SIGNATURE_ALGORITHMS : list (string * ECSignatureAlg) :=
  map (fun sigalg => (sig_name sigalg, sigalg)) [ES256; ES384; ES512; ES256K].

Definition _validate (jwk : gmap string pyval) : result unit :=
  match attr jwk "crv" with
  | PStr crv =>
      match assoc CURVES crv with
      | Some _ => Jwk_validate PARAMS jwk
      | None => Raise (UnsupportedEllipticCurve (jwk !! "crv"))
      end
  | _ => Raise (UnsupportedEllipticCurve (jwk !! "crv"))
  end.

(** [cls(params)]. *)
Definition new (params : gmap string pyval) : result (gmap string pyval) :=
  (try _ := _validate params in Ok params)%result.

Definition get_curve (crv : pyval) : result EllipticCurve :=
  match crv with
  | PStr s =>
      match assoc CURVES s with
      | Some curve => Ok curve
      | None => Raise (UnsupportedEllipticCurve (Some crv))
      end
  | PNone => Raise (UnsupportedEllipticCurve None)
  | _ => Raise (UnsupportedEllipticCurve (Some crv))
  end.

Definition curve_of (jwk : gmap string pyval) : result EllipticCurve :=
  get_curve (attr jwk "crv").

(** The [dict(...)] that [public] passes to [cls]. *)
Definition public_params (crv : string) (x y : Z) (params : gmap string pyval)
  : result (gmap string pyval) :=
  (try _ := bind_params ["cls"; "crv"; "x"; "y"] params in
   try c := get_curve (PStr crv) in
   let coord_size := coordinate_size c in
   try bx := BinaPy.from_int x coord_size in
   try by_ := BinaPy.from_int y coord_size in
   kwargs [("key", PStr "EC");
           ("crv", PStr crv);
           ("x", PBytes (BinaPy.encode_to_b64u bx));
           ("y", PBytes (BinaPy.encode_to_b64u by_))] params)%result.

Definition public (crv : string) (x y : Z) (params : gmap string pyval)
  : result (gmap string pyval) :=
  (try d := public_params crv x y params in new d)%result.

(** The [dict(...)] that [private] passes to [cls]. *)
Definition private_params (crv : string) (x y d : Z)
    (params : gmap string pyval) : result (gmap string pyval) :=
  (try _ := bind_params ["cls"; "crv"; "x"; "y"; "d"] params in
   try c := get_curve (PStr crv) in
   let coord_size := coordinate_size c in
   try bx := BinaPy.from_int x coord_size in
   try by_ := BinaPy.from_int y coord_size in
   try bd := BinaPy.from_int d coord_size in
   kwargs [("kty", PStr "EC");
           ("crv", PStr crv);
           ("x", PStr (decode_ascii (BinaPy.encode_to_b64u bx)));
           ("y", PStr (decode_ascii (BinaPy.encode_to_b64u by_)));
           ("d", PStr (decode_ascii (BinaPy.encode_to_b64u bd)))] params)%result.

Definition private (crv : string) (x y d : Z) (params : gmap string pyval)
  : result (gmap string pyval) :=
  (try p := private_params crv x y d params in new p)%result.

Definition coordinate_size_of (jwk : gmap string pyval) : result Z :=
  (try c := curve_of jwk in Ok (coordinate_size c))%result.

Definition coordinate (jwk : gmap string pyval) (param : string) : result Z :=
  (try bp := BinaPy.new (attr jwk param) in
   try raw := BinaPy.decode_from_b64u bp in
   Ok (BinaPy.to_int raw))%result.

Definition x_coordinate (jwk : gmap string pyval) : result Z := coordinate jwk "x".
Definition y_coordinate (jwk : gmap string pyval) : result Z := coordinate jwk "y".
Definition ecc_private_key (jwk : gmap string pyval) : result Z := coordinate jwk "d".

(** The comprehension of [supported_signing_algorithms]: [self.curve] is
    evaluated for every entry of the table. *)
Fixpoint curve_gated (jwk : gmap string pyval)
    (items : list (string * ECSignatureAlg)) : result (list string) :=
  match items with
  | [] => Ok []
  | (name, alg) :: rest =>
      (try own := curve_of jwk in
       try tail := curve_gated jwk rest in
       Ok (if bool_decide (curve alg = own) then name :: tail else tail))%result
  end.

Definition supported_signing_algorithms (jwk : gmap string pyval)
  : result (list string) :=
  curve_gated jwk SIGNATURE_ALGORITHMS.

Section Generate.
Context `{CurveGeneration}.

(** [generate(crv="P-256", **params)]; the test [if curve is None] after
    [get_curve] never holds, [get_curve] returning a curve or raising. *)
Definition generate (crv : string) (params : gmap string pyval)
  : M (gmap string pyval) :=
  (do _ := lift (bind_params ["cls"; "crv"] params) in
   do curve := lift (get_curve (PStr crv)) in
   do xyd := curve_generate curve in
   let '(x, y, d) := xyd in
   lift (private crv x y d params))%M.

(** The default of [crv]. *)
Definition generate_default_crv : string := "P-256".

End Generate.

End ECJwk.


(** ** Instances used to run the operations on examples *)

(** Modelled from the spec: the algorithm resolution helper
    ([jwskate/jwk/alg.py] is not part of the modelled files). An explicitly
    supplied algorithm wins and must belong to the supported set; else the
    key's declared algorithm is used; for verification the candidates are the
    explicit algorithm, else the supplied candidates, else the key's declared
    algorithm, else the whole supported set in table order. *)
Definition spec_get_alg (key_alg : option pyval) (alg : option string)
    (supported_algs : list string) : result string :=
  match alg with
  | Some a =>
      if existsb (String.eqb a) supported_algs then Ok a
      else Raise (ValueError (Unsupported_alg a))
  | None =>
      match key_alg with
      | Some (PStr a) => Ok a
      | _ => Raise (ValueError No_algorithm_specified)
      end
  end.

(** Modelled from the spec: the ordered candidates [verify] tries. *)
Definition spec_get_algs (key_alg : option pyval) (alg : option string)
    (algs : option (list string)) (supported_algs : list string)
  : result (list string) :=
  match alg with
  | Some a =>
      if existsb (String.eqb a) supported_algs then Ok [a]
      else Raise (ValueError (Unsupported_alg a))
  | None =>
      match algs with
      | Some l => Ok l
      | None =>
          match key_alg with
          | Some (PStr a) => Ok [a]
          | _ => Ok supported_algs
          end
      end
  end.

Definition spec_resolution : AlgResolution :=
  {| get_alg := spec_get_alg; get_algs := spec_get_algs |}.

(** A stand-in for the engine, with no cryptographic strength: the MAC is the
    key followed by the data, the AEAD output is the plaintext followed by a
    16-byte zero tag, key wrap prefixes eight zero bytes. *)
Definition toy_engine : Cryptography :=
  {| mac_finalize := fun _ key _ data => key ++ data;
     aead_encrypt := fun _ _ _ p _ => Ok (p ++ repeat x00 16);
     aead_decrypt := fun _ _ _ c _ => Ok (firstn (List.length c - 16) c);
     keywrap_wrap := fun _ _ k => Ok (repeat x00 8 ++ k);
     keywrap_unwrap := fun _ _ c => Ok (skipn 8 c) |}.

Definition zero_world : world := World (fun _ => x00) 0 [].

(** A 16-byte secret, as a key without a declared algorithm. *)
Definition key128 : gmap string pyval :=
  {[ "key" := PStr "oct"; "k" := PStr "AAECAwQFBgcICQoLDA0ODw" ]}.

(** A one-byte secret. *)
Definition key8 : gmap string pyval := {[ "key" := PStr "oct"; "k" := PStr "AQ" ]}.

(** A public P-256 key whose [x] is one byte long. *)
Definition short_x_key : gmap string pyval :=
  {[ "kty" := PStr "EC"; "crv" := PStr "P-256";
     "x" := PStr "AQ"; "y" := PStr "Ag" ]}.

(** A second stand-in for the engine, whose MAC depends on the hash: the MAC
    is a one-byte tag of the hash, then the key, then the data. *)
Definition hash_tag (h : hash_alg) : byte :=
  match h with
  | SHA256 => x01
  | SHA384 => x02
  | SHA512 => x03
  end.

Definition tagged_engine : Cryptography :=
  {| mac_finalize := fun _ key h data => hash_tag h :: key ++ data;
     aead_encrypt := fun _ _ _ p _ => Ok (p ++ repeat x00 16);
     aead_decrypt := fun _ _ _ c _ => Ok (firstn (List.length c - 16) c);
     keywrap_wrap := fun _ _ k => Ok (repeat x00 8 ++ k);
     keywrap_unwrap := fun _ _ c => Ok (skipn 8 c) |}.

(** A generator that returns a fixed triple and draws 32 bytes of entropy. *)
Definition fixed_generation (x y d : Z) : CurveGeneration :=
  {| curve_generate := fun _ w =>
       (Ok (x, y, d), World (tape w) (cursor w + 32) (engine_calls w)) |}.

(** ** Definitions used in the statements *)

(** The numbers below [k], for checks by enumeration. *)
Definition N_range (k : nat) : list N := map N.of_nat (seq 0 k).

(** The character the urlsafe encoder writes for a sextet. *)
Definition url_char (n : N) : byte :=
  base64._urlsafe_encode_translation (base64.b2a n).

(** The curves of [ECJwk.CURVES]. *)
Definition registered_curves : list EllipticCurve :=
  [P_256; P_384; P_521; secp256k1].

(** ** [jwskate/utils.py]: the standard-alphabet helpers *)

Definition b64_encode_bytes (data : list byte) (padded : bool) : list byte :=
  let encoded := base64.b64encode data in
  if padded then encoded else rstrip base64.BASE64_PAD encoded.

(** [b64_encode(data, encoding="utf-8", padded)]. *)
Definition b64_encode_opt (data : pyval) (padded : bool) : string :=
  let data :=
    match data with
    | PBytes b => b
    | PStr s => encode_utf8 s
    | PNone => encode_utf8 str_None
    end in
  decode_ascii (b64_encode_bytes data padded).

(** [b64_encode(data)] with the defaults [encoding="utf-8", padded=True]. *)
Definition b64_encode (data : pyval) : string := b64_encode_opt data true.

(** The body of [b64_decode]: it restores the padding and calls
    [base64.urlsafe_b64decode], as [b64u_decode] does. *)
Definition b64_decode_bytes (data : list byte) : result (list byte) :=
  let padding_len := (List.length data mod 4)%nat in
  let data :=
    if Nat.eqb padding_len 0 then data
    else data ++ repeat base64.BASE64_PAD padding_len in
  base64.urlsafe_b64decode data.

Definition b64_decode (data : pyval) : result (list byte) :=
  match data with
  | PBytes b => b64_decode_bytes b
  | PStr s => rbind (encode_ascii s) b64_decode_bytes
  | PNone => rbind (encode_ascii str_None) b64_decode_bytes
  end.

(** The characters of the urlsafe alphabet, without the pad. *)
Definition urlsafe_alphabet : list byte :=
  list_byte_of_string
    "ABCDEFGHIJKLMNOPQRSTUVWXYZabcdefghijklmnopqrstuvwxyz0123456789-_".

Definition is_urlsafe_char (c : byte) : bool :=
  existsb (Byte.eqb c) urlsafe_alphabet.


(** The parameter [param] of the mapping is present and is the base64url
    text of [octets]. *)
Definition stored_as (jwk : gmap string pyval) (param : string)
    (octets : list byte) : Prop :=
  exists value, jwk !! param = Some value /\ b64u_decode value = Ok octets.

(** * Properties *)

(** ** Finite checks over bytes and sextets *)


Lemma N_range_check (P : N -> bool) (k : nat) :
  forallb P (N_range k) = true ->
  forall n, (n < N.of_nat k)%N -> P n = true.
Proof.
  intros Hall n Hn.
  rewrite forallb_forall in Hall. apply Hall.
  unfold N_range. apply in_map_iff. exists (N.to_nat n). split.
  - apply N2Nat.id.
  - apply in_seq. lia.
Qed.

Lemma N_range_check2 (P : N -> N -> bool) (k1 k2 : nat) :
  forallb (fun x => forallb (P x) (N_range k2)) (N_range k1) = true ->
  forall x y, (x < N.of_nat k1)%N -> (y < N.of_nat k2)%N -> P x y = true.
Proof.
  intros Hall x y Hx Hy.
  apply (N_range_check (P x) k2); [|exact Hy].
  apply (N_range_check (fun x => forallb (P x) (N_range k2)) k1 Hall x Hx).
Qed.

Lemma byte_to_N_lt (b : byte) : (Byte.to_N b < N.of_nat 256)%N.
Proof. pose proof (Byte.to_N_bounded b). lia. Qed.

Lemma byte_of_to_N (b : byte) : byte_of_N (Byte.to_N b) = b.
Proof.
  unfold byte_of_N. rewrite N.mod_small by (pose proof (Byte.to_N_bounded b); lia).
  now rewrite Byte.of_to_N.
Qed.

Lemma byte_eqb_refl (b : byte) : Byte.eqb b b = true.
Proof. now apply Byte.byte_dec_lb. Qed.

Lemma byte_eqb_neq (a b : byte) : a <> b -> Byte.eqb a b = false.
Proof.
  intros Hne. destruct (Byte.eqb a b) eqn:E; [|reflexivity].
  apply Byte.byte_dec_bl in E. contradiction.
Qed.

(** ** Base64: the decoder inverts the encoder *)

Module base64_facts.
Import base64.


Lemma url_char_decodes (n : N) :
  (n < 64)%N ->
  Byte.eqb (url_char n) BASE64_PAD = false
  /\ Byte.eqb (_urlsafe_decode_translation (url_char n)) BASE64_PAD = false
  /\ a2b (_urlsafe_decode_translation (url_char n)) = Some n
  /\ (Byte.to_N (url_char n) <? 128)%N = true.
Proof.
  intros Hn.
  pose (P := fun n =>
    negb (Byte.eqb (url_char n) BASE64_PAD)
    && negb (Byte.eqb (_urlsafe_decode_translation (url_char n)) BASE64_PAD)
    && bool_decide (a2b (_urlsafe_decode_translation (url_char n)) = Some n)
    && (Byte.to_N (url_char n) <? 128)%N).
  assert (HP : P n = true).
  { apply (N_range_check P 64); [vm_compute; reflexivity | exact Hn]. }
  unfold P in HP.
  repeat (apply andb_true_iff in HP; destruct HP as [HP ?]).
  apply negb_true_iff in HP.
  repeat split; try assumption.
  - now apply negb_true_iff.
  - eapply bool_decide_eq_true; eassumption.
Qed.

(** The sextets of a group are below 64, and regrouping them as the
    decoder does gives the bytes back. *)
Lemma sextet_bounds (x y : N) :
  (x < 256)%N -> (y < 256)%N ->
  (N.shiftr x 2 < 64)%N
  /\ (N.shiftl (N.land x 3) 4 < 64)%N
  /\ (N.lor (N.shiftl (N.land x 3) 4) (N.shiftr y 4) < 64)%N
  /\ (N.shiftl (N.land x 15) 2 < 64)%N
  /\ (N.lor (N.shiftl (N.land x 15) 2) (N.shiftr y 6) < 64)%N
  /\ (N.land x 63 < 64)%N.
Proof.
  intros Hx Hy.
  pose (P := fun x y =>
    (N.shiftr x 2 <? 64)%N
    && (N.shiftl (N.land x 3) 4 <? 64)%N
    && (N.lor (N.shiftl (N.land x 3) 4) (N.shiftr y 4) <? 64)%N
    && (N.shiftl (N.land x 15) 2 <? 64)%N
    && (N.lor (N.shiftl (N.land x 15) 2) (N.shiftr y 6) <? 64)%N
    && (N.land x 63 <? 64)%N).
  assert (HP : P x y = true).
  { apply (N_range_check2 P 256 256); [vm_compute; reflexivity | exact Hx | exact Hy]. }
  unfold P in HP.
  repeat (apply andb_true_iff in HP; destruct HP as [HP ?]).
  repeat split; now apply N.ltb_lt.
Qed.

Lemma regroup (x y : N) :
  (x < 256)%N -> (y < 256)%N ->
  (* first byte, from the first two sextets *)
  N.lor (N.shiftl (N.shiftr x 2) 2)
        (N.shiftr (N.lor (N.shiftl (N.land x 3) 4) (N.shiftr y 4)) 4) = x
  /\ N.lor (N.shiftl (N.shiftr x 2) 2)
           (N.shiftr (N.shiftl (N.land x 3) 4) 4) = x
  (* what the second sextet leaves in [leftchar] *)
  /\ N.land (N.lor (N.shiftl (N.land x 3) 4) (N.shiftr y 4)) 15 = N.shiftr y 4
  (* second byte, from the rest of the second sextet and the third *)
  /\ N.lor (N.shiftl (N.shiftr x 4) 4)
           (N.shiftr (N.lor (N.shiftl (N.land x 15) 2) (N.shiftr y 6)) 2) = x
  /\ N.lor (N.shiftl (N.shiftr x 4) 4)
           (N.shiftr (N.shiftl (N.land x 15) 2) 2) = x
  (* third byte, from the rest of the third sextet and the fourth *)
  /\ N.lor (N.shiftl (N.land (N.lor (N.shiftl (N.land x 15) 2) (N.shiftr y 6)) 3) 6)
           (N.land y 63) = y.
Proof.
  intros Hx Hy.
  pose (P := fun x y =>
    (N.lor (N.shiftl (N.shiftr x 2) 2)
        (N.shiftr (N.lor (N.shiftl (N.land x 3) 4) (N.shiftr y 4)) 4) =? x)%N
    && (N.lor (N.shiftl (N.shiftr x 2) 2)
           (N.shiftr (N.shiftl (N.land x 3) 4) 4) =? x)%N
    && (N.land (N.lor (N.shiftl (N.land x 3) 4) (N.shiftr y 4)) 15 =? N.shiftr y 4)%N
    && (N.lor (N.shiftl (N.shiftr x 4) 4)
           (N.shiftr (N.lor (N.shiftl (N.land x 15) 2) (N.shiftr y 6)) 2) =? x)%N
    && (N.lor (N.shiftl (N.shiftr x 4) 4)
           (N.shiftr (N.shiftl (N.land x 15) 2) 2) =? x)%N
    && (N.lor (N.shiftl (N.land (N.lor (N.shiftl (N.land x 15) 2) (N.shiftr y 6)) 3) 6)
           (N.land y 63) =? y)%N).
  assert (HP : P x y = true).
  { apply (N_range_check2 P 256 256); [vm_compute; reflexivity | exact Hx | exact Hy]. }
  unfold P in HP.
  repeat (apply andb_true_iff in HP; destruct HP as [HP ?]).
  repeat split; now apply N.eqb_eq.
Qed.

End base64_facts.

Section Base64Roundtrip.
Import base64 base64_facts.

Lemma lstrip_app (c : byte) (l1 l2 : list byte) :
  lstrip c (l1 ++ l2) =
    match lstrip c l1 with
    | [] => lstrip c l2
    | r => r ++ l2
    end.
Proof.
  induction l1 as [|x l1 IH]; simpl; [reflexivity|].
  destruct (Byte.eqb x c); [exact IH | reflexivity].
Qed.

Lemma rstrip_cons_ne (c x : byte) (l : list byte) :
  Byte.eqb x c = false -> rstrip c (x :: l) = x :: rstrip c l.
Proof.
  intros Hx. unfold rstrip. simpl rev. rewrite lstrip_app.
  destruct (lstrip c (rev l)) as [|y r] eqn:E.
  - simpl. now rewrite Hx.
  - now rewrite rev_app_distr.
Qed.

Variables a b c : byte.

Let s0 : N := N.shiftr (Byte.to_N a) 2.
Let s1 : N := N.lor (N.shiftl (N.land (Byte.to_N a) 3) 4) (N.shiftr (Byte.to_N b) 4).
Let s1' : N := N.shiftl (N.land (Byte.to_N a) 3) 4.
Let s2 : N := N.lor (N.shiftl (N.land (Byte.to_N b) 15) 2) (N.shiftr (Byte.to_N c) 6).
Let s2' : N := N.shiftl (N.land (Byte.to_N b) 15) 2.
Let s3 : N := N.land (Byte.to_N c) 63.

(** The unpadded encoding, group by group. *)
Lemma b64u_encode_bytes_nil : b64u_encode_bytes [] false = [].
Proof. reflexivity. Qed.

Lemma b64u_encode_bytes_one :
  b64u_encode_bytes [a] false = [url_char s0; url_char s1'].
Proof.
  pose proof (byte_to_N_lt a) as Ha.
  destruct (sextet_bounds _ _ Ha Ha) as (H0 & H1 & _).
  unfold b64u_encode_bytes, urlsafe_b64encode, b64encode. simpl.
  fold s0 s1'. fold (url_char s0) (url_char s1').
  rewrite !rstrip_cons_ne by (apply url_char_decodes; assumption).
  reflexivity.
Qed.

Lemma b64u_encode_bytes_two :
  b64u_encode_bytes [a; b] false = [url_char s0; url_char s1; url_char s2'].
Proof.
  pose proof (byte_to_N_lt a) as Ha. pose proof (byte_to_N_lt b) as Hb.
  destruct (sextet_bounds _ _ Ha Hb) as (H0 & _ & H1 & _).
  destruct (sextet_bounds _ _ Hb Hb) as (_ & _ & _ & H2 & _).
  unfold b64u_encode_bytes, urlsafe_b64encode, b64encode. simpl.
  fold s0 s1 s2'. fold (url_char s0) (url_char s1) (url_char s2').
  rewrite !rstrip_cons_ne by (apply url_char_decodes; assumption).
  reflexivity.
Qed.

Lemma b64u_encode_bytes_three (rest : list byte) :
  b64u_encode_bytes (a :: b :: c :: rest) false =
    url_char s0 :: url_char s1 :: url_char s2 :: url_char s3
    :: b64u_encode_bytes rest false.
Proof.
  pose proof (byte_to_N_lt a) as Ha. pose proof (byte_to_N_lt b) as Hb.
  pose proof (byte_to_N_lt c) as Hc.
  destruct (sextet_bounds _ _ Ha Hb) as (H0 & _ & H1 & _).
  destruct (sextet_bounds _ _ Hb Hc) as (_ & _ & _ & _ & H2 & _).
  destruct (sextet_bounds _ _ Hc Hc) as (_ & _ & _ & _ & _ & H3).
  unfold b64u_encode_bytes, urlsafe_b64encode, b64encode.
  cbn [b2a_base64 map]. fold s0 s1 s2 s3.
  fold (url_char s0) (url_char s1) (url_char s2) (url_char s3).
  rewrite !rstrip_cons_ne by (apply url_char_decodes; assumption).
  reflexivity.
Qed.

(** One character of the encoding entering the decoder. *)
Lemma a2b_loop_url_char (n : N) (rest : list byte) (q : nat) (l : N)
    (p : nat) (out : list byte) :
  (n < 64)%N ->
  a2b_loop (_urlsafe_decode_translation (url_char n) :: rest) q l p out =
    a2b_loop rest (a2b_sextet q l n out).1.1 (a2b_sextet q l n out).1.2 O
             (a2b_sextet q l n out).2.
Proof.
  intros Hn. destruct (url_char_decodes n Hn) as (_ & Hpad & Hdec & _).
  cbn [a2b_loop]. rewrite Hpad, Hdec.
  destruct (a2b_sextet q l n out) as [[q' l'] o']. reflexivity.
Qed.

Lemma a2b_loop_group (rest : list byte) (l : N) (p : nat) (out : list byte) :
  a2b_loop (map _urlsafe_decode_translation
              [url_char s0; url_char s1; url_char s2; url_char s3] ++ rest)
           O l p out =
    a2b_loop rest O 0%N O (out ++ [a; b; c]).
Proof.
  pose proof (byte_to_N_lt a) as Ha. pose proof (byte_to_N_lt b) as Hb.
  pose proof (byte_to_N_lt c) as Hc.
  destruct (sextet_bounds _ _ Ha Hb) as (H0 & _ & H1 & _).
  destruct (sextet_bounds _ _ Hb Hc) as (_ & _ & _ & _ & H2 & _).
  destruct (sextet_bounds _ _ Hc Hc) as (_ & _ & _ & _ & _ & H3).
  destruct (regroup _ _ Ha Hb) as (R1 & _ & R2 & _).
  destruct (regroup _ _ Hb Hc) as (_ & _ & _ & R3 & _ & R4).
  cbn [map app].
  rewrite !a2b_loop_url_char by assumption.
  cbn [a2b_sextet fst snd].
  unfold s0 at 1, s1 at 1. rewrite R1.
  unfold s1 at 1. rewrite R2.
  unfold s2 at 1. rewrite R3.
  unfold s2, s3. rewrite R4.
  rewrite !byte_of_to_N, <- !app_assoc. reflexivity.
Qed.

Lemma a2b_loop_tail_one (l : N) (p : nat) (out : list byte) :
  a2b_loop (map _urlsafe_decode_translation
              ([url_char s0; url_char s1'] ++ repeat BASE64_PAD 2))
           O l p out = Ok (out ++ [a]).
Proof.
  pose proof (byte_to_N_lt a) as Ha.
  destruct (sextet_bounds _ _ Ha Ha) as (H0 & H1 & _).
  destruct (regroup _ _ Ha Ha) as (_ & R1 & _).
  cbn [map app repeat].
  rewrite !a2b_loop_url_char by assumption.
  cbn [a2b_sextet fst snd].
  unfold s0, s1'. rewrite R1, byte_of_to_N. reflexivity.
Qed.

Lemma a2b_loop_tail_two (l : N) (p : nat) (out : list byte) :
  a2b_loop (map _urlsafe_decode_translation
              ([url_char s0; url_char s1; url_char s2'] ++ repeat BASE64_PAD 3))
           O l p out = Ok (out ++ [a; b]).
Proof.
  pose proof (byte_to_N_lt a) as Ha. pose proof (byte_to_N_lt b) as Hb.
  destruct (sextet_bounds _ _ Ha Hb) as (H0 & _ & H1 & _).
  destruct (sextet_bounds _ _ Hb Hb) as (_ & _ & _ & H2 & _).
  destruct (regroup _ _ Ha Hb) as (R1 & _ & R2 & _).
  destruct (regroup _ _ Hb Hb) as (_ & _ & _ & _ & R3 & _).
  cbn [map app repeat].
  rewrite !a2b_loop_url_char by assumption.
  cbn [a2b_sextet fst snd].
  unfold s0 at 1, s1 at 1. rewrite R1.
  unfold s1 at 1. rewrite R2.
  unfold s2'. rewrite R3.
  rewrite !byte_of_to_N, <- !app_assoc. reflexivity.
Qed.

End Base64Roundtrip.

Lemma list_ind3 {A} (P : list A -> Prop) :
  P [] -> (forall a, P [a]) -> (forall a b, P [a; b]) ->
  (forall a b c l, P l -> P (a :: b :: c :: l)) ->
  forall l, P l.
Proof.
  intros H0 H1 H2 H3.
  assert (H : forall l, P l /\ (forall a, P (a :: l)) /\ (forall a b, P (a :: b :: l))).
  { induction l as [|x l (IH0 & IH1 & IH2)].
    - repeat split; auto.
    - repeat split; auto. }
  intros l. apply H.
Qed.

(** Re-padding with [len % 4] pad characters and decoding gives the bytes
    back, whatever the decoder holds in [leftchar] and [pads] at the start
    of a quad. *)
Lemma a2b_loop_b64u_encode_bytes (data : list byte) :
  forall (l : N) (p : nat) (out : list byte),
    let e := b64u_encode_bytes data false in
    base64.a2b_loop
      (map base64._urlsafe_decode_translation
         (e ++ repeat base64.BASE64_PAD (List.length e mod 4)))
      O l p out = Ok (out ++ data).
Proof.
  induction data as [| a | a b | a b c rest IH] using list_ind3; intros l p out; cbv zeta.
  - cbn. now rewrite app_nil_r.
  - rewrite b64u_encode_bytes_one. apply a2b_loop_tail_one.
  - rewrite b64u_encode_bytes_two. apply a2b_loop_tail_two.
  - rewrite b64u_encode_bytes_three.
    cbn [List.length].
    replace (S (S (S (S (List.length (b64u_encode_bytes rest false))))) mod 4)%nat
      with (List.length (b64u_encode_bytes rest false) mod 4)%nat.
    2:{ symmetry.
        replace (S (S (S (S (List.length (b64u_encode_bytes rest false))))))
          with (List.length (b64u_encode_bytes rest false) + 1 * 4)%nat by lia.
        apply Nat.Div0.mod_add. }
    change (?w :: ?x :: ?y :: ?z :: b64u_encode_bytes rest false)
      with ([w; x; y; z] ++ b64u_encode_bytes rest false).
    rewrite <- app_assoc, map_app, a2b_loop_group.
    specialize (IH 0%N O (out ++ [a; b; c])). cbv zeta in IH.
    rewrite IH, <- app_assoc. reflexivity.
Qed.

Lemma b64u_decode_bytes_encode (data : list byte) :
  b64u_decode_bytes (b64u_encode_bytes data false) = Ok data.
Proof.
  unfold b64u_decode_bytes, base64.urlsafe_b64decode, base64.b64decode,
    base64.a2b_base64.
  destruct (Nat.eqb _ 0) eqn:E.
  - apply Nat.eqb_eq in E.
    pose proof (a2b_loop_b64u_encode_bytes data 0%N O []) as Hd.
    cbv zeta in Hd. rewrite E in Hd. cbn [repeat] in Hd.
    rewrite app_nil_r in Hd. exact Hd.
  - apply (a2b_loop_b64u_encode_bytes data 0%N O []).
Qed.

Lemma url_char_ascii (n : N) :
  (n < 64)%N -> (Byte.to_N (url_char n) <? 128)%N = true.
Proof. intros Hn. now apply base64_facts.url_char_decodes. Qed.

(** The encoder writes ASCII only, so [.decode("ascii")] cannot fail. *)
Lemma b64u_encode_bytes_ascii (data : list byte) :
  forallb (fun c => (Byte.to_N c <? 128)%N) (b64u_encode_bytes data false) = true.
Proof.
  induction data as [| a | a b | a b c rest IH] using list_ind3.
  - reflexivity.
  - rewrite b64u_encode_bytes_one. cbn [forallb].
    pose proof (byte_to_N_lt a) as Ha.
    destruct (base64_facts.sextet_bounds _ _ Ha Ha) as (H0 & H1 & _).
    rewrite !url_char_ascii by assumption.
    reflexivity.
  - rewrite b64u_encode_bytes_two. cbn [forallb].
    pose proof (byte_to_N_lt a) as Ha. pose proof (byte_to_N_lt b) as Hb.
    destruct (base64_facts.sextet_bounds _ _ Ha Hb) as (H0 & _ & H1 & _).
    destruct (base64_facts.sextet_bounds _ _ Hb Hb) as (_ & _ & _ & H2 & _).
    rewrite !url_char_ascii by assumption.
    reflexivity.
  - rewrite b64u_encode_bytes_three. cbn [forallb]. rewrite IH.
    pose proof (byte_to_N_lt a) as Ha. pose proof (byte_to_N_lt b) as Hb.
    pose proof (byte_to_N_lt c) as Hc.
    destruct (base64_facts.sextet_bounds _ _ Ha Hb) as (H0 & _ & H1 & _).
    destruct (base64_facts.sextet_bounds _ _ Hb Hc) as (_ & _ & _ & _ & H2 & _).
    destruct (base64_facts.sextet_bounds _ _ Hc Hc) as (_ & _ & _ & _ & _ & H3).
    rewrite !url_char_ascii by assumption.
    reflexivity.
Qed.

Lemma encode_ascii_decode_ascii (data : list byte) :
  encode_ascii (decode_ascii (b64u_encode_bytes data false)) =
    Ok (b64u_encode_bytes data false).
Proof.
  unfold encode_ascii, decode_ascii.
  rewrite list_byte_of_string_of_list_byte, b64u_encode_bytes_ascii.
  reflexivity.
Qed.

Lemma b64u_decode_encode (data : list byte) :
  b64u_decode (PStr (b64u_encode (PBytes data))) = Ok data.
Proof.
  unfold b64u_decode, b64u_encode, b64u_encode_opt.
  rewrite encode_ascii_decode_ascii. apply b64u_decode_bytes_encode.
Qed.

(** C10. For every byte string [b], [b64u_decode(b64u_encode(b)) == b]:
    appending [len(data) % 4] pad characters before the urlsafe decoding
    inverts the unpadded urlsafe encoding, for inputs of every length
    residue modulo 3. *)
Theorem b64u_decode_b64u_encode (b : list byte) :
  b64u_decode (PStr (b64u_encode (PBytes b))) = Ok b.
Proof.
  unfold b64u_encode, b64u_encode_opt. cbn [b64u_decode].
  (* the text is ASCII, so [str] and [bytes] hold the same characters *)
  rewrite encode_ascii_decode_ascii. cbn [rbind].
  (* padding restoration, translation and the decoder's loop *)
  unfold b64u_decode_bytes, base64.urlsafe_b64decode, base64.b64decode,
    base64.a2b_base64.
  pose proof (a2b_loop_b64u_encode_bytes b 0%N O []) as Hloop.
  cbv zeta in Hloop. cbn [app] in Hloop.
  destruct (Nat.eqb (List.length (b64u_encode_bytes b false) mod 4) 0) eqn:E.
  - apply Nat.eqb_eq in E. rewrite E in Hloop. cbn [repeat] in Hloop.
    now rewrite app_nil_r in Hloop.
  - exact Hloop.
Qed.

(** ** The key-type tag written by the factories *)

Lemma kwargs_lookup (named : list (string * pyval)) (params m : gmap string pyval)
    (k : string) :
  kwargs named params = Ok m ->
  m !! k = match (list_to_map named : gmap string pyval) !! k with
           | Some v => Some v
           | None => params !! k
           end.
Proof.
  unfold kwargs. destruct (forallb _ named); [|discriminate].
  intros [= <-]. rewrite lookup_union.
  destruct (list_to_map named !! k), (params !! k); reflexivity.
Qed.

Lemma rbind_Ok {A B} (r : result A) (k : A -> result B) (b : B) :
  rbind r k = Ok b -> exists a, r = Ok a /\ k a = Ok b.
Proof. destruct r as [a|e]; simpl; [eauto | discriminate]. Qed.

Lemma private_params_kty crv x y d params m :
  ECJwk.private_params crv x y d params = Ok m ->
  m !! "kty" = Some (PStr "EC").
Proof.
  unfold ECJwk.private_params. intros Hm.
  repeat (apply rbind_Ok in Hm; destruct Hm as (? & _ & Hm)).
  rewrite (kwargs_lookup _ _ _ "kty" Hm). reflexivity.
Qed.

Lemma public_params_kty crv x y params m :
  ECJwk.public_params crv x y params = Ok m ->
  m !! "kty" = params !! "kty" /\ m !! "key" = Some (PStr "EC").
Proof.
  unfold ECJwk.public_params. intros Hm.
  repeat (apply rbind_Ok in Hm; destruct Hm as (? & _ & Hm)).
  rewrite (kwargs_lookup _ _ _ "kty" Hm), (kwargs_lookup _ _ _ "key" Hm).
  split; reflexivity.
Qed.

Lemma from_bytes_params_kty k params m :
  SymmetricJwk.from_bytes_params k params = Ok m ->
  m !! "kty" = params !! "kty" /\ m !! "key" = Some (PStr "oct").
Proof.
  unfold SymmetricJwk.from_bytes_params. intros Hm.
  repeat (apply rbind_Ok in Hm; destruct Hm as (? & _ & Hm)).
  rewrite (kwargs_lookup _ _ _ "kty" Hm), (kwargs_lookup _ _ _ "key" Hm).
  split; reflexivity.
Qed.

(** C2. The mapping built by [ECJwk.private] carries ["kty" = "EC"], but
    the mappings built by [ECJwk.public] and [SymmetricJwk.from_bytes] carry
    the tag under the name ["key"] and have no ["kty"] entry: evaluated here
    on [ECJwk.public("P-256", 1, 2)], [SymmetricJwk.from_bytes(b"\x01")]
    and [ECJwk.private("P-256", 1, 2, 3)]. *)
Theorem factories_key_type_tag :
  (exists m, ECJwk.public_params "P-256" 1 2 ∅ = Ok m
             /\ m !! "kty" = None /\ m !! "key" = Some (PStr "EC"))
  /\ (exists m, SymmetricJwk.from_bytes_params (PBytes [x01]) ∅ = Ok m
                /\ m !! "kty" = None /\ m !! "key" = Some (PStr "oct"))
  /\ (exists m, ECJwk.private_params "P-256" 1 2 3 ∅ = Ok m
                /\ m !! "kty" = Some (PStr "EC") /\ m !! "key" = None).
Proof.
  split; [|split]; eexists; (split; [vm_compute; reflexivity|]);
    split; vm_compute; reflexivity.
Qed.

(** ** Curve-gated signing algorithms *)


(** C9. [supported_signing_algorithms] returns exactly the identifiers of
    the EC signing table whose required curve is the key's curve: [ES256]
    alone for a P-256 key, [ES256K] alone for a secp256k1 key, and never an
    algorithm of another curve. *)
Theorem supported_signing_algorithms_curve_gated
    (jwk : gmap string pyval) (c : EllipticCurve) :
  In c registered_curves ->
  jwk !! "crv" = Some (PStr (name c)) ->
  exists l,
    ECJwk.supported_signing_algorithms jwk = Ok l
    /\ (forall n, In n l <->
          exists alg, assoc ECJwk.SIGNATURE_ALGORITHMS n = Some alg /\ curve alg = c)
    /\ (c = P_256 -> l = ["ES256"])
    /\ (c = secp256k1 -> l = ["ES256K"]).
Proof.
  intros Hc Hcrv.
  assert (Hown : ECJwk.curve_of jwk = Ok c).
  { unfold ECJwk.curve_of, attr. rewrite Hcrv. cbn [default].
    repeat (destruct Hc as [<- | Hc]; [reflexivity|]). destruct Hc. }
  unfold ECJwk.supported_signing_algorithms, ECJwk.SIGNATURE_ALGORITHMS.
  cbn [map ECJwk.curve_gated]. rewrite Hown. cbn [rbind].
  clear Hown Hcrv.
  destruct Hc as [<- | [<- | [<- | [<- | []]]]].
  all: eexists; split; [vm_compute; reflexivity|].
  all: split; [| split; intros Heq; try reflexivity; discriminate Heq].
  all: intros n; cbn [In assoc map sig_name ES256 ES384 ES512 ES256K].
  all: repeat match goal with
       | |- context [String.eqb ?x ?s] => destruct (String.eqb_spec x s); subst
       end.
  all: split;
       [ intros [Hn | []]; try congruence; eexists; split; reflexivity
       | intros (alg & Ha & Hcv); try discriminate Ha;
         injection Ha as <-; try discriminate Hcv; auto ].
Qed.

Lemma supported_signing_algorithms_curve_gated_witness :
  exists l,
    ECJwk.supported_signing_algorithms {[ "crv" := PStr "secp256k1" ]} = Ok l
    /\ (forall n, In n l <->
          exists alg, assoc ECJwk.SIGNATURE_ALGORITHMS n = Some alg
                      /\ curve alg = secp256k1)
    /\ (secp256k1 = P_256 -> l = ["ES256"])
    /\ (secp256k1 = secp256k1 -> l = ["ES256K"]).
Proof.
  apply (supported_signing_algorithms_curve_gated
           {[ "crv" := PStr "secp256k1" ]} secp256k1).
  - simpl. auto.
  - reflexivity.
Defined.

(** ** Symmetric keys *)

Lemma ENCRYPTION_ALGORITHMS_sizes alg d c ks ivs ts :
  assoc SymmetricJwk.ENCRYPTION_ALGORITHMS alg = Some (d, c, ks, ivs, ts) ->
  ivs = 96 /\ 0 < ts /\ In ks [128; 192; 256].
Proof.
  unfold SymmetricJwk.ENCRYPTION_ALGORITHMS. cbn [assoc].
  repeat match goal with
  | |- context [String.eqb ?x ?s] => destruct (String.eqb x s)
  end; intros [= <- <- <- <- <-] || discriminate 1; cbn; intuition lia.
Qed.

Lemma token_bytes_length (n : Z) (w w' : world) (b : list byte) :
  token_bytes n w = (Ok b, w') ->
  Z.of_nat (List.length b) = n /\ engine_calls w' = engine_calls w.
Proof.
  unfold token_bytes. destruct (n <? 0) eqn:E; [discriminate|].
  intros [= <- <-]. rewrite length_map, length_seq. simpl.
  apply Z.ltb_ge in E. split; [lia | reflexivity].
Qed.

Section SymmetricFacts.
Context `{Cryptography} `{AlgResolution}.

(** C3. Without a caller-supplied IV, [encrypt] draws the IV with
    [secrets.token_bytes(iv_size)] where the table's [iv_size] is 96: the
    IV in the returned triple is 96 bytes (768 bits) long, not 96 bits
    (12 bytes), for every algorithm of the encryption table. *)
Theorem encrypt_fresh_iv_is_96_bytes
    (jwk : gmap string pyval) (plaintext : list byte)
    (aad : option (list byte)) (alg : option string) (w w' : world)
    (cyphertext tag iv : list byte) :
  SymmetricJwk.encrypt jwk plaintext aad alg None w
    = (Ok (cyphertext, tag, iv), w') ->
  List.length iv = 96%nat /\ List.length iv <> 12%nat.
Proof.
  unfold SymmetricJwk.encrypt, bind, lift, raise, ret.
  destruct (get_alg _ _ _) as [a|]; [|discriminate].
  destruct (assoc _ a) as [[[[[d c] ks] ivs] ts]|] eqn:Ht; [|discriminate].
  apply ENCRYPTION_ALGORITHMS_sizes in Ht as (-> & _ & _).
  destruct (SymmetricJwk.key_size jwk) as [size|]; [|discriminate].
  destruct (negb _); [discriminate|].
  destruct (token_bytes 96 w) as [[iv0|] w0] eqn:Hiv; [|discriminate].
  apply token_bytes_length in Hiv as [Hlen _].
  destruct (SymmetricJwk.key jwk) as [k|]; [|discriminate].
  unfold run_aead_encrypt, bind, record_call, lift.
  destruct (aead_encrypt _ _ _ _ _); [|discriminate].
  intros [= _ _ <- _]. lia.
Qed.

End SymmetricFacts.

Lemma encrypt_fresh_iv_is_96_bytes_witness :
  List.length (repeat x00 96) = 96%nat /\ List.length (repeat x00 96) <> 12%nat.
Proof.
  apply (@encrypt_fresh_iv_is_96_bytes toy_engine spec_resolution
           key128 [x01; x02] None (Some "A128GCM"%string) zero_world
           (World (fun _ => x00) 96
              [Call_aead_encrypt AESGCM
                 [x00; x01; x02; x03; x04; x05; x06; x07;
                  x08; x09; x0a; x0b; x0c; x0d; x0e; x0f]
                 (repeat x00 96) [x01; x02] None])
           [x01; x02] (repeat x00 16) (repeat x00 96)).
  vm_compute. reflexivity.
Defined.

Section KeySizeGate.
Context `{Cryptography} `{AlgResolution}.

Ltac gate Halg Ht Hsize Hne :=
  intros; unfold bind, lift, raise;
  rewrite Halg, Ht, Hsize;
  rewrite (proj2 (Z.eqb_neq _ _) Hne); reflexivity.

(** C4. When the key's size in bits differs from the size the resolved
    algorithm requires, each of [encrypt], [decrypt] (AEAD table) and
    [wrap_key], [unwrap_key] (key-wrap table) raises the key-size
    [ValueError] and leaves the world as it was: no primitive of the
    engine is invoked, no entropy is drawn, and nothing is returned. *)
Theorem key_size_mismatch_raises
    (jwk : gmap string pyval) (alg : option string) (n : Z) :
  SymmetricJwk.key_size jwk = Ok n ->
  (forall A d c ks ivs ts,
      get_alg (jwk !! "alg") alg SymmetricJwk.supported_encryption_algorithms
        = Ok A ->
      assoc SymmetricJwk.ENCRYPTION_ALGORITHMS A = Some (d, c, ks, ivs, ts) ->
      n <> ks ->
      (forall plaintext aad iv w,
          SymmetricJwk.encrypt jwk plaintext aad alg iv w
            = (Raise (ValueError (Key_size_mismatch n d ks)), w))
      /\ (forall cyphertext tag iv aad w,
            SymmetricJwk.decrypt jwk cyphertext tag iv aad alg w
              = (Raise (ValueError (Key_size_mismatch n d ks)), w)))
  /\ (forall A d m ks,
        get_alg (jwk !! "alg") alg
          SymmetricJwk.supported_key_management_algorithms = Ok A ->
        assoc SymmetricJwk.KEY_MANAGEMENT_ALGORITHMS A = Some (d, m, ks) ->
        n <> ks ->
        (forall key w,
            SymmetricJwk.wrap_key jwk key alg w
              = (Raise (ValueError (Key_size_mismatch n d ks)), w))
        /\ (forall cypherkey w,
              SymmetricJwk.unwrap_key jwk cypherkey alg w
                = (Raise (ValueError (Key_size_mismatch n d ks)), w))).
Proof.
  intros Hsize. split.
  - intros A d c ks ivs ts Halg Ht Hne. split.
    + unfold SymmetricJwk.encrypt. gate Halg Ht Hsize Hne.
    + unfold SymmetricJwk.decrypt. gate Halg Ht Hsize Hne.
  - intros A d m ks Halg Ht Hne. split.
    + unfold SymmetricJwk.wrap_key. gate Halg Ht Hsize Hne.
    + unfold SymmetricJwk.unwrap_key. gate Halg Ht Hsize Hne.
Qed.

End KeySizeGate.

Lemma key_size_mismatch_raises_witness :
  SymmetricJwk.key_size key128 = Ok 128
  /\ (forall w,
        @SymmetricJwk.encrypt toy_engine spec_resolution key128 [x01] None
          (Some "A256GCM"%string) None w
        = (Raise (ValueError
                    (Key_size_mismatch 128 "AES GCM using 256-bit key" 256)), w))
  /\ (forall w,
        @SymmetricJwk.unwrap_key toy_engine spec_resolution key128 [x01]
          (Some "A192KW"%string) w
        = (Raise (ValueError
                    (Key_size_mismatch 128
                       "AES Key Wrap with default initial value using 192-bit key"
                       192)), w)).
Proof.
  assert (Hsize : SymmetricJwk.key_size key128 = Ok 128) by (vm_compute; reflexivity).
  pose proof (@key_size_mismatch_raises toy_engine spec_resolution key128
                (Some "A256GCM"%string) 128 Hsize) as [Henc _].
  pose proof (@key_size_mismatch_raises toy_engine spec_resolution key128
                (Some "A192KW"%string) 128 Hsize) as [_ Hkw].
  split; [exact Hsize | split].
  - intros w.
    apply (proj1 (Henc "A256GCM"%string _ AESGCM 256 96 16
                    eq_refl eq_refl ltac:(lia))).
  - intros w.
    apply (proj2 (Hkw "A192KW"%string _ AES_KW 192
                    eq_refl eq_refl ltac:(lia))).
Defined.


Lemma slice_to_from {A} (l : list A) (i : Z) : slice_to l i ++ slice_from l i = l.
Proof. apply firstn_skipn. Qed.

Lemma bind_Ok {A B} (m : M A) (k : A -> M B) (w w' : world) (b : B) :
  bind m k w = (Ok b, w') ->
  exists a w1, m w = (Ok a, w1) /\ k a w1 = (Ok b, w').
Proof.
  unfold bind. destruct (m w) as [[a|e] w1]; [eauto | discriminate].
Qed.

Lemma lift_Ok {A} (r : result A) (w w' : world) (a : A) :
  lift r w = (Ok a, w') -> r = Ok a /\ w' = w.
Proof. unfold lift. intros [= -> ->]. auto. Qed.

Section EncryptDecrypt.
Context `{Cryptography} `{AlgResolution}.

(** The engine's own contract: decrypting what it encrypted, under the same
    key, nonce and associated data, gives the plaintext back. *)
Hypothesis aead_decrypt_encrypt :
  forall c key iv p aad out,
    aead_encrypt c key iv p aad = Ok out ->
    aead_decrypt c key iv out aad = Ok p.


End EncryptDecrypt.




(** ** Keys built from raw bytes *)

Lemma from_bytes_key (kb : list byte) (params : gmap string pyval) :
  params !! "cls" = None -> params !! "k" = None -> params !! "key" = None ->
  exists jwk,
    SymmetricJwk.from_bytes (PBytes kb) params = Ok jwk
    /\ SymmetricJwk.key jwk = Ok kb
    /\ SymmetricJwk.key_size jwk = Ok (Z.of_nat (List.length kb) * 8).
Proof.
  intros Hcls Hk Hkey.
  set (d := (list_to_map [("key", PStr "oct"); ("k", PStr (b64u_encode (PBytes kb)))]
             : gmap string pyval) ∪ params).
  assert (Hd : SymmetricJwk.from_bytes_params (PBytes kb) params = Ok d).
  { unfold SymmetricJwk.from_bytes_params, bind_params, kwargs.
    cbn [forallb fst]. rewrite Hcls, Hk, Hkey. reflexivity. }
  assert (Hlk : d !! "k" = Some (PStr (b64u_encode (PBytes kb)))).
  { subst d. apply lookup_union_Some_l. cbn [list_to_map foldr uncurry fst snd].
    rewrite lookup_insert_ne by discriminate. apply lookup_insert_eq. }
  assert (Hkd : SymmetricJwk.key d = Ok kb).
  { unfold SymmetricJwk.key, attr. rewrite Hlk. apply b64u_decode_encode. }
  exists d. split; [|split].
  - unfold SymmetricJwk.from_bytes. rewrite Hd. cbn [rbind].
    unfold SymmetricJwk.new, SymmetricJwk.PARAMS. cbn [Jwk_validate].
    rewrite Hlk. cbn [kind check_kind]. rewrite b64u_decode_encode. reflexivity.
  - exact Hkd.
  - unfold SymmetricJwk.key_size. rewrite Hkd. reflexivity.
Qed.

(** C1. [generate(n)] reads [n] bytes from the entropy source, so the key it
    returns has [key_size == 8 * n] bits ([size] is a number of bytes, as the
    docstring of [generate] says); [generate(32)] gives a 256-bit key. *)
Theorem generate_key_size (n : Z) (params : gmap string pyval) (w : world) :
  0 <= n ->
  params !! "cls" = None -> params !! "size" = None ->
  params !! "k" = None -> params !! "key" = None ->
  exists jwk,
    SymmetricJwk.generate n params w
      = (Ok jwk, World (tape w) (cursor w + Z.to_nat n) (engine_calls w))
    /\ SymmetricJwk.key jwk = Ok (map (tape w) (seq (cursor w) (Z.to_nat n)))
    /\ SymmetricJwk.key_size jwk = Ok (8 * n).
Proof.
  intros Hn Hcls Hsize Hk Hkey.
  destruct (from_bytes_key (map (tape w) (seq (cursor w) (Z.to_nat n))) params
              Hcls Hk Hkey) as (jwk & Hfb & Hkb & Hks).
  exists jwk. split; [|split].
  - unfold SymmetricJwk.generate, bind, lift, bind_params, token_bytes.
    cbn [forallb]. rewrite Hcls, Hsize. cbn.
    destruct (n <? 0) eqn:E; [apply Z.ltb_lt in E; lia|].
    rewrite Hfb. reflexivity.
  - exact Hkb.
  - rewrite Hks, length_map, length_seq. f_equal. lia.
Qed.

Lemma generate_key_size_witness :
  exists jwk,
    SymmetricJwk.generate 32 ∅ zero_world = (Ok jwk, World (fun _ => x00) 32 [])
    /\ SymmetricJwk.key jwk = Ok (repeat x00 32)
    /\ SymmetricJwk.key_size jwk = Ok 256.
Proof.
  apply (generate_key_size 32 ∅ zero_world); [lia | reflexivity ..].
Defined.

Lemma generate_key_size_at (n : Z) :
  0 <= n ->
  exists jwk,
    fst (SymmetricJwk.generate n ∅ zero_world) = Ok jwk
    /\ SymmetricJwk.key_size jwk = Ok (8 * n).
Proof.
  intros Hn.
  destruct (from_bytes_key (map (tape zero_world) (seq 0 (Z.to_nat n))) ∅)
    as (jwk & Hfb & _ & Hks); try reflexivity.
  exists jwk. split.
  - unfold SymmetricJwk.generate, bind, lift, bind_params, token_bytes.
    cbn [forallb]. cbn.
    destruct (n <? 0) eqn:E; [apply Z.ltb_lt in E; lia|].
    cbn in Hfb. rewrite Hfb. reflexivity.
  - rewrite Hks, length_map, length_seq. f_equal. lia.
Qed.

(** [generate(256)] returns a 2048-bit key: what C1 states fails there. *)
Lemma generate_256_key_size :
  exists jwk,
    fst (SymmetricJwk.generate 256 ∅ zero_world) = Ok jwk
    /\ SymmetricJwk.key_size jwk = Ok 2048
    /\ SymmetricJwk.key_size jwk <> Ok 256.
Proof.
  destruct (generate_key_size_at 256 ltac:(lia)) as (jwk & Hgen & Hsize).
  exists jwk. rewrite Hsize. repeat split; [exact Hgen | discriminate].
Qed.

(** ** Signing and verifying *)

Lemma a2b_loop_raise (ascii : list byte) :
  forall q l p out e,
    base64.a2b_loop ascii q l p out = Raise e -> e = binascii_Error.
Proof.
  induction ascii as [|ch rest IH]; intros q l p out e; cbn [base64.a2b_loop].
  - destruct (Nat.eqb q 0); [discriminate | now intros [= <-]].
  - destruct (Byte.eqb ch base64.BASE64_PAD).
    + destruct (Nat.leb 2 q); [destruct (Nat.leb 4 (q + S p)); [discriminate|]|];
        apply IH.
    + destruct (base64.a2b ch) as [v|]; [|apply IH].
      destruct (base64.a2b_sextet q l v out) as [[q' l'] o']. apply IH.
Qed.

Lemma b64u_decode_raise (v : pyval) (e : exn) :
  b64u_decode v = Raise e -> e = binascii_Error \/ e = UnicodeEncodeError.
Proof.
  assert (Hb : forall b, b64u_decode_bytes b = Raise e -> e = binascii_Error).
  { intros b. unfold b64u_decode_bytes, base64.urlsafe_b64decode,
      base64.b64decode, base64.a2b_base64. apply a2b_loop_raise. }
  assert (Hs : forall s, rbind (encode_ascii s) b64u_decode_bytes = Raise e ->
                         e = binascii_Error \/ e = UnicodeEncodeError).
  { intros s. unfold encode_ascii. destruct (forallb _ _); cbn [rbind].
    - intros Hr. left. eapply Hb, Hr.
    - intros [= <-]. now right. }
  destruct v; cbn [b64u_decode]; [apply Hs | apply Hs |].
  intros Hr. left. eapply Hb, Hr.
Qed.

Section SignVerify.
Context `{Cryptography} `{AlgResolution}.

Lemma verify_loop_no_match (jwk : gmap string pyval) (k data signature : list byte)
    (algs : list string) :
  SymmetricJwk.key jwk = Ok k ->
  (forall a, In a algs ->
     exists mac h m,
       assoc SymmetricJwk.SIGNATURE_ALGORITHMS a = Some (mac, h, m)
       /\ mac_finalize mac k h data <> signature) ->
  forall w, fst (SymmetricJwk.verify_loop jwk data signature algs w) = Ok false.
Proof.
  intros Hk. induction algs as [|a rest IH]; intros Hall w.
  - reflexivity.
  - destruct (Hall a (or_introl eq_refl)) as (mac & h & m & Ht & Hne).
    cbn [SymmetricJwk.verify_loop]. rewrite Ht.
    unfold run_mac, record_call, bind, lift, ret. rewrite Hk.
    unfold bytes_eqb. rewrite bool_decide_eq_false_2 by congruence.
    apply IH. intros a' Ha'. apply Hall. now right.
Qed.

(** C7. For a key whose secret decodes, and an algorithm [A] of the
    signing table that the resolution helper accepts as the explicit
    choice, [sign(data, A)] returns a MAC and [verify(data, that MAC, A)]
    returns [True]; and [verify] returns [False] when none of the tried
    candidates' freshly computed MACs equals the supplied signature. *)
Theorem verify_sign (jwk : gmap string pyval) (k data : list byte) :
  SymmetricJwk.key jwk = Ok k ->
  (forall A mac h m,
      assoc SymmetricJwk.SIGNATURE_ALGORITHMS A = Some (mac, h, m) ->
      get_alg (jwk !! "alg") (Some A) SymmetricJwk.supported_signing_algorithms
        = Ok A ->
      get_algs (jwk !! "alg") (Some A) None
        SymmetricJwk.supported_signing_algorithms = Ok [A] ->
      forall w, exists signature,
        fst (SymmetricJwk.sign jwk data (Some A) w) = Ok signature
        /\ forall w2,
             fst (SymmetricJwk.verify jwk data signature (Some A) None w2)
             = Ok true)
  /\ (forall signature alg algs candidates,
        get_algs (jwk !! "alg") alg algs
          SymmetricJwk.supported_signing_algorithms = Ok candidates ->
        (forall a, In a candidates ->
           exists mac h m,
             assoc SymmetricJwk.SIGNATURE_ALGORITHMS a = Some (mac, h, m)
             /\ mac_finalize mac k h data <> signature) ->
        forall w,
          fst (SymmetricJwk.verify jwk data signature alg algs w) = Ok false).
Proof.
  intros Hk. split.
  - intros A mac h m Ht Halg Halgs w.
    exists (mac_finalize mac k h data). split.
    + unfold SymmetricJwk.sign, bind, lift. rewrite Halg, Ht, Hk. reflexivity.
    + intros w2. unfold SymmetricJwk.verify, bind, lift. rewrite Halgs.
      cbn [SymmetricJwk.verify_loop]. rewrite Ht.
      unfold run_mac, record_call, bind, lift, ret. rewrite Hk.
      unfold bytes_eqb. rewrite bool_decide_eq_true_2 by reflexivity.
      reflexivity.
  - intros signature alg algs candidates Halgs Hall w.
    unfold SymmetricJwk.verify, bind, lift. rewrite Halgs.
    apply (verify_loop_no_match jwk k data signature candidates Hk Hall).
Qed.

(** C8. Once the algorithm is resolved, [sign] raises the
    unsupported-signing-algorithm [ValueError] exactly when that algorithm
    is not in the signing table; and for an algorithm of the table it
    returns the MAC of the data under the key's secret, whatever the
    secret's length: the table's minimum key size is not consulted. *)
Theorem sign_unsupported_iff (jwk : gmap string pyval) (data : list byte)
    (alg : option string) (A : string) (w : world) :
  get_alg (jwk !! "alg") alg SymmetricJwk.supported_signing_algorithms = Ok A ->
  ((exists a, fst (SymmetricJwk.sign jwk data alg w)
              = Raise (ValueError (Unsupported_signing_alg a)))
   <-> assoc SymmetricJwk.SIGNATURE_ALGORITHMS A = None)
  /\ (forall k mac h m,
        SymmetricJwk.key jwk = Ok k ->
        assoc SymmetricJwk.SIGNATURE_ALGORITHMS A = Some (mac, h, m) ->
        fst (SymmetricJwk.sign jwk data alg w) = Ok (mac_finalize mac k h data)).
Proof.
  intros Halg. unfold SymmetricJwk.sign, bind, lift, raise. rewrite Halg.
  split; [split|].
  - intros [a Ha].
    destruct (assoc _ A) as [[[mac h] m]|]; [|reflexivity].
    destruct (SymmetricJwk.key jwk) as [k|e] eqn:Hk.
    + discriminate Ha.
    + cbn [fst] in Ha. injection Ha as ->.
      apply b64u_decode_raise in Hk as [Hk | Hk]; discriminate Hk.
  - intros ->. exists A. reflexivity.
  - intros k mac h m Hk Ht. rewrite Ht, Hk. reflexivity.
Qed.

End SignVerify.


Lemma verify_sign_witness :
  (forall w, exists signature,
      fst (@SymmetricJwk.sign toy_engine spec_resolution key128 [x07]
             (Some "HS256"%string) w) = Ok signature
      /\ forall w2,
           fst (@SymmetricJwk.verify toy_engine spec_resolution key128 [x07]
                  signature (Some "HS256"%string) None w2) = Ok true)
  /\ (forall w,
        fst (@SymmetricJwk.verify toy_engine spec_resolution key128 [x07] []
               None None w) = Ok false).
Proof.
  destruct (@verify_sign toy_engine spec_resolution key128
              [x00; x01; x02; x03; x04; x05; x06; x07;
               x08; x09; x0a; x0b; x0c; x0d; x0e; x0f] [x07] eq_refl)
    as [Hsign Hnone].
  split.
  - apply (Hsign "HS256"%string HMAC SHA256 256 eq_refl eq_refl eq_refl).
  - apply (Hnone [] None None ["HS256"; "HS384"; "HS512"]%string eq_refl).
    intros a Ha. cbn [In] in Ha.
    destruct Ha as [<- | [<- | [<- | []]]];
      eexists _, _, _; (split; [reflexivity | discriminate]).
Defined.

Lemma sign_unsupported_iff_witness :
  ((exists a,
       fst (@SymmetricJwk.sign toy_engine spec_resolution key8 [x07]
              (Some "HS512"%string) zero_world)
       = Raise (ValueError (Unsupported_signing_alg a)))
   <-> assoc SymmetricJwk.SIGNATURE_ALGORITHMS "HS512" = None)
  /\ (forall k mac h m,
        SymmetricJwk.key key8 = Ok k ->
        assoc SymmetricJwk.SIGNATURE_ALGORITHMS "HS512" = Some (mac, h, m) ->
        fst (@SymmetricJwk.sign toy_engine spec_resolution key8 [x07]
               (Some "HS512"%string) zero_world)
        = Ok (@mac_finalize toy_engine mac k h [x07])).
Proof.
  apply (@sign_unsupported_iff toy_engine spec_resolution key8 [x07]
           (Some "HS512"%string) "HS512" zero_world).
  reflexivity.
Defined.

(** ** Fixed-width big-endian integers *)

Lemma to_N_byte_of_N (n : N) : Byte.to_N (byte_of_N n) = (n mod 256)%N.
Proof.
  unfold byte_of_N. destruct (Byte.of_N (n mod 256)) as [b|] eqn:E.
  - now apply Byte.to_of_N.
  - apply Byte.of_N_None_iff in E.
    pose proof (N.mod_lt n 256 ltac:(discriminate)). lia.
Qed.

Lemma length_to_bytes_be (n : nat) (i : Z) : List.length (to_bytes_be n i) = n.
Proof.
  revert i. induction n as [|n IH]; intros i; cbn [to_bytes_be]; [reflexivity|].
  rewrite length_app, IH. cbn. lia.
Qed.

Lemma int_from_bytes_snoc (l : list byte) (b : byte) :
  int_from_bytes (l ++ [b]) = int_from_bytes l * 256 + Z.of_N (Byte.to_N b).
Proof. unfold int_from_bytes. now rewrite fold_left_app. Qed.

Lemma int_from_bytes_to_bytes_be (n : nat) (i : Z) :
  0 <= i < 256 ^ Z.of_nat n -> int_from_bytes (to_bytes_be n i) = i.
Proof.
  revert i. induction n as [|n IH]; intros i Hi.
  - cbn in *. lia.
  - cbn [to_bytes_be]. rewrite int_from_bytes_snoc, to_N_byte_of_N.
    rewrite Nat2Z.inj_succ, Z.pow_succ_r in Hi by lia.
    rewrite IH.
    2:{ split; [apply Z.div_pos; lia | apply Z.div_lt_upper_bound; lia]. }
    assert (Hm : 0 <= i mod 256 < 256) by (apply Z.mod_pos_bound; lia).
    rewrite N.mod_small by lia.
    rewrite Z2N.id by lia.
    pose proof (Z.div_mod i 256 ltac:(lia)). lia.
Qed.

Lemma to_bytes_be_0 (n : nat) : to_bytes_be n 0 = repeat x00 n.
Proof.
  induction n as [|n IH]; [reflexivity|].
  cbn [to_bytes_be]. change (0 / 256) with 0. rewrite IH.
  change [byte_of_N (Z.to_N (0 mod 256))] with (repeat x00 1).
  rewrite <- repeat_app. f_equal. lia.
Qed.

(** A value that fits in [k] bytes is written as [n - k] zero bytes followed
    by its [k]-byte form. *)
Lemma to_bytes_be_zero_pad (n k : nat) (i : Z) :
  (k <= n)%nat -> 0 <= i < 256 ^ Z.of_nat k ->
  to_bytes_be n i = repeat x00 (n - k) ++ to_bytes_be k i.
Proof.
  revert k i. induction n as [|n IH]; intros k i Hk Hi.
  - assert (k = O) by lia. subst k. reflexivity.
  - destruct k as [|k].
    + cbn in Hi. assert (i = 0) by lia. subst i.
      rewrite to_bytes_be_0. cbn [to_bytes_be]. now rewrite app_nil_r.
    + cbn [to_bytes_be]. rewrite Nat2Z.inj_succ, Z.pow_succ_r in Hi by lia.
      rewrite (IH k (i / 256)).
      * rewrite <- app_assoc. reflexivity.
      * lia.
      * split; [apply Z.div_pos; lia | apply Z.div_lt_upper_bound; lia].
Qed.

Lemma utf8_char_ascii (b : byte) :
  (Byte.to_N b <? 128)%N = true -> utf8_char (ascii_of_byte b) = [b].
Proof. destruct b; intros Hb; first [reflexivity | discriminate Hb]. Qed.

Lemma encode_utf8_decode_ascii (l : list byte) :
  forallb (fun c => (Byte.to_N c <? 128)%N) l = true ->
  encode_utf8 (decode_ascii l) = l.
Proof.
  unfold encode_utf8, decode_ascii, string_of_list_byte.
  rewrite list_ascii_of_string_of_list_ascii.
  induction l as [|b l IH]; intros Hl; [reflexivity|].
  cbn [forallb] in Hl. apply andb_true_iff in Hl as [Hb Hl].
  cbn [map flat_map].
  rewrite utf8_char_ascii by exact Hb.
  cbn [app]. f_equal. apply IH, Hl.
Qed.

(** ** Elliptic-curve coordinates *)

Lemma coordinate_of_encoding (jwk : gmap string pyval) (param : string)
    (bs : list byte) :
  jwk !! param = Some (PStr (decode_ascii (BinaPy.encode_to_b64u bs)))
  \/ jwk !! param = Some (PBytes (BinaPy.encode_to_b64u bs)) ->
  ECJwk.coordinate jwk param = Ok (BinaPy.to_int bs).
Proof.
  unfold ECJwk.coordinate, attr, BinaPy.encode_to_b64u, BinaPy.decode_from_b64u.
  intros [-> | ->]; unfold BinaPy.new, default; cbn [from_option id rbind].
  - rewrite encode_utf8_decode_ascii by apply b64u_encode_bytes_ascii.
    now rewrite b64u_decode_bytes_encode.
  - now rewrite b64u_decode_bytes_encode.
Qed.

(** The key passes validation and its one-byte [x] is decoded to 1, although
    P-256 coordinates are 32 bytes long: what C6 states about decoding fails
    there. *)
Lemma short_coordinate_is_decoded :
  ECJwk.new short_x_key = Ok short_x_key
  /\ ECJwk.coordinate_size_of short_x_key = Ok 32
  /\ b64u_decode (attr short_x_key "x") = Ok [x01]
  /\ ECJwk.x_coordinate short_x_key = Ok 1.
Proof. repeat split; vm_compute; reflexivity. Qed.

(** [generate_for_alg] hands the table's size in bits to [generate], which
    counts bytes: the key generated for A128GCM is 1024 bits long, and
    [encrypt] with that very algorithm rejects it. *)
Example generate_for_alg_A128GCM :
  exists jwk,
    fst (SymmetricJwk.generate_for_alg "A128GCM" ∅ zero_world) = Ok jwk
    /\ SymmetricJwk.key_size jwk = Ok 1024
    /\ fst (@SymmetricJwk.encrypt toy_engine spec_resolution jwk [x01] None
              None None zero_world)
       = Raise (ValueError
                  (Key_size_mismatch 1024 "AES GCM using 128-bit key" 128)).
Proof.
  eexists. split; [vm_compute; reflexivity|].
  split; vm_compute; reflexivity.
Qed.

(** * Further properties *)

(** ** Base64 with either alphabet, padded or not *)

Section AnyAlphabet.
Import base64.

(** [tr] is the translation applied to the encoder's output: the urlsafe
    one, or none. *)
Variable tr : byte -> byte.

Hypothesis tr_sextet : forall n,
  (n < 64)%N ->
  Byte.eqb (tr (b2a n)) BASE64_PAD = false
  /\ Byte.eqb (_urlsafe_decode_translation (tr (b2a n))) BASE64_PAD = false
  /\ a2b (_urlsafe_decode_translation (tr (b2a n))) = Some n
  /\ (Byte.to_N (tr (b2a n)) <? 128)%N = true.

Hypothesis tr_pad : tr BASE64_PAD = BASE64_PAD.

Let encoded (data : list byte) (padded : bool) : list byte :=
  let e := map tr (b2a_base64 data) in
  if padded then e else rstrip BASE64_PAD e.

Lemma any_loop_char (n : N) (rest : list byte) (q : nat) (l : N)
    (p : nat) (out : list byte) :
  (n < 64)%N ->
  a2b_loop (_urlsafe_decode_translation (tr (b2a n)) :: rest) q l p out =
    a2b_loop rest (a2b_sextet q l n out).1.1 (a2b_sextet q l n out).1.2 O
             (a2b_sextet q l n out).2.
Proof.
  intros Hn. destruct (tr_sextet n Hn) as (_ & Hpad & Hdec & _).
  cbn [a2b_loop]. rewrite Hpad, Hdec.
  destruct (a2b_sextet q l n out) as [[q' l'] o']. reflexivity.
Qed.

Lemma any_loop_pad (rest : list byte) (q : nat) (l : N) (p : nat)
    (out : list byte) :
  a2b_loop (_urlsafe_decode_translation BASE64_PAD :: rest) q l p out =
    if Nat.leb 2 q then
      if Nat.leb 4 (q + S p) then Ok out else a2b_loop rest q l (S p) out
    else a2b_loop rest q l p out.
Proof. reflexivity. Qed.

Section Group.
Variables a b c : byte.

Let s0 : N := N.shiftr (Byte.to_N a) 2.
Let s1 : N := N.lor (N.shiftl (N.land (Byte.to_N a) 3) 4) (N.shiftr (Byte.to_N b) 4).
Let s1' : N := N.shiftl (N.land (Byte.to_N a) 3) 4.
Let s2 : N := N.lor (N.shiftl (N.land (Byte.to_N b) 15) 2) (N.shiftr (Byte.to_N c) 6).
Let s2' : N := N.shiftl (N.land (Byte.to_N b) 15) 2.
Let s3 : N := N.land (Byte.to_N c) 63.

Lemma any_bounds :
  (s0 < 64)%N /\ (s1 < 64)%N /\ (s1' < 64)%N /\ (s2 < 64)%N /\ (s2' < 64)%N
  /\ (s3 < 64)%N.
Proof.
  pose proof (byte_to_N_lt a) as Ha. pose proof (byte_to_N_lt b) as Hb.
  pose proof (byte_to_N_lt c) as Hc.
  destruct (base64_facts.sextet_bounds _ _ Ha Hb) as (H0 & H1' & H1 & _).
  destruct (base64_facts.sextet_bounds _ _ Hb Hc) as (_ & _ & _ & H2' & H2 & _).
  destruct (base64_facts.sextet_bounds _ _ Hc Hc) as (_ & _ & _ & _ & _ & H3).
  repeat split; assumption.
Qed.

Lemma any_loop_group (rest : list byte) (l : N) (p : nat) (out : list byte) :
  a2b_loop (map _urlsafe_decode_translation
              [tr (b2a s0); tr (b2a s1); tr (b2a s2); tr (b2a s3)] ++ rest)
           O l p out =
    a2b_loop rest O 0%N O (out ++ [a; b; c]).
Proof.
  pose proof (byte_to_N_lt a) as Ha. pose proof (byte_to_N_lt b) as Hb.
  pose proof (byte_to_N_lt c) as Hc.
  destruct any_bounds as (H0 & H1 & _ & H2 & _ & H3).
  destruct (base64_facts.regroup _ _ Ha Hb) as (R1 & _ & R2 & _).
  destruct (base64_facts.regroup _ _ Hb Hc) as (_ & _ & _ & R3 & _ & R4).
  cbn [map app].
  rewrite !any_loop_char by assumption.
  cbn [a2b_sextet fst snd].
  unfold s0 at 1, s1 at 1. rewrite R1.
  unfold s1 at 1. rewrite R2.
  unfold s2 at 1. rewrite R3.
  unfold s2, s3. rewrite R4.
  rewrite !byte_of_to_N, <- !app_assoc. reflexivity.
Qed.

(** A last group of one byte, followed by two pads or more. *)
Lemma any_loop_tail_one (k : nat) (l : N) (p : nat) (out : list byte) :
  a2b_loop (map _urlsafe_decode_translation
              ([tr (b2a s0); tr (b2a s1')] ++ repeat BASE64_PAD (2 + k)))
           O l p out = Ok (out ++ [a]).
Proof.
  pose proof (byte_to_N_lt a) as Ha.
  destruct any_bounds as (H0 & _ & H1 & _).
  destruct (base64_facts.regroup _ _ Ha Ha) as (_ & R1 & _).
  cbn [map app repeat Nat.add].
  rewrite !any_loop_char by assumption.
  cbn [a2b_sextet fst snd].
  rewrite !any_loop_pad. cbn [Nat.leb Nat.add].
  unfold s0, s1'. rewrite R1, byte_of_to_N. reflexivity.
Qed.

(** A last group of two bytes, followed by one pad or more. *)
Lemma any_loop_tail_two (k : nat) (l : N) (p : nat) (out : list byte) :
  a2b_loop (map _urlsafe_decode_translation
              ([tr (b2a s0); tr (b2a s1); tr (b2a s2')] ++ repeat BASE64_PAD (1 + k)))
           O l p out = Ok (out ++ [a; b]).
Proof.
  pose proof (byte_to_N_lt a) as Ha. pose proof (byte_to_N_lt b) as Hb.
  destruct any_bounds as (H0 & H1 & _ & _ & H2 & _).
  destruct (base64_facts.regroup _ _ Ha Hb) as (R1 & _ & R2 & _).
  destruct (base64_facts.regroup _ _ Hb Hb) as (_ & _ & _ & _ & R3 & _).
  cbn [map app repeat Nat.add].
  rewrite !any_loop_char by assumption.
  cbn [a2b_sextet fst snd].
  rewrite any_loop_pad. cbn [Nat.leb Nat.add].
  unfold s0 at 1, s1 at 1. rewrite R1.
  unfold s1 at 1. rewrite R2.
  unfold s2'. rewrite R3.
  rewrite !byte_of_to_N, <- !app_assoc. reflexivity.
Qed.

(** The encoded text, group by group. *)
Lemma any_encoded_one (padded : bool) :
  encoded [a] padded =
    [tr (b2a s0); tr (b2a s1')] ++ repeat BASE64_PAD (if padded then 2 else 0).
Proof.
  destruct any_bounds as (H0 & _ & H1 & _).
  unfold encoded. cbn [b2a_base64 map]. fold s0 s1'. rewrite tr_pad.
  destruct padded; [reflexivity|].
  rewrite !rstrip_cons_ne by (apply tr_sextet; assumption).
  reflexivity.
Qed.

Lemma any_encoded_two (padded : bool) :
  encoded [a; b] padded =
    [tr (b2a s0); tr (b2a s1); tr (b2a s2')]
    ++ repeat BASE64_PAD (if padded then 1 else 0).
Proof.
  destruct any_bounds as (H0 & H1 & _ & _ & H2 & _).
  unfold encoded. cbn [b2a_base64 map]. fold s0 s1 s2'. rewrite tr_pad.
  destruct padded; [reflexivity|].
  rewrite !rstrip_cons_ne by (apply tr_sextet; assumption).
  reflexivity.
Qed.

Lemma any_encoded_three (rest : list byte) (padded : bool) :
  encoded (a :: b :: c :: rest) padded =
    [tr (b2a s0); tr (b2a s1); tr (b2a s2); tr (b2a s3)] ++ encoded rest padded.
Proof.
  destruct any_bounds as (H0 & H1 & _ & H2 & _ & H3).
  unfold encoded. cbn [b2a_base64 map]. fold s0 s1 s2 s3.
  destruct padded; [reflexivity|].
  rewrite !rstrip_cons_ne by (apply tr_sextet; assumption).
  reflexivity.
Qed.

End Group.

Lemma any_encoded_nil (padded : bool) : encoded [] padded = [].
Proof. destruct padded; reflexivity. Qed.

(** The padded text is a whole number of quads; the unpadded text is never
    one character more than that. *)
Lemma any_encoded_length (data : list byte) (padded : bool) :
  List.length (encoded data padded) =
    if padded then (4 * ((List.length data + 2) / 3))%nat
    else ((4 * List.length data + 2) / 3)%nat.
Proof.
  induction data as [| a | a b | a b c rest IH] using list_ind3.
  - rewrite any_encoded_nil. destruct padded; reflexivity.
  - rewrite (any_encoded_one a a a). destruct padded; reflexivity.
  - rewrite (any_encoded_two a b b). destruct padded; reflexivity.
  - rewrite any_encoded_three, length_app, IH. cbn [List.length].
    destruct padded.
    + replace (S (S (S (List.length rest))) + 2)%nat
        with (List.length rest + 2 + 1 * 3)%nat by lia.
      rewrite Nat.div_add by lia. lia.
    + replace (4 * S (S (S (List.length rest))) + 2)%nat
        with (4 * List.length rest + 2 + 4 * 3)%nat by lia.
      rewrite Nat.div_add by lia. lia.
Qed.

Lemma any_char_ascii (n : N) :
  (n < 64)%N -> (Byte.to_N (tr (b2a n)) <? 128)%N = true.
Proof. intros Hn. now apply tr_sextet. Qed.

Lemma any_encoded_ascii (data : list byte) (padded : bool) :
  forallb (fun c => (Byte.to_N c <? 128)%N) (encoded data padded) = true.
Proof.
  induction data as [| a | a b | a b c rest IH] using list_ind3.
  - now rewrite any_encoded_nil.
  - rewrite (any_encoded_one a a a).
    destruct (any_bounds a a a) as (H0 & _ & H1 & _).
    destruct padded; cbn [app forallb repeat];
      rewrite !any_char_ascii by assumption; reflexivity.
  - rewrite (any_encoded_two a b b).
    destruct (any_bounds a b b) as (H0 & H1 & _ & _ & H2 & _).
    destruct padded; cbn [app forallb repeat];
      rewrite !any_char_ascii by assumption; reflexivity.
  - rewrite any_encoded_three.
    destruct (any_bounds a b c) as (H0 & H1 & _ & H2 & _ & H3).
    cbn [app forallb].
    rewrite !any_char_ascii by assumption. exact IH.
Qed.

(** Restoring [len % 4] pads and decoding inverts the encoder, padded or
    not. *)
Lemma any_loop_encoded (data : list byte) (padded : bool) :
  forall (l : N) (p : nat) (out : list byte),
    a2b_loop
      (map _urlsafe_decode_translation
         (encoded data padded
          ++ repeat BASE64_PAD (List.length (encoded data padded) mod 4)))
      O l p out = Ok (out ++ data).
Proof.
  induction data as [| a | a b | a b c rest IH] using list_ind3; intros l p out.
  - rewrite any_encoded_nil. cbn. now rewrite app_nil_r.
  - rewrite (any_encoded_one a a a). destruct padded.
    + cbn [repeat app List.length Nat.modulo Nat.divmod fst snd Nat.sub].
      apply (any_loop_tail_one a a a 0).
    + cbn [repeat app List.length Nat.modulo Nat.divmod fst snd Nat.sub].
      apply (any_loop_tail_one a a a 0).
  - rewrite (any_encoded_two a b b). destruct padded.
    + cbn [repeat app List.length Nat.modulo Nat.divmod fst snd Nat.sub].
      apply (any_loop_tail_two a b b 0).
    + cbn [repeat app List.length Nat.modulo Nat.divmod fst snd Nat.sub].
      apply (any_loop_tail_two a b b 2).
  - rewrite any_encoded_three, length_app. cbn [List.length].
    replace ((4 + List.length (encoded rest padded)) mod 4)%nat
      with (List.length (encoded rest padded) mod 4)%nat.
    2:{ symmetry.
        replace (4 + List.length (encoded rest padded))%nat
          with (List.length (encoded rest padded) + 1 * 4)%nat by lia.
        apply Nat.Div0.mod_add. }
    rewrite <- app_assoc, map_app, any_loop_group.
    rewrite IH, <- app_assoc. reflexivity.
Qed.

Lemma any_decode_encoded (data : list byte) (padded : bool) :
  b64u_decode_bytes (encoded data padded) = Ok data
  /\ b64_decode_bytes (encoded data padded) = Ok data.
Proof.
  assert (Hd : b64u_decode_bytes (encoded data padded) = Ok data).
  { unfold b64u_decode_bytes, urlsafe_b64decode, b64decode, a2b_base64.
    pose proof (any_loop_encoded data padded 0%N O []) as Hloop.
    cbn [app] in Hloop.
    destruct (Nat.eqb (List.length (encoded data padded) mod 4) 0) eqn:E.
    - apply Nat.eqb_eq in E. rewrite E in Hloop. cbn [repeat] in Hloop.
      now rewrite app_nil_r in Hloop.
    - exact Hloop. }
  split; [exact Hd | exact Hd].
Qed.

End AnyAlphabet.

Lemma urlsafe_translation_sextet (n : N) :
  (n < 64)%N ->
  Byte.eqb (base64._urlsafe_encode_translation (base64.b2a n)) base64.BASE64_PAD
    = false
  /\ Byte.eqb (base64._urlsafe_decode_translation
                 (base64._urlsafe_encode_translation (base64.b2a n)))
       base64.BASE64_PAD = false
  /\ base64.a2b (base64._urlsafe_decode_translation
                   (base64._urlsafe_encode_translation (base64.b2a n))) = Some n
  /\ (Byte.to_N (base64._urlsafe_encode_translation (base64.b2a n)) <? 128)%N
     = true.
Proof. apply base64_facts.url_char_decodes. Qed.

(** The urlsafe decoder reads the standard alphabet as well: it maps [-] and
    [_] to [+] and [/] and leaves [+] and [/] alone. *)
Lemma standard_sextet (n : N) :
  (n < 64)%N ->
  Byte.eqb (base64.b2a n) base64.BASE64_PAD = false
  /\ Byte.eqb (base64._urlsafe_decode_translation (base64.b2a n))
       base64.BASE64_PAD = false
  /\ base64.a2b (base64._urlsafe_decode_translation (base64.b2a n)) = Some n
  /\ (Byte.to_N (base64.b2a n) <? 128)%N = true.
Proof.
  intros Hn.
  pose (P := fun n =>
    negb (Byte.eqb (base64.b2a n) base64.BASE64_PAD)
    && negb (Byte.eqb (base64._urlsafe_decode_translation (base64.b2a n))
               base64.BASE64_PAD)
    && bool_decide (base64.a2b (base64._urlsafe_decode_translation (base64.b2a n))
                    = Some n)
    && (Byte.to_N (base64.b2a n) <? 128)%N).
  assert (HP : P n = true).
  { apply (N_range_check P 64); [vm_compute; reflexivity | exact Hn]. }
  unfold P in HP.
  repeat (apply andb_true_iff in HP; destruct HP as [HP ?]).
  apply negb_true_iff in HP.
  repeat split; try assumption.
  - now apply negb_true_iff.
  - eapply bool_decide_eq_true; eassumption.
Qed.

Lemma encode_ascii_of_ascii (l : list byte) :
  forallb (fun c => (Byte.to_N c <? 128)%N) l = true ->
  encode_ascii (decode_ascii l) = Ok l.
Proof.
  intros Hl. unfold encode_ascii, decode_ascii.
  now rewrite list_byte_of_string_of_list_byte, Hl.
Qed.

Lemma b64_encode_bytes_decodes (data : list byte) (padded : bool) :
  forallb (fun c => (Byte.to_N c <? 128)%N) (b64_encode_bytes data padded) = true
  /\ b64u_decode_bytes (b64_encode_bytes data padded) = Ok data
  /\ b64_decode_bytes (b64_encode_bytes data padded) = Ok data.
Proof.
  pose proof (any_encoded_ascii (fun c => c) standard_sextet eq_refl data padded)
    as Hascii.
  pose proof (any_decode_encoded (fun c => c) standard_sextet eq_refl data padded)
    as [Hu Hs].
  cbv beta zeta in Hascii, Hu, Hs. rewrite map_id in Hascii, Hu, Hs.
  unfold b64_encode_bytes, base64.b64encode. auto.
Qed.

Lemma b64u_encode_bytes_decodes (data : list byte) (padded : bool) :
  forallb (fun c => (Byte.to_N c <? 128)%N) (b64u_encode_bytes data padded) = true
  /\ b64u_decode_bytes (b64u_encode_bytes data padded) = Ok data
  /\ b64_decode_bytes (b64u_encode_bytes data padded) = Ok data.
Proof.
  pose proof (any_encoded_ascii base64._urlsafe_encode_translation
                urlsafe_translation_sextet eq_refl data padded) as Hascii.
  pose proof (any_decode_encoded base64._urlsafe_encode_translation
                urlsafe_translation_sextet eq_refl data padded) as [Hu Hs].
  cbv beta zeta in Hascii, Hu, Hs.
  unfold b64u_encode_bytes, base64.urlsafe_b64encode, base64.b64encode. auto.
Qed.

(** X1. [b64_decode] inverts [b64_encode] on every byte string, with the
    padding (the default) or without it, although [b64_decode] decodes with
    the urlsafe decoder; the text may be passed as [str] or as [bytes]. *)
Theorem b64_decode_b64_encode (padded : bool) (b : list byte) :
  b64_decode (PStr (b64_encode_opt (PBytes b) padded)) = Ok b
  /\ b64_decode (PBytes (b64_encode_bytes b padded)) = Ok b.
Proof.
  destruct (b64_encode_bytes_decodes b padded) as (Ha & _ & Hd).
  unfold b64_encode_opt. cbn [b64_decode].
  rewrite (encode_ascii_of_ascii _ Ha). cbn [rbind]. auto.
Qed.

(** X2. Both [b64u_decode] and [b64_decode] invert [b64u_encode] on every
    byte string, whether it pads or not, the text being passed as [str] or
    as [bytes]: the padded text is a whole number of quads, so no pad is
    added to it, and the decoder stops at the first pad that completes a
    quad. *)
Theorem b64u_decode_b64u_encode_padded (padded : bool) (b : list byte) :
  b64u_decode (PStr (b64u_encode_opt (PBytes b) padded)) = Ok b
  /\ b64u_decode (PBytes (b64u_encode_bytes b padded)) = Ok b
  /\ b64_decode (PStr (b64u_encode_opt (PBytes b) padded)) = Ok b
  /\ b64_decode (PBytes (b64u_encode_bytes b padded)) = Ok b.
Proof.
  destruct (b64u_encode_bytes_decodes b padded) as (Ha & Hu & Hs).
  unfold b64u_encode_opt. cbn [b64u_decode b64_decode].
  rewrite (encode_ascii_of_ascii _ Ha). cbn [rbind]. auto.
Qed.

Lemma length_string_of_list_byte (l : list byte) :
  String.length (string_of_list_byte l) = List.length l.
Proof.
  unfold string_of_list_byte.
  induction l as [|b l IH]; cbn; [reflexivity | now rewrite IH].
Qed.

Lemma url_char_urlsafe (n : N) : (n < 64)%N -> is_urlsafe_char (url_char n) = true.
Proof.
  intros Hn.
  apply (N_range_check (fun n => is_urlsafe_char (url_char n)) 64);
    [vm_compute; reflexivity | exact Hn].
Qed.

(** X3. The text [b64u_encode] returns for [n] bytes is
    [(4 * n + 2) // 3] characters long, and every character is a letter, a
    digit, [-] or [_]: it holds no [=], [+] or [/]. *)
Theorem b64u_encode_length_alphabet (b : list byte) :
  String.length (b64u_encode (PBytes b)) = ((4 * List.length b + 2) / 3)%nat
  /\ forallb is_urlsafe_char (list_byte_of_string (b64u_encode (PBytes b)))
     = true.
Proof.
  unfold b64u_encode, b64u_encode_opt, decode_ascii. split.
  - rewrite length_string_of_list_byte.
    pose proof (any_encoded_length base64._urlsafe_encode_translation
                  urlsafe_translation_sextet eq_refl b false) as Hlen.
    exact Hlen.
  - rewrite list_byte_of_string_of_list_byte.
    induction b as [| x | x y | x y z rest IH] using list_ind3.
    + reflexivity.
    + rewrite b64u_encode_bytes_one.
      pose proof (byte_to_N_lt x) as Hx.
      destruct (base64_facts.sextet_bounds _ _ Hx Hx) as (H0 & H1 & _).
      cbn [forallb]. rewrite !url_char_urlsafe by assumption. reflexivity.
    + rewrite b64u_encode_bytes_two.
      pose proof (byte_to_N_lt x) as Hx. pose proof (byte_to_N_lt y) as Hy.
      destruct (base64_facts.sextet_bounds _ _ Hx Hy) as (H0 & _ & H1 & _).
      destruct (base64_facts.sextet_bounds _ _ Hy Hy) as (_ & _ & _ & H2 & _).
      cbn [forallb]. rewrite !url_char_urlsafe by assumption. reflexivity.
    + rewrite b64u_encode_bytes_three.
      pose proof (byte_to_N_lt x) as Hx. pose proof (byte_to_N_lt y) as Hy.
      pose proof (byte_to_N_lt z) as Hz.
      destruct (base64_facts.sextet_bounds _ _ Hx Hy) as (H0 & _ & H1 & _).
      destruct (base64_facts.sextet_bounds _ _ Hy Hz) as (_ & _ & _ & _ & H2 & _).
      destruct (base64_facts.sextet_bounds _ _ Hz Hz) as (_ & _ & _ & _ & _ & H3).
      cbn [forallb]. rewrite !url_char_urlsafe by assumption. exact IH.
Qed.

(** ** Integers and their octet strings *)

Lemma int_from_bytes_bound (b : list byte) :
  0 <= int_from_bytes b < 256 ^ Z.of_nat (List.length b).
Proof.
  induction b as [|x l IH] using rev_ind.
  - cbn. lia.
  - rewrite int_from_bytes_snoc, length_app. cbn [List.length].
    replace (Z.of_nat (List.length l + 1)) with (Z.succ (Z.of_nat (List.length l)))
      by lia.
    rewrite Z.pow_succ_r by lia.
    pose proof (Byte.to_N_bounded x). lia.
Qed.

Lemma to_bytes_be_int_from_bytes (b : list byte) :
  to_bytes_be (List.length b) (int_from_bytes b) = b.
Proof.
  induction b as [|x l IH] using rev_ind; [reflexivity|].
  rewrite length_app, int_from_bytes_snoc. cbn [List.length].
  rewrite Nat.add_1_r. cbn [to_bytes_be].
  pose proof (Byte.to_N_bounded x) as Hx.
  rewrite Z.div_add_l by lia.
  rewrite Z.div_small by lia. rewrite Z.add_0_r, IH.
  rewrite Z.add_comm, Z.mod_add by lia.
  rewrite Z.mod_small by lia.
  now rewrite N2Z.id, byte_of_to_N.
Qed.

Lemma int_from_bytes_zeros (n : nat) (b : list byte) :
  int_from_bytes (repeat x00 n ++ b) = int_from_bytes b.
Proof.
  unfold int_from_bytes. rewrite fold_left_app.
  f_equal. induction n as [|n IH]; [reflexivity|].
  replace (S n) with (n + 1)%nat by lia.
  rewrite repeat_app, fold_left_app, IH. reflexivity.
Qed.

Lemma int_to_bytes_Ok (i len : Z) (b : list byte) :
  int_to_bytes i (Some len) = Ok b ->
  0 <= len /\ 0 <= i < 256 ^ len
  /\ b = to_bytes_be (Z.to_nat len) i
  /\ Z.of_nat (List.length b) = len /\ int_from_bytes b = i.
Proof.
  unfold int_to_bytes.
  destruct (len <? 0) eqn:E1; [discriminate|]. apply Z.ltb_ge in E1.
  destruct (i <? 0) eqn:E2; [discriminate|]. apply Z.ltb_ge in E2.
  destruct (256 ^ len <=? i) eqn:E3; [discriminate|]. apply Z.leb_gt in E3.
  cbn [orb]. intros [= <-].
  rewrite length_to_bytes_be, int_from_bytes_to_bytes_be
    by (rewrite Z2Nat.id by lia; lia).
  repeat split; try lia.
Qed.

(** In the model, where a [length] is an integer of any size: the overflow
    of [int_to_bytes] at a non-negative [length]. *)
Lemma int_to_bytes_overflow (i len : Z) :
  0 <= len ->
  (int_to_bytes i (Some len) = Raise OverflowError <-> i < 0 \/ 256 ^ len <= i).
Proof.
  intros Hlen. split.
  - intros Hr. destruct (Z.lt_ge_cases i 0) as [|Hi]; [now left|].
    destruct (Z.lt_ge_cases i (256 ^ len)) as [Hlt|]; [|now right].
    exfalso. unfold int_to_bytes in Hr.
    rewrite (proj2 (Z.ltb_ge len 0) Hlen), (proj2 (Z.ltb_ge i 0) Hi),
      (proj2 (Z.leb_gt (256 ^ len) i) Hlt) in Hr.
    discriminate Hr.
  - intros Hbad. unfold int_to_bytes.
    rewrite (proj2 (Z.ltb_ge len 0) Hlen).
    destruct Hbad as [Hneg | Hbig].
    + now rewrite (proj2 (Z.ltb_lt i 0) Hneg).
    + rewrite (proj2 (Z.leb_le (256 ^ len) i) Hbig). now rewrite orb_true_r.
Qed.

Lemma int_to_bytes_fits (i len : Z) :
  0 <= len -> 0 <= i < 256 ^ len ->
  exists b, int_to_bytes i (Some len) = Ok b
            /\ Z.of_nat (List.length b) = len /\ int_from_bytes b = i.
Proof.
  intros Hlen [Hi Hlt]. exists (to_bytes_be (Z.to_nat len) i).
  assert (Hok : int_to_bytes i (Some len) = Ok (to_bytes_be (Z.to_nat len) i)).
  { unfold int_to_bytes.
    now rewrite (proj2 (Z.ltb_ge len 0) Hlen), (proj2 (Z.ltb_ge i 0) Hi),
      (proj2 (Z.leb_gt (256 ^ len) i) Hlt). }
  split; [exact Hok|]. apply int_to_bytes_Ok in Hok. tauto.
Qed.



Lemma bit_length_bounds (i : Z) :
  0 < i ->
  let m := (bit_length i + 7) / 8 in
  0 < m /\ 256 ^ (m - 1) <= i < 256 ^ m.
Proof.
  intros Hi. cbv zeta. unfold bit_length.
  rewrite Z.abs_eq by lia.
  destruct (i =? 0) eqn:E; [apply Z.eqb_eq in E; lia|].
  pose proof (Z.log2_spec i Hi) as [Hlo Hhi].
  pose proof (Z.log2_nonneg i) as Hl.
  set (l := Z.log2 i) in *.
  set (m := (l + 1 + 7) / 8).
  pose proof (Z.div_mod (l + 1 + 7) 8 ltac:(lia)) as Hdm.
  pose proof (Z.mod_pos_bound (l + 1 + 7) 8 ltac:(lia)) as Hmb.
  fold m in Hdm.
  assert (Hm : 0 < m) by lia.
  change 256 with (2 ^ 8). rewrite <- !Z.pow_mul_r by lia.
  repeat split; [exact Hm | |].
  - transitivity (2 ^ l); [apply Z.pow_le_mono_r; lia | exact Hlo].
  - apply Z.lt_le_trans with (2 ^ Z.succ l); [exact Hhi|].
    apply Z.pow_le_mono_r; lia.
Qed.

(** X5. Without a [length], [int_to_bytes(i)] never overflows on a
    non-negative [i]: it returns the shortest octet string of [i] (empty
    for 0), every shorter [length] raises [OverflowError], and the octets
    read back as [i]. *)
Theorem int_to_bytes_minimal (i : Z) :
  0 <= i ->
  exists b,
    int_to_bytes i None = Ok b
    /\ int_from_bytes b = i
    /\ (i = 0 -> b = [])
    /\ (forall len, 0 <= len < Z.of_nat (List.length b) ->
          int_to_bytes i (Some len) = Raise OverflowError).
Proof.
  intros Hi.
  destruct (Z.eq_dec i 0) as [-> | Hnz].
  - exists []. repeat split; try reflexivity. cbn. intros len Hlen. lia.
  - destruct (bit_length_bounds i ltac:(lia)) as (Hm & Hlo & Hhi).
    set (m := (bit_length i + 7) / 8) in *.
    destruct (int_to_bytes_fits i m ltac:(lia) (conj Hi Hhi))
      as (b & Hb & Hlen & Hval).
    exists b. repeat split.
    + exact Hb.
    + exact Hval.
    + intros ->. contradiction.
    + intros len Hl.
      apply (proj2 (int_to_bytes_overflow i len ltac:(lia))).
      right. transitivity (256 ^ (m - 1)); [|exact Hlo].
      apply Z.pow_le_mono_r; lia.
Qed.

Lemma int_to_bytes_minimal_witness :
  exists b,
    int_to_bytes 65536 None = Ok b
    /\ int_from_bytes b = 65536
    /\ (65536 = 0 -> b = [])
    /\ (forall len, 0 <= len < Z.of_nat (List.length b) ->
          int_to_bytes 65536 (Some len) = Raise OverflowError).
Proof. apply (int_to_bytes_minimal 65536). lia. Defined.

(** X6. [b64u_to_int] inverts [int_to_b64u], with or without a [length]:
    whenever [int_to_b64u(i, length)] returns a text, [b64u_to_int] of that
    text is [i]. *)
Theorem b64u_to_int_int_to_b64u (i : Z) (length : option Z) (s : string) :
  int_to_b64u i length = Ok s -> b64u_to_int (PStr s) = Ok i.
Proof.
  unfold int_to_b64u, b64u_to_int. intros Hs.
  apply rbind_Ok in Hs as (data & Hdata & [= <-]).
  rewrite b64u_decode_encode. cbn [rbind]. f_equal.
  destruct length as [len|].
  - now apply int_to_bytes_Ok in Hdata.
  - change (int_to_bytes i None)
      with (int_to_bytes i (Some ((bit_length i + 7) / 8))) in Hdata.
    now apply int_to_bytes_Ok in Hdata.
Qed.

Lemma b64u_to_int_int_to_b64u_witness : b64u_to_int (PStr "AAEAAA") = Ok 65536.
Proof.
  apply (b64u_to_int_int_to_b64u 65536 (Some 4) "AAEAAA").
  vm_compute. reflexivity.
Defined.

(** X7. Read as an integer and written back at the same width, an octet
    string is unchanged; leading zero octets do not change the integer, so
    [b64u_to_int] returns the same value for a text and for the text of the
    zero-extended octets. *)
Theorem int_from_bytes_fixed_width (b : list byte) (n : nat) :
  int_to_bytes (int_from_bytes b) (Some (Z.of_nat (List.length b))) = Ok b
  /\ b64u_to_int (PStr (b64u_encode (PBytes b))) = Ok (int_from_bytes b)
  /\ b64u_to_int (PStr (b64u_encode (PBytes (repeat x00 n ++ b))))
     = Ok (int_from_bytes b).
Proof.
  split; [|split].
  - pose proof (int_from_bytes_bound b) as [Hlo Hhi].
    unfold int_to_bytes.
    rewrite (proj2 (Z.ltb_ge (Z.of_nat (List.length b)) 0) ltac:(lia)),
      (proj2 (Z.ltb_ge (int_from_bytes b) 0) Hlo),
      (proj2 (Z.leb_gt _ _) Hhi).
    cbn [orb]. now rewrite Nat2Z.id, to_bytes_be_int_from_bytes.
  - unfold b64u_to_int. now rewrite b64u_decode_encode.
  - unfold b64u_to_int. rewrite b64u_decode_encode. cbn [rbind].
    now rewrite int_from_bytes_zeros.
Qed.

(** ** Decoding arbitrary urlsafe text *)

Lemma urlsafe_char_decodes (c : byte) :
  is_urlsafe_char c = true ->
  Byte.eqb (base64._urlsafe_decode_translation c) base64.BASE64_PAD = false
  /\ (exists v, base64.a2b (base64._urlsafe_decode_translation c) = Some v)
  /\ (Byte.to_N c <? 128)%N = true.
Proof.
  destruct c; intros Hc; try discriminate Hc;
    (split; [reflexivity | split; [eexists; vm_compute; reflexivity | reflexivity]]).
Qed.

Lemma a2b_loop_urlsafe (text : list byte) :
  forallb is_urlsafe_char text = true ->
  forall (rest : list byte) (q : nat) (l : N) (p : nat) (out : list byte),
    (q < 4)%nat ->
    exists l' p' out',
      base64.a2b_loop (map base64._urlsafe_decode_translation text ++ rest)
        q l p out
      = base64.a2b_loop rest ((q + List.length text) mod 4) l' p' out'.
Proof.
  induction text as [|c text IH]; intros Htext rest q l p out Hq.
  - exists l, p, out. cbn [map app List.length].
    rewrite Nat.add_0_r, Nat.mod_small by exact Hq. reflexivity.
  - cbn [forallb] in Htext. apply andb_true_iff in Htext as [Hc Htext].
    destruct (urlsafe_char_decodes c Hc) as (Hpad & [v Hv] & _).
    cbn [map app base64.a2b_loop]. rewrite Hpad, Hv.
    assert (Hstep : exists l1 o1,
      base64.a2b_sextet q l v out = (((q + 1) mod 4)%nat, l1, o1)).
    { destruct q as [|[|[|[|q]]]]; [| | | |lia]; cbn; eauto. }
    destruct Hstep as (l1 & o1 & ->).
    destruct (IH Htext rest ((q + 1) mod 4)%nat l1 O o1) as (l' & p' & out' & ->).
    { apply Nat.mod_upper_bound. lia. }
    exists l', p', out'. f_equal. cbn [List.length].
    rewrite Nat.Div0.add_mod_idemp_l. f_equal. lia.
Qed.

Lemma b64u_decode_bytes_urlsafe (text : list byte) :
  forallb is_urlsafe_char text = true ->
  ((List.length text mod 4 = 1)%nat ->
   b64u_decode_bytes text = Raise binascii_Error)
  /\ ((List.length text mod 4 <> 1)%nat ->
      exists b, b64u_decode_bytes text = Ok b).
Proof.
  intros Htext.
  unfold b64u_decode_bytes, base64.urlsafe_b64decode, base64.b64decode,
    base64.a2b_base64.
  assert (Hr : (List.length text mod 4 < 4)%nat)
    by (apply Nat.mod_upper_bound; lia).
  remember (List.length text mod 4)%nat as r eqn:Er.
  destruct r as [|[|[|[|r]]]]; [| | | |lia].
  - split; [discriminate|]. intros _. cbn [Nat.eqb].
    destruct (a2b_loop_urlsafe text Htext [] O 0%N O [] ltac:(lia))
      as (l' & p' & out' & Hloop).
    rewrite app_nil_r in Hloop. rewrite Hloop. cbn [Nat.add].
    rewrite <- Er. eexists. reflexivity.
  - split; [|congruence]. intros _. cbn [Nat.eqb]. rewrite map_app.
    destruct (a2b_loop_urlsafe text Htext
                (map base64._urlsafe_decode_translation
                   (repeat base64.BASE64_PAD 1)) O 0%N O [] ltac:(lia))
      as (l' & p' & out' & Hloop).
    rewrite Hloop. cbn [Nat.add]. rewrite <- Er. reflexivity.
  - split; [discriminate|]. intros _. cbn [Nat.eqb]. rewrite map_app.
    destruct (a2b_loop_urlsafe text Htext
                (map base64._urlsafe_decode_translation
                   (repeat base64.BASE64_PAD 2)) O 0%N O [] ltac:(lia))
      as (l' & p' & out' & Hloop).
    rewrite Hloop. cbn [Nat.add]. rewrite <- Er.
    destruct p'; eexists; reflexivity.
  - split; [discriminate|]. intros _. cbn [Nat.eqb]. rewrite map_app.
    destruct (a2b_loop_urlsafe text Htext
                (map base64._urlsafe_decode_translation
                   (repeat base64.BASE64_PAD 3)) O 0%N O [] ltac:(lia))
      as (l' & p' & out' & Hloop).
    rewrite Hloop. cbn [Nat.add]. rewrite <- Er.
    eexists; reflexivity.
Qed.

Lemma urlsafe_text_ascii (text : list byte) :
  forallb is_urlsafe_char text = true ->
  forallb (fun c => (Byte.to_N c <? 128)%N) text = true.
Proof.
  induction text as [|c text IH]; [reflexivity|]. cbn [forallb].
  intros Ht. apply andb_true_iff in Ht as [Hc Ht].
  destruct (urlsafe_char_decodes c Hc) as (_ & _ & ->). now apply IH.
Qed.

(** X8. On a text made of urlsafe characters only, [b64u_decode] raises
    [binascii.Error] when the length is 1 modulo 4 (no octet string has such
    an encoding) and returns octets for every other length, for [bytes] and
    for [str] alike. *)
Theorem b64u_decode_urlsafe_text (text : list byte) :
  forallb is_urlsafe_char text = true ->
  ((List.length text mod 4 = 1)%nat ->
   b64u_decode (PBytes text) = Raise binascii_Error
   /\ b64u_decode (PStr (decode_ascii text)) = Raise binascii_Error)
  /\ ((List.length text mod 4 <> 1)%nat ->
      exists b, b64u_decode (PBytes text) = Ok b
                /\ b64u_decode (PStr (decode_ascii text)) = Ok b).
Proof.
  intros Htext.
  destruct (b64u_decode_bytes_urlsafe text Htext) as [Hbad Hgood].
  cbn [b64u_decode].
  rewrite (encode_ascii_of_ascii text (urlsafe_text_ascii text Htext)).
  cbn [rbind]. split.
  - intros Hl. split; apply Hbad, Hl.
  - intros Hl. destruct (Hgood Hl) as [b Hb]. exists b. split; exact Hb.
Qed.

Lemma b64u_decode_urlsafe_text_witness :
  ((List.length ["A"%byte; "Q"%byte; "I"%byte; "D"%byte; "_"%byte] mod 4 = 1)%nat ->
   b64u_decode (PBytes ["A"%byte; "Q"%byte; "I"%byte; "D"%byte; "_"%byte])
   = Raise binascii_Error
   /\ b64u_decode
        (PStr (decode_ascii ["A"%byte; "Q"%byte; "I"%byte; "D"%byte; "_"%byte]))
      = Raise binascii_Error)
  /\ ((List.length ["A"%byte; "Q"%byte; "I"%byte; "D"%byte; "_"%byte] mod 4 <> 1)%nat ->
      exists b,
        b64u_decode (PBytes ["A"%byte; "Q"%byte; "I"%byte; "D"%byte; "_"%byte])
        = Ok b
        /\ b64u_decode
             (PStr (decode_ascii ["A"%byte; "Q"%byte; "I"%byte; "D"%byte; "_"%byte]))
           = Ok b).
Proof.
  apply (b64u_decode_urlsafe_text ["A"%byte; "Q"%byte; "I"%byte; "D"%byte; "_"%byte]).
  reflexivity.
Defined.

(** ** Building symmetric keys *)

Lemma bind_params_Ok (formals : list string) (params : gmap string pyval) :
  bind_params formals params = Ok tt
  <-> Forall (fun k => params !! k = None) formals.
Proof.
  unfold bind_params. rewrite Forall_forall.
  destruct (forallb _ formals) eqn:E.
  - rewrite forallb_forall in E. split; [|reflexivity].
    intros _ k Hk. apply list_elem_of_In in Hk.
    apply (bool_decide_eq_true_1 _ (E k Hk)).
  - split; [discriminate|]. intros Hall. exfalso.
    assert (Ht : forallb (fun k => bool_decide (params !! k = None)) formals = true).
    { apply forallb_forall. intros k Hk. apply bool_decide_eq_true_2, Hall.
      now apply list_elem_of_In. }
    congruence.
Qed.

Lemma bind_params_Raise (formals : list string) (params : gmap string pyval) :
  bind_params formals params = Ok tt \/ bind_params formals params = Raise TypeError.
Proof. unfold bind_params. destruct (forallb _ formals); auto. Qed.

Lemma kwargs_Ok (named : list (string * pyval)) (params m : gmap string pyval) :
  kwargs named params = Ok m ->
  Forall (fun kv => params !! kv.1 = None) named /\ m = list_to_map named ∪ params.
Proof.
  unfold kwargs. destruct (forallb _ named) eqn:E; [|discriminate].
  intros [= <-]. split; [|reflexivity].
  rewrite Forall_forall. rewrite forallb_forall in E.
  intros kv Hkv. apply list_elem_of_In in Hkv.
  apply (bool_decide_eq_true_1 _ (E kv Hkv)).
Qed.

Lemma from_bytes_Ok (k : pyval) (params jwk : gmap string pyval) :
  SymmetricJwk.from_bytes k params = Ok jwk ->
  params !! "cls" = None /\ params !! "k" = None /\ params !! "key" = None
  /\ jwk = (list_to_map [("key", PStr "oct"); ("k", PStr (b64u_encode k))]
            : gmap string pyval) ∪ params.
Proof.
  unfold SymmetricJwk.from_bytes, SymmetricJwk.from_bytes_params.
  intros Hjwk.
  apply rbind_Ok in Hjwk as (d & Hd & Hnew).
  apply rbind_Ok in Hd as ([] & Hformals & Hkw).
  apply bind_params_Ok in Hformals.
  apply kwargs_Ok in Hkw as [Hnamed ->].
  unfold SymmetricJwk.new in Hnew.
  apply rbind_Ok in Hnew as (_ & _ & [= <-]).
  inversion Hformals as [|? ? Hcls Hrest]; subst.
  inversion Hrest as [|? ? Hk _]; subst.
  inversion Hnamed as [|? ? Hkey _]; subst.
  auto.
Qed.

Lemma from_bytes_lookup (k : pyval) (params jwk : gmap string pyval) :
  SymmetricJwk.from_bytes k params = Ok jwk ->
  jwk !! "k" = Some (PStr (b64u_encode k))
  /\ forall name, name <> "k"%string -> name <> "key"%string ->
                  jwk !! name = params !! name.
Proof.
  intros Hjwk. apply from_bytes_Ok in Hjwk as (_ & _ & _ & ->). split.
  - apply lookup_union_Some_l. cbn [list_to_map foldr uncurry fst snd].
    rewrite lookup_insert_ne by discriminate. apply lookup_insert_eq.
  - intros name Hk Hkey. rewrite lookup_union_r; [reflexivity|].
    cbn [list_to_map foldr uncurry fst snd].
    rewrite !lookup_insert_ne by congruence. apply lookup_empty.
Qed.

Lemma b64u_decode_encode_str (s : string) :
  b64u_decode (PStr (b64u_encode (PStr s))) = Ok (encode_utf8 s).
Proof.
  unfold b64u_encode, b64u_encode_opt. cbn [b64u_decode].
  destruct (b64u_encode_bytes_decodes (encode_utf8 s) false) as (Ha & Hu & _).
  now rewrite (encode_ascii_of_ascii _ Ha).
Qed.

(** X9. For a [bytes] secret [k], [from_bytes(k, **params)] raises
    [TypeError] exactly when [params] names [cls], [k] or [key]; otherwise
    it returns a key whose secret is [k] itself, whose size is eight times
    the number of bytes, and which keeps every extra parameter. *)
Theorem from_bytes_secret (kb : list byte) (params : gmap string pyval) :
  (SymmetricJwk.from_bytes (PBytes kb) params = Raise TypeError
   <-> params !! "cls" <> None \/ params !! "k" <> None \/ params !! "key" <> None)
  /\ (forall jwk,
        SymmetricJwk.from_bytes (PBytes kb) params = Ok jwk ->
        SymmetricJwk.key jwk = Ok kb
        /\ SymmetricJwk.key_size jwk = Ok (Z.of_nat (List.length kb) * 8)
        /\ forall name, name <> "k"%string -> name <> "key"%string ->
                        jwk !! name = params !! name).
Proof.
  split; [split|].
  - intros Hr.
    destruct (params !! "cls") eqn:Hcls; [left; discriminate|].
    destruct (params !! "k") eqn:Hk; [right; left; discriminate|].
    destruct (params !! "key") eqn:Hkey; [right; right; discriminate|].
    destruct (from_bytes_key kb params Hcls Hk Hkey) as (jwk & Hok & _).
    congruence.
  - intros Hbad.
    unfold SymmetricJwk.from_bytes, SymmetricJwk.from_bytes_params,
      bind_params, kwargs.
    cbn [forallb fst].
    destruct (params !! "cls") eqn:Hcls; [reflexivity|].
    destruct (params !! "k") eqn:Hk; [reflexivity|].
    destruct (params !! "key") eqn:Hkey; [reflexivity|].
    destruct Hbad as [Hb | [Hb | Hb]]; contradiction.
  - intros jwk Hjwk.
    destruct (from_bytes_lookup _ _ _ Hjwk) as [Hlk Hother].
    assert (Hkey : SymmetricJwk.key jwk = Ok kb).
    { unfold SymmetricJwk.key, attr. rewrite Hlk. apply b64u_decode_encode. }
    split; [exact Hkey | split; [|exact Hother]].
    unfold SymmetricJwk.key_size. now rewrite Hkey.
Qed.

(** ** Generating symmetric keys *)

Lemma generate_Ok (n : Z) (params jwk : gmap string pyval) (w w' : world) :
  SymmetricJwk.generate n params w = (Ok jwk, w') ->
  0 <= n
  /\ w' = World (tape w) (cursor w + Z.to_nat n) (engine_calls w)
  /\ SymmetricJwk.from_bytes
       (PBytes (map (tape w) (seq (cursor w) (Z.to_nat n)))) params = Ok jwk.
Proof.
  unfold SymmetricJwk.generate. intros Hgen.
  apply bind_Ok in Hgen as ([] & w1 & Hformals & Hgen).
  apply lift_Ok in Hformals as [_ ->].
  apply bind_Ok in Hgen as (key & w1 & Htok & Hgen).
  apply lift_Ok in Hgen as [Hfb ->].
  unfold token_bytes in Htok.
  destruct (n <? 0) eqn:E; [discriminate|]. apply Z.ltb_ge in E.
  injection Htok as <- <-. auto.
Qed.

(** X10. [generate] with a negative size raises [ValueError] and reads no
    entropy; two [generate] calls in a row read adjacent stretches of the
    entropy stream, first [n] then [m] bytes, which become the two secrets,
    and neither calls the cryptography engine. *)
Theorem generate_reads_entropy_in_order (params : gmap string pyval) (w : world) :
  params !! "cls" = None -> params !! "size" = None ->
  (forall n, n < 0 ->
     SymmetricJwk.generate n params w = (Raise (ValueError Negative_argument), w))
  /\ (forall n m jwk1 jwk2 w1 w2,
        SymmetricJwk.generate n params w = (Ok jwk1, w1) ->
        SymmetricJwk.generate m params w1 = (Ok jwk2, w2) ->
        SymmetricJwk.key jwk1
          = Ok (map (tape w) (seq (cursor w) (Z.to_nat n)))
        /\ SymmetricJwk.key jwk2
           = Ok (map (tape w) (seq (cursor w + Z.to_nat n) (Z.to_nat m)))
        /\ cursor w2 = (cursor w + Z.to_nat n + Z.to_nat m)%nat
        /\ engine_calls w2 = engine_calls w).
Proof.
  intros Hcls Hsize. split.
  - intros n Hn. unfold SymmetricJwk.generate, bind, lift, bind_params, token_bytes.
    cbn [forallb]. rewrite Hcls, Hsize. cbn.
    now rewrite (proj2 (Z.ltb_lt n 0) Hn).
  - intros n m jwk1 jwk2 w1 w2 H1 H2.
    apply generate_Ok in H1 as (_ & -> & Hfb1).
    apply generate_Ok in H2 as (_ & -> & Hfb2).
    cbn [tape cursor engine_calls] in *.
    apply from_bytes_lookup in Hfb1 as [Hk1 _].
    apply from_bytes_lookup in Hfb2 as [Hk2 _].
    unfold SymmetricJwk.key, attr. rewrite Hk1, Hk2. cbn [default from_option id].
    rewrite !b64u_decode_encode. auto.
Qed.

Lemma generate_reads_entropy_in_order_witness :
  (forall n, n < 0 ->
     SymmetricJwk.generate n ∅ zero_world
     = (Raise (ValueError Negative_argument), zero_world))
  /\ (forall n m jwk1 jwk2 w1 w2,
        SymmetricJwk.generate n ∅ zero_world = (Ok jwk1, w1) ->
        SymmetricJwk.generate m ∅ w1 = (Ok jwk2, w2) ->
        SymmetricJwk.key jwk1
          = Ok (map (tape zero_world) (seq (cursor zero_world) (Z.to_nat n)))
        /\ SymmetricJwk.key jwk2
           = Ok (map (tape zero_world)
                   (seq (cursor zero_world + Z.to_nat n) (Z.to_nat m)))
        /\ cursor w2 = (cursor zero_world + Z.to_nat n + Z.to_nat m)%nat
        /\ engine_calls w2 = engine_calls zero_world).
Proof.
  apply (generate_reads_entropy_in_order ∅ zero_world); reflexivity.
Defined.

Lemma kw_alg_lookup (alg : string) (params : gmap string pyval) (name : string) :
  name <> "alg"%string ->
  ((list_to_map [("alg", PStr alg)] : gmap string pyval) ∪ params) !! name
  = params !! name.
Proof.
  intros Hne. rewrite lookup_union_r; [reflexivity|].
  cbn [list_to_map foldr uncurry fst snd].
  rewrite lookup_insert_ne by congruence. apply lookup_empty.
Qed.

(** X11. [generate_for_alg] raises [ValueError("Unsupported alg", alg)],
    reading no entropy, for every identifier that is in neither the signing
    nor the encryption table, the three key-wrap identifiers included; for an
    identifier of one of the two tables it returns a key that carries
    ["alg"] and keeps the extra parameters. *)
Theorem generate_for_alg_supported (alg : string) (params : gmap string pyval)
    (w : world) :
  params !! "cls" = None -> params !! "alg" = None -> params !! "size" = None ->
  params !! "k" = None -> params !! "key" = None ->
  (assoc SymmetricJwk.SIGNATURE_ALGORITHMS alg = None ->
   assoc SymmetricJwk.ENCRYPTION_ALGORITHMS alg = None ->
   SymmetricJwk.generate_for_alg alg params w
   = (Raise (ValueError (Unsupported_alg alg)), w))
  /\ (In alg SymmetricJwk.supported_key_management_algorithms ->
      SymmetricJwk.generate_for_alg alg params w
      = (Raise (ValueError (Unsupported_alg alg)), w))
  /\ (In alg SymmetricJwk.supported_signing_algorithms
      \/ In alg SymmetricJwk.supported_encryption_algorithms ->
      exists jwk w',
        SymmetricJwk.generate_for_alg alg params w = (Ok jwk, w')
        /\ jwk !! "alg" = Some (PStr alg)
        /\ (exists k, SymmetricJwk.key jwk = Ok k)
        /\ forall name, name <> "k"%string -> name <> "key"%string ->
                        name <> "alg"%string -> jwk !! name = params !! name).
Proof.
  intros Hcls Halg Hsize Hk Hkey.
  assert (Hnone :
    assoc SymmetricJwk.SIGNATURE_ALGORITHMS alg = None ->
    assoc SymmetricJwk.ENCRYPTION_ALGORITHMS alg = None ->
    SymmetricJwk.generate_for_alg alg params w
    = (Raise (ValueError (Unsupported_alg alg)), w)).
  { intros Hs He. unfold SymmetricJwk.generate_for_alg, bind, lift, bind_params.
    cbn [forallb]. rewrite Hcls, Halg, Hs, He. reflexivity. }
  assert (Hsome : forall size, 0 <= size ->
    exists jwk w',
      bind (lift (kwargs [("alg", PStr alg)] params))
           (fun kw => SymmetricJwk.generate size kw) w = (Ok jwk, w')
      /\ jwk !! "alg" = Some (PStr alg)
      /\ (exists k, SymmetricJwk.key jwk = Ok k)
      /\ forall name, name <> "k"%string -> name <> "key"%string ->
                      name <> "alg"%string -> jwk !! name = params !! name).
  { intros size Hsz.
    remember ((list_to_map [("alg", PStr alg)] : gmap string pyval) ∪ params)
      as kw eqn:Ekw.
    assert (Hkw : kwargs [("alg", PStr alg)] params = Ok kw).
    { unfold kwargs. cbn [forallb fst]. rewrite Halg. now subst kw. }
    assert (Hfree : forall name, name <> "alg"%string -> params !! name = None ->
                                 kw !! name = None).
    { intros name Hne Hn. subst kw. now rewrite kw_alg_lookup. }
    destruct (from_bytes_key (map (tape w) (seq (cursor w) (Z.to_nat size))) kw)
      as (jwk & Hfb & Hkb & _); try (apply Hfree; [discriminate | assumption]).
    exists jwk, (World (tape w) (cursor w + Z.to_nat size) (engine_calls w)).
    split; [|split; [|split]].
    - unfold bind, lift. rewrite Hkw.
      unfold SymmetricJwk.generate, bind, lift, bind_params, token_bytes.
      cbn [forallb].
      rewrite (Hfree "cls"%string ltac:(discriminate) Hcls),
        (Hfree "size"%string ltac:(discriminate) Hsize).
      cbn. rewrite (proj2 (Z.ltb_ge size 0) Hsz), Hfb. reflexivity.
    - destruct (from_bytes_lookup _ _ _ Hfb) as [_ Hother].
      rewrite Hother by discriminate. subst kw.
      apply lookup_union_Some_l. cbn [list_to_map foldr uncurry fst snd].
      apply lookup_insert_eq.
    - eauto.
    - intros name N1 N2 N3.
      destruct (from_bytes_lookup _ _ _ Hfb) as [_ Hother].
      rewrite Hother by assumption. subst kw. now apply kw_alg_lookup. }
  split; [exact Hnone | split].
  - intros Hin. cbn in Hin.
    destruct Hin as [<- | [<- | [<- | []]]]; apply Hnone; reflexivity.
  - intros Hin.
    unfold SymmetricJwk.generate_for_alg.
    assert (Hb : lift (bind_params ["cls"; "alg"]%string params) w = (Ok tt, w)).
    { unfold lift, bind_params. cbn [forallb]. now rewrite Hcls, Halg. }
    unfold bind at 1. rewrite Hb.
    cbn in Hin.
    destruct Hin as [[<- | [<- | [<- | []]]]
                    | [<- | [<- | [<- | [<- | [<- | [<- | []]]]]]]];
      cbn [assoc SymmetricJwk.SIGNATURE_ALGORITHMS
             SymmetricJwk.ENCRYPTION_ALGORITHMS String.eqb Ascii.eqb Bool.eqb];
      apply Hsome; lia.
Qed.

Lemma generate_for_alg_supported_witness :
  (assoc SymmetricJwk.SIGNATURE_ALGORITHMS "A128KW" = None ->
   assoc SymmetricJwk.ENCRYPTION_ALGORITHMS "A128KW" = None ->
   SymmetricJwk.generate_for_alg "A128KW" ∅ zero_world
   = (Raise (ValueError (Unsupported_alg "A128KW")), zero_world))
  /\ (In "A128KW"%string SymmetricJwk.supported_key_management_algorithms ->
      SymmetricJwk.generate_for_alg "A128KW" ∅ zero_world
      = (Raise (ValueError (Unsupported_alg "A128KW")), zero_world))
  /\ (In "A128KW"%string SymmetricJwk.supported_signing_algorithms
      \/ In "A128KW"%string SymmetricJwk.supported_encryption_algorithms ->
      exists jwk w',
        SymmetricJwk.generate_for_alg "A128KW" ∅ zero_world = (Ok jwk, w')
        /\ jwk !! "alg" = Some (PStr "A128KW")
        /\ (exists k, SymmetricJwk.key jwk = Ok k)
        /\ forall name, name <> "k"%string -> name <> "key"%string ->
                        name <> "alg"%string ->
                        jwk !! name = (∅ : gmap string pyval) !! name).
Proof.
  apply (generate_for_alg_supported "A128KW" ∅ zero_world); reflexivity.
Defined.

(** ** Effects of the symmetric operations *)

Section SymmetricEffects.
Context `{Cryptography} `{AlgResolution}.

(** X12. [sign] never reads the entropy source; when it fails, the engine
    was not called; when it returns, the engine computed exactly one MAC,
    over the data and under the key's secret, and that MAC is the result. *)
Theorem sign_effects (jwk : gmap string pyval) (data : list byte)
    (alg : option string) (w : world) :
  let r := fst (SymmetricJwk.sign jwk data alg w) in
  let w' := snd (SymmetricJwk.sign jwk data alg w) in
  tape w' = tape w /\ cursor w' = cursor w
  /\ (forall e, r = Raise e -> w' = w)
  /\ (forall s, r = Ok s ->
        exists A mac h m k,
          assoc SymmetricJwk.SIGNATURE_ALGORITHMS A = Some (mac, h, m)
          /\ SymmetricJwk.key jwk = Ok k
          /\ s = mac_finalize mac k h data
          /\ engine_calls w' = Call_mac mac k h data :: engine_calls w).
Proof.
  cbv zeta. unfold SymmetricJwk.sign, bind, lift, raise.
  destruct (get_alg _ _ _) as [A|e0]; cbn [fst snd].
  2:{ repeat split; auto. discriminate. }
  destruct (assoc _ A) as [[[mac h] m]|] eqn:Ht; cbn [fst snd].
  2:{ repeat split; auto. discriminate. }
  destruct (SymmetricJwk.key jwk) as [k|e1] eqn:Hk; cbn [fst snd].
  2:{ repeat split; auto. discriminate. }
  unfold run_mac, record_call, bind, ret. cbn [fst snd tape cursor engine_calls].
  repeat split; [discriminate|].
  intros s [= <-]. exists A, mac, h, m, k. auto.
Qed.

Lemma verify_loop_prefix (jwk : gmap string pyval) (k data signature : list byte)
    (pre rest : list string) :
  SymmetricJwk.key jwk = Ok k ->
  (forall a, In a pre ->
     exists mac h m,
       assoc SymmetricJwk.SIGNATURE_ALGORITHMS a = Some (mac, h, m)
       /\ mac_finalize mac k h data <> signature) ->
  forall w, exists w1,
    SymmetricJwk.verify_loop jwk data signature (pre ++ rest) w
    = SymmetricJwk.verify_loop jwk data signature rest w1
    /\ tape w1 = tape w /\ cursor w1 = cursor w
    /\ List.length (engine_calls w1)
       = (List.length (engine_calls w) + List.length pre)%nat.
Proof.
  intros Hk. induction pre as [|a pre IH]; intros Hall w.
  - exists w. cbn. repeat split; lia.
  - destruct (Hall a (or_introl eq_refl)) as (mac & h & m & Ht & Hne).
    cbn [app SymmetricJwk.verify_loop]. rewrite Ht.
    unfold run_mac, record_call, bind, lift, ret. rewrite Hk.
    unfold bytes_eqb. rewrite bool_decide_eq_false_2 by congruence.
    destruct (IH (fun a' Ha' => Hall a' (or_intror Ha'))
                (World (tape w) (cursor w) (Call_mac mac k h data :: engine_calls w)))
      as (w1 & Heq & Ht1 & Hc1 & Hl1).
    exists w1. cbn [tape cursor engine_calls List.length] in *.
    repeat split; try assumption. lia.
Qed.

(** X13. [verify] tries the candidates in order. After candidates of the
    signing table whose MACs differ from the signature: a candidate whose MAC
    equals it makes [verify] return [True] with one MAC computed per
    candidate tried, the later candidates not being looked at; a candidate
    outside the table makes it raise the unsupported-signing-algorithm
    [ValueError], whatever follows. *)
Theorem verify_tries_in_order (jwk : gmap string pyval)
    (k data signature : list byte) (alg : option string)
    (algs : option (list string)) (pre post : list string) (a : string) :
  SymmetricJwk.key jwk = Ok k ->
  get_algs (jwk !! "alg") alg algs SymmetricJwk.supported_signing_algorithms
    = Ok (pre ++ a :: post) ->
  (forall x, In x pre ->
     exists mac h m,
       assoc SymmetricJwk.SIGNATURE_ALGORITHMS x = Some (mac, h, m)
       /\ mac_finalize mac k h data <> signature) ->
  forall w,
    (forall mac h m,
        assoc SymmetricJwk.SIGNATURE_ALGORITHMS a = Some (mac, h, m) ->
        mac_finalize mac k h data = signature ->
        fst (SymmetricJwk.verify jwk data signature alg algs w) = Ok true
        /\ List.length
             (engine_calls (snd (SymmetricJwk.verify jwk data signature alg algs w)))
           = (List.length (engine_calls w) + List.length pre + 1)%nat)
    /\ (assoc SymmetricJwk.SIGNATURE_ALGORITHMS a = None ->
        fst (SymmetricJwk.verify jwk data signature alg algs w)
        = Raise (ValueError (Unsupported_signing_alg a))).
Proof.
  intros Hk Halgs Hpre w.
  unfold SymmetricJwk.verify, bind, lift. rewrite Halgs.
  destruct (verify_loop_prefix jwk k data signature pre (a :: post) Hk Hpre w)
    as (w1 & Hloop & _ & _ & Hlen).
  rewrite Hloop. cbn [SymmetricJwk.verify_loop]. split.
  - intros mac h m Ht Heq. rewrite Ht.
    unfold run_mac, record_call, bind, lift, ret. rewrite Hk.
    unfold bytes_eqb. rewrite bool_decide_eq_true_2 by congruence.
    cbn [fst snd engine_calls List.length]. split; [reflexivity | lia].
  - intros Ht. rewrite Ht. reflexivity.
Qed.

(** X14. With a caller-supplied IV, a successful [encrypt] returns that IV
    unchanged, reads no entropy, calls the engine once with the key's
    secret, and returns two parts that concatenate to the engine's output,
    however short that output is. *)
Theorem encrypt_with_iv (jwk : gmap string pyval) (plaintext : list byte)
    (aad : option (list byte)) (alg : option string) (iv : list byte)
    (w w' : world) (cyphertext tag iv' : list byte) :
  SymmetricJwk.encrypt jwk plaintext aad alg (Some iv) w
    = (Ok (cyphertext, tag, iv'), w') ->
  iv' = iv /\ tape w' = tape w /\ cursor w' = cursor w
  /\ exists c k out,
       SymmetricJwk.key jwk = Ok k
       /\ aead_encrypt c k iv plaintext aad = Ok out
       /\ cyphertext ++ tag = out
       /\ engine_calls w'
          = Call_aead_encrypt c k iv plaintext aad :: engine_calls w.
Proof.
  intros Hrun. unfold SymmetricJwk.encrypt in Hrun.
  apply bind_Ok in Hrun as (A & w1 & Halg & Hrun).
  apply lift_Ok in Halg as [_ ->].
  destruct (assoc _ A) as [[[[[d c] ks] ivs] ts]|]; [|discriminate].
  apply bind_Ok in Hrun as (size & w1 & Hsize & Hrun).
  apply lift_Ok in Hsize as [_ ->].
  destruct (negb _); [discriminate|].
  apply bind_Ok in Hrun as (iv0 & w1 & Hiv & Hrun).
  unfold ret in Hiv. injection Hiv as <- <-.
  apply bind_Ok in Hrun as (k & w2 & Hk & Hrun).
  apply lift_Ok in Hk as [Hk ->].
  apply bind_Ok in Hrun as (out & w3 & Henc & Hrun).
  unfold ret in Hrun. injection Hrun as <- <- <- <-.
  unfold run_aead_encrypt in Henc.
  apply bind_Ok in Henc as ([] & w4 & Hrec & Henc).
  apply lift_Ok in Henc as [Henc ->].
  unfold record_call in Hrec. injection Hrec as <-.
  cbn [tape cursor engine_calls].
  repeat split. exists c, k, out. repeat split; auto.
  apply slice_to_from.
Qed.

(** X15. Once the algorithm is resolved in the encryption table and the
    key's size matches, [decrypt] returns the engine's verdict on
    [cyphertext + tag], an error of the engine included: only the
    concatenation matters, not where it was split. *)
Theorem decrypt_is_engine_verdict (jwk : gmap string pyval)
    (cyphertext tag iv : list byte) (aad : option (list byte))
    (alg : option string) (A d : string) (c : aead_class) (ks ivs ts : Z)
    (k : list byte) (w : world) :
  get_alg (jwk !! "alg") alg SymmetricJwk.supported_encryption_algorithms = Ok A ->
  assoc SymmetricJwk.ENCRYPTION_ALGORITHMS A = Some (d, c, ks, ivs, ts) ->
  SymmetricJwk.key jwk = Ok k ->
  Z.of_nat (List.length k) * 8 = ks ->
  SymmetricJwk.decrypt jwk cyphertext tag iv aad alg w
  = (aead_decrypt c k iv (cyphertext ++ tag) aad,
     World (tape w) (cursor w)
       (Call_aead_decrypt c k iv (cyphertext ++ tag) aad :: engine_calls w))
  /\ forall cyphertext2 tag2,
       cyphertext2 ++ tag2 = cyphertext ++ tag ->
       SymmetricJwk.decrypt jwk cyphertext2 tag2 iv aad alg w
       = SymmetricJwk.decrypt jwk cyphertext tag iv aad alg w.
Proof.
  intros Halg Ht Hk Hsize.
  assert (Hrun : forall c1 t1,
    SymmetricJwk.decrypt jwk c1 t1 iv aad alg w
    = (aead_decrypt c k iv (c1 ++ t1) aad,
       World (tape w) (cursor w)
         (Call_aead_decrypt c k iv (c1 ++ t1) aad :: engine_calls w))).
  { intros c1 t1.
    unfold SymmetricJwk.decrypt, SymmetricJwk.key_size, bind, lift.
    rewrite Halg, Ht, Hk. cbn [rbind]. rewrite Hsize, Z.eqb_refl. cbn [negb].
    unfold run_aead_decrypt, record_call, bind, lift.
    destruct (aead_decrypt c k iv (c1 ++ t1) aad); reflexivity. }
  split; [apply Hrun|].
  intros c2 t2 Heq. rewrite !Hrun, Heq. reflexivity.
Qed.

(** The engine's own contract for key wrap. *)
Hypothesis keywrap_unwrap_wrap :
  forall a kek key out,
    keywrap_wrap a kek key = Ok out -> keywrap_unwrap a kek out = Ok key.

(** X16. What [wrap_key] returns, [unwrap_key] with the same key and
    algorithm turns back into the wrapped key. *)
Theorem unwrap_key_wrap_key (jwk : gmap string pyval) (key : list byte)
    (alg : option string) (w w' : world) (cypherkey : list byte) :
  SymmetricJwk.wrap_key jwk key alg w = (Ok cypherkey, w') ->
  forall w2, fst (SymmetricJwk.unwrap_key jwk cypherkey alg w2) = Ok key.
Proof.
  intros Hrun w2. unfold SymmetricJwk.wrap_key in Hrun.
  apply bind_Ok in Hrun as (A & w1 & Halg & Hrun).
  apply lift_Ok in Halg as [Halg ->].
  destruct (assoc _ A) as [[[d m] ks]|] eqn:Ht; [|discriminate].
  apply bind_Ok in Hrun as (size & w1 & Hsize & Hrun).
  apply lift_Ok in Hsize as [Hsize ->].
  destruct (size =? ks) eqn:Heq; cbn [negb] in Hrun; [|discriminate].
  apply bind_Ok in Hrun as (k & w3 & Hk & Hrun).
  apply lift_Ok in Hk as [Hk ->].
  unfold run_wrap in Hrun.
  apply bind_Ok in Hrun as ([] & w4 & _ & Hrun).
  apply lift_Ok in Hrun as [Hwrap _].
  unfold SymmetricJwk.unwrap_key, bind, lift.
  rewrite Halg, Ht, Hsize, Heq, Hk. cbn [negb].
  unfold run_unwrap, record_call, bind, lift. cbn [fst].
  apply keywrap_unwrap_wrap, Hwrap.
Qed.

End SymmetricEffects.

Lemma toy_engine_unwrap_wrap :
  forall a kek key out,
    @keywrap_wrap toy_engine a kek key = Ok out ->
    @keywrap_unwrap toy_engine a kek out = Ok key.
Proof. intros a kek key out [= <-]. reflexivity. Qed.

Lemma verify_tries_in_order_witness :
  (forall mac h m,
      assoc SymmetricJwk.SIGNATURE_ALGORITHMS "HS384" = Some (mac, h, m) ->
      @mac_finalize tagged_engine mac [x01] h [x07] = [x02; x01; x07] ->
      fst (@SymmetricJwk.verify tagged_engine spec_resolution key8 [x07]
             [x02; x01; x07] None None zero_world) = Ok true
      /\ List.length
           (engine_calls
              (snd (@SymmetricJwk.verify tagged_engine spec_resolution key8
                      [x07] [x02; x01; x07] None None zero_world)))
         = (List.length (engine_calls zero_world)
            + List.length ["HS256"%string] + 1)%nat)
  /\ (assoc SymmetricJwk.SIGNATURE_ALGORITHMS "HS384" = None ->
      fst (@SymmetricJwk.verify tagged_engine spec_resolution key8 [x07]
             [x02; x01; x07] None None zero_world)
      = Raise (ValueError (Unsupported_signing_alg "HS384"))).
Proof.
  apply (@verify_tries_in_order tagged_engine spec_resolution key8 [x01] [x07]
           [x02; x01; x07] None None ["HS256"%string] ["HS512"%string] "HS384").
  - reflexivity.
  - reflexivity.
  - intros x [<- | []]. exists HMAC, SHA256, 256. split; [reflexivity | discriminate].
Defined.

Lemma encrypt_with_iv_witness :
  [x09; x09] = [x09; x09]
  /\ tape (World (fun _ => x00) 0
             [Call_aead_encrypt AESGCM
                [x00; x01; x02; x03; x04; x05; x06; x07;
                 x08; x09; x0a; x0b; x0c; x0d; x0e; x0f]
                [x09; x09] [x01; x02] None]) = tape zero_world
  /\ cursor (World (fun _ => x00) 0
               [Call_aead_encrypt AESGCM
                  [x00; x01; x02; x03; x04; x05; x06; x07;
                   x08; x09; x0a; x0b; x0c; x0d; x0e; x0f]
                  [x09; x09] [x01; x02] None]) = cursor zero_world
  /\ exists c k out,
       SymmetricJwk.key key128 = Ok k
       /\ @aead_encrypt toy_engine c k [x09; x09] [x01; x02] None = Ok out
       /\ [x01; x02] ++ repeat x00 16 = out
       /\ engine_calls
            (World (fun _ => x00) 0
               [Call_aead_encrypt AESGCM
                  [x00; x01; x02; x03; x04; x05; x06; x07;
                   x08; x09; x0a; x0b; x0c; x0d; x0e; x0f]
                  [x09; x09] [x01; x02] None])
          = Call_aead_encrypt c k [x09; x09] [x01; x02] None
            :: engine_calls zero_world.
Proof.
  apply (@encrypt_with_iv toy_engine spec_resolution key128 [x01; x02] None
           (Some "A128GCM"%string) [x09; x09] zero_world).
  vm_compute. reflexivity.
Defined.

Lemma decrypt_is_engine_verdict_witness :
  @SymmetricJwk.decrypt toy_engine spec_resolution key128 [x01; x02]
    (repeat x00 16) [x09] None (Some "A128GCM"%string) zero_world
  = (@aead_decrypt toy_engine AESGCM
       [x00; x01; x02; x03; x04; x05; x06; x07;
        x08; x09; x0a; x0b; x0c; x0d; x0e; x0f]
       [x09] ([x01; x02] ++ repeat x00 16) None,
     World (tape zero_world) (cursor zero_world)
       (Call_aead_decrypt AESGCM
          [x00; x01; x02; x03; x04; x05; x06; x07;
           x08; x09; x0a; x0b; x0c; x0d; x0e; x0f]
          [x09] ([x01; x02] ++ repeat x00 16) None :: engine_calls zero_world))
  /\ forall cyphertext2 tag2,
       cyphertext2 ++ tag2 = [x01; x02] ++ repeat x00 16 ->
       @SymmetricJwk.decrypt toy_engine spec_resolution key128 cyphertext2 tag2
         [x09] None (Some "A128GCM"%string) zero_world
       = @SymmetricJwk.decrypt toy_engine spec_resolution key128 [x01; x02]
           (repeat x00 16) [x09] None (Some "A128GCM"%string) zero_world.
Proof.
  apply (@decrypt_is_engine_verdict toy_engine spec_resolution key128
           [x01; x02] (repeat x00 16) [x09] None (Some "A128GCM"%string)
           "A128GCM" "AES GCM using 128-bit key" AESGCM 128 96 16);
    reflexivity.
Defined.

Lemma unwrap_key_wrap_key_witness :
  fst (@SymmetricJwk.unwrap_key toy_engine spec_resolution key128
         (repeat x00 8 ++ [x05; x06]) (Some "A128KW"%string) zero_world)
  = Ok [x05; x06].
Proof.
  apply (@unwrap_key_wrap_key toy_engine spec_resolution toy_engine_unwrap_wrap
           key128 [x05; x06] (Some "A128KW"%string) zero_world
           (World (fun _ => x00) 0
              [Call_wrap AES_KW
                 [x00; x01; x02; x03; x04; x05; x06; x07;
                  x08; x09; x0a; x0b; x0c; x0d; x0e; x0f] [x05; x06]])).
  vm_compute. reflexivity.
Defined.

Section NoEntropy.
Context `{Cryptography} `{AlgResolution}.

Lemma verify_loop_entropy (jwk : gmap string pyval) (data signature : list byte)
    (algs : list string) :
  forall w,
    tape (snd (SymmetricJwk.verify_loop jwk data signature algs w)) = tape w
    /\ cursor (snd (SymmetricJwk.verify_loop jwk data signature algs w)) = cursor w.
Proof.
  induction algs as [|a rest IH]; intros w; [split; reflexivity|].
  cbn [SymmetricJwk.verify_loop].
  destruct (assoc _ a) as [[[mac h] m]|]; [|split; reflexivity].
  unfold run_mac, record_call, bind, lift, ret.
  destruct (SymmetricJwk.key jwk) as [k|]; [|split; reflexivity].
  destruct (bytes_eqb _ _); [split; reflexivity|].
  destruct (IH (World (tape w) (cursor w) (Call_mac mac k h data :: engine_calls w)))
    as [Ht Hc].
  split; assumption.
Qed.

(** X17. [verify], [decrypt], [wrap_key] and [unwrap_key] never read the
    entropy source, whatever their outcome: the stream and the position in
    it are the same after the call as before. *)
Theorem operations_read_no_entropy (jwk : gmap string pyval)
    (alg : option string) (w : world) :
  (forall data signature algs,
      let w' := snd (SymmetricJwk.verify jwk data signature alg algs w) in
      tape w' = tape w /\ cursor w' = cursor w)
  /\ (forall cyphertext tag iv aad,
        let w' := snd (SymmetricJwk.decrypt jwk cyphertext tag iv aad alg w) in
        tape w' = tape w /\ cursor w' = cursor w)
  /\ (forall key,
        let w' := snd (SymmetricJwk.wrap_key jwk key alg w) in
        tape w' = tape w /\ cursor w' = cursor w)
  /\ (forall cypherkey,
        let w' := snd (SymmetricJwk.unwrap_key jwk cypherkey alg w) in
        tape w' = tape w /\ cursor w' = cursor w).
Proof.
  split; [|split; [|split]]; intros; subst w'.
  - unfold SymmetricJwk.verify, bind, lift.
    destruct (get_algs _ _ _ _) as [candidates|]; [|split; reflexivity].
    apply verify_loop_entropy.
  - unfold SymmetricJwk.decrypt, bind, lift, raise.
    destruct (get_alg _ _ _) as [A|]; [|split; reflexivity].
    destruct (assoc _ A) as [[[[[d c] ks] ivs] ts]|]; [|split; reflexivity].
    destruct (SymmetricJwk.key_size jwk) as [size|]; [|split; reflexivity].
    destruct (negb _); [split; reflexivity|].
    destruct (SymmetricJwk.key jwk) as [k|]; [|split; reflexivity].
    unfold run_aead_decrypt, record_call, bind, lift.
    destruct (aead_decrypt _ _ _ _ _); split; reflexivity.
  - unfold SymmetricJwk.wrap_key, bind, lift, raise.
    destruct (get_alg _ _ _) as [A|]; [|split; reflexivity].
    destruct (assoc _ A) as [[[d m] ks]|]; [|split; reflexivity].
    destruct (SymmetricJwk.key_size jwk) as [size|]; [|split; reflexivity].
    destruct (negb _); [split; reflexivity|].
    destruct (SymmetricJwk.key jwk) as [k|]; [|split; reflexivity].
    unfold run_wrap, record_call, bind, lift.
    destruct (keywrap_wrap _ _ _); split; reflexivity.
  - unfold SymmetricJwk.unwrap_key, bind, lift, raise.
    destruct (get_alg _ _ _) as [A|]; [|split; reflexivity].
    destruct (assoc _ A) as [[[d m] ks]|]; [|split; reflexivity].
    destruct (SymmetricJwk.key_size jwk) as [size|]; [|split; reflexivity].
    destruct (negb _); [split; reflexivity|].
    destruct (SymmetricJwk.key jwk) as [k|]; [|split; reflexivity].
    unfold run_unwrap, record_call, bind, lift.
    destruct (keywrap_unwrap _ _ _); split; reflexivity.
Qed.

End NoEntropy.

(** ** Elliptic-curve keys *)

Lemma CURVES_lookup (crv : string) (c : EllipticCurve) :
  assoc ECJwk.CURVES crv = Some c <-> In c registered_curves /\ name c = crv.
Proof.
  unfold ECJwk.CURVES, registered_curves. cbn [map assoc name P_256 P_384 P_521 secp256k1].
  split.
  - repeat match goal with
    | |- context [String.eqb ?x ?s] => destruct (String.eqb_spec x s); subst
    end; intros [= <-] || discriminate 1; cbn; auto 10.
  - intros [Hin <-]. cbn in Hin.
    destruct Hin as [<- | [<- | [<- | [<- | []]]]]; reflexivity.
Qed.

(** X18. [get_curve] returns the registered curve of that name, and raises
    [UnsupportedEllipticCurve] carrying the identifier when no registered
    curve has it, or when the identifier is not a [str]. *)
Theorem get_curve_registry (crv : string) :
  (forall c, ECJwk.get_curve (PStr crv) = Ok c
             <-> In c registered_curves /\ name c = crv)
  /\ ((forall c, In c registered_curves -> name c <> crv) ->
      ECJwk.get_curve (PStr crv)
      = Raise (UnsupportedEllipticCurve (Some (PStr crv))))
  /\ ECJwk.get_curve PNone = Raise (UnsupportedEllipticCurve None)
  /\ (forall b, ECJwk.get_curve (PBytes b)
                = Raise (UnsupportedEllipticCurve (Some (PBytes b)))).
Proof.
  split; [|split; [|split]]; try reflexivity.
  - intros c. unfold ECJwk.get_curve. rewrite <- CURVES_lookup.
    destruct (assoc ECJwk.CURVES crv); split; congruence.
  - intros Hnone. unfold ECJwk.get_curve.
    destruct (assoc ECJwk.CURVES crv) as [c|] eqn:E; [|reflexivity].
    apply CURVES_lookup in E as [Hin Hname]. exfalso. exact (Hnone c Hin Hname).
Qed.

Lemma from_int_fits (i len : Z) :
  0 <= len -> 0 <= i < 256 ^ len ->
  BinaPy.from_int i len = Ok (to_bytes_be (Z.to_nat len) i)
  /\ BinaPy.to_int (to_bytes_be (Z.to_nat len) i) = i.
Proof.
  intros Hlen [Hi Hlt]. unfold BinaPy.from_int, BinaPy.to_int, int_to_bytes.
  rewrite (proj2 (Z.ltb_ge len 0) Hlen), (proj2 (Z.ltb_ge i 0) Hi),
    (proj2 (Z.leb_gt (256 ^ len) i) Hlt).
  split; [reflexivity|].
  apply int_from_bytes_to_bytes_be. rewrite Z2Nat.id by lia. lia.
Qed.

Lemma from_int_overflow (i len : Z) :
  0 <= len -> i < 0 \/ 256 ^ len <= i ->
  BinaPy.from_int i len = Raise OverflowError.
Proof.
  intros Hlen Hbad. unfold BinaPy.from_int, int_to_bytes.
  rewrite (proj2 (Z.ltb_ge len 0) Hlen).
  destruct Hbad as [Hneg | Hbig].
  - now rewrite (proj2 (Z.ltb_lt i 0) Hneg).
  - rewrite (proj2 (Z.leb_le (256 ^ len) i) Hbig). now rewrite orb_true_r.
Qed.

Lemma registered_size_nonneg (c : EllipticCurve) :
  In c registered_curves -> 0 <= coordinate_size c.
Proof.
  intros Hin. cbn in Hin.
  destruct Hin as [<- | [<- | [<- | [<- | []]]]]; cbn; lia.
Qed.

Lemma check_kind_encoded (bs : list byte) :
  check_kind kind_b64u (PStr (decode_ascii (BinaPy.encode_to_b64u bs))) = true
  /\ check_kind kind_b64u (PBytes (BinaPy.encode_to_b64u bs)) = true.
Proof.
  unfold BinaPy.encode_to_b64u. cbn [check_kind]. split.
  - change (decode_ascii (b64u_encode_bytes bs false)) with (b64u_encode (PBytes bs)).
    now rewrite b64u_decode_encode.
  - cbn [b64u_decode]. now rewrite b64u_decode_bytes_encode.
Qed.

Ltac lookup_named :=
  apply lookup_union_Some_l; cbn [list_to_map foldr uncurry fst snd];
  repeat (rewrite lookup_insert_ne by discriminate); apply lookup_insert_eq.

(** ** What the factories store *)

Lemma stored_as_encoded (jwk : gmap string pyval) (param : string)
    (bs : list byte) :
  jwk !! param = Some (PStr (decode_ascii (BinaPy.encode_to_b64u bs)))
  \/ jwk !! param = Some (PBytes (BinaPy.encode_to_b64u bs)) ->
  stored_as jwk param bs.
Proof.
  unfold stored_as, BinaPy.encode_to_b64u. intros [Hl | Hl]; eexists; (split; [exact Hl|]).
  - change (decode_ascii (b64u_encode_bytes bs false)) with (b64u_encode (PBytes bs)).
    apply b64u_decode_encode.
  - cbn [b64u_decode]. apply b64u_decode_bytes_encode.
Qed.

Lemma private_stored (c : EllipticCurve) (x y d : Z) (params : gmap string pyval) :
  In c registered_curves ->
  0 <= x < 256 ^ coordinate_size c ->
  0 <= y < 256 ^ coordinate_size c ->
  0 <= d < 256 ^ coordinate_size c ->
  Forall (fun k => params !! k = None) ["cls"; "kty"; "crv"; "x"; "y"; "d"]%string ->
  exists jwk,
    ECJwk.private (name c) x y d params = Ok jwk
    /\ jwk !! "x" = Some (PStr (decode_ascii (BinaPy.encode_to_b64u
                            (to_bytes_be (Z.to_nat (coordinate_size c)) x))))
    /\ jwk !! "y" = Some (PStr (decode_ascii (BinaPy.encode_to_b64u
                            (to_bytes_be (Z.to_nat (coordinate_size c)) y))))
    /\ jwk !! "d" = Some (PStr (decode_ascii (BinaPy.encode_to_b64u
                            (to_bytes_be (Z.to_nat (coordinate_size c)) d)))).
Proof.
  intros Hc Hx Hy Hd Hfree.
  inversion Hfree as [|? ? Fcls F1]; subst.
  inversion F1 as [|? ? Fkty F2]; subst.
  inversion F2 as [|? ? Fcrv F3]; subst.
  inversion F3 as [|? ? Fx F4]; subst.
  inversion F4 as [|? ? Fy F5]; subst.
  inversion F5 as [|? ? Fd _]; subst.
  pose proof (registered_size_nonneg c Hc) as Hsz.
  assert (Hcurve : ECJwk.get_curve (PStr (name c)) = Ok c).
  { unfold ECJwk.get_curve.
    now rewrite (proj2 (CURVES_lookup (name c) c) (conj Hc eq_refl)). }
  destruct (from_int_fits x _ Hsz Hx) as [Hbx _].
  destruct (from_int_fits y _ Hsz Hy) as [Hby _].
  destruct (from_int_fits d _ Hsz Hd) as [Hbd _].
  set (bx := to_bytes_be (Z.to_nat (coordinate_size c)) x) in *.
  set (by_ := to_bytes_be (Z.to_nat (coordinate_size c)) y) in *.
  set (bd := to_bytes_be (Z.to_nat (coordinate_size c)) d) in *.
  remember
    ((list_to_map
        [("kty", PStr "EC"); ("crv", PStr (name c));
         ("x", PStr (decode_ascii (BinaPy.encode_to_b64u bx)));
         ("y", PStr (decode_ascii (BinaPy.encode_to_b64u by_)));
         ("d", PStr (decode_ascii (BinaPy.encode_to_b64u bd)))]%string
      : gmap string pyval) ∪ params) as jwk eqn:Ejwk.
  assert (Hparams : ECJwk.private_params (name c) x y d params = Ok jwk).
  { unfold ECJwk.private_params, bind_params, kwargs. cbn [forallb fst].
    rewrite Fcls, Fcrv, Fx, Fy, Fd. cbn [bool_decide decide_rel andb rbind].
    rewrite Hcurve. cbn [rbind]. rewrite Hbx, Hby, Hbd. cbn [rbind].
    rewrite Fkty. rewrite Ejwk. reflexivity. }
  assert (Lcrv : jwk !! "crv" = Some (PStr (name c))) by (rewrite Ejwk; lookup_named).
  assert (Lx : jwk !! "x" = Some (PStr (decode_ascii (BinaPy.encode_to_b64u bx))))
    by (rewrite Ejwk; lookup_named).
  assert (Ly : jwk !! "y" = Some (PStr (decode_ascii (BinaPy.encode_to_b64u by_))))
    by (rewrite Ejwk; lookup_named).
  assert (Ld : jwk !! "d" = Some (PStr (decode_ascii (BinaPy.encode_to_b64u bd))))
    by (rewrite Ejwk; lookup_named).
  clear Ejwk.
  exists jwk. split; [|auto].
  unfold ECJwk.private. rewrite Hparams. cbn [rbind].
  unfold ECJwk.new, ECJwk._validate, attr. rewrite Lcrv.
  cbn [default from_option id].
  rewrite (proj2 (CURVES_lookup (name c) c) (conj Hc eq_refl)).
  unfold ECJwk.PARAMS. cbn [Jwk_validate]. rewrite Lcrv, Lx, Ly, Ld.
  cbn [kind]. rewrite !(proj1 (check_kind_encoded _)). reflexivity.
Qed.

Lemma public_stored (c : EllipticCurve) (x y : Z) (params : gmap string pyval) :
  In c registered_curves ->
  0 <= x < 256 ^ coordinate_size c ->
  0 <= y < 256 ^ coordinate_size c ->
  Forall (fun k => params !! k = None) ["cls"; "key"; "crv"; "x"; "y"; "d"]%string ->
  exists jwk,
    ECJwk.public (name c) x y params = Ok jwk
    /\ jwk !! "crv" = Some (PStr (name c))
    /\ jwk !! "x" = Some (PBytes (BinaPy.encode_to_b64u
                            (to_bytes_be (Z.to_nat (coordinate_size c)) x)))
    /\ jwk !! "y" = Some (PBytes (BinaPy.encode_to_b64u
                            (to_bytes_be (Z.to_nat (coordinate_size c)) y)))
    /\ jwk !! "d" = None.
Proof.
  intros Hc Hx Hy Hfree.
  inversion Hfree as [|? ? Fcls F1]; subst.
  inversion F1 as [|? ? Fkey F2]; subst.
  inversion F2 as [|? ? Fcrv F3]; subst.
  inversion F3 as [|? ? Fx F4]; subst.
  inversion F4 as [|? ? Fy F5]; subst.
  inversion F5 as [|? ? Fd _]; subst.
  pose proof (registered_size_nonneg c Hc) as Hsz.
  assert (Hcurve : ECJwk.get_curve (PStr (name c)) = Ok c).
  { unfold ECJwk.get_curve.
    now rewrite (proj2 (CURVES_lookup (name c) c) (conj Hc eq_refl)). }
  destruct (from_int_fits x _ Hsz Hx) as [Hbx _].
  destruct (from_int_fits y _ Hsz Hy) as [Hby _].
  set (bx := to_bytes_be (Z.to_nat (coordinate_size c)) x) in *.
  set (by_ := to_bytes_be (Z.to_nat (coordinate_size c)) y) in *.
  remember
    ((list_to_map
        [("key", PStr "EC"); ("crv", PStr (name c));
         ("x", PBytes (BinaPy.encode_to_b64u bx));
         ("y", PBytes (BinaPy.encode_to_b64u by_))]%string
      : gmap string pyval) ∪ params) as jwk eqn:Ejwk.
  assert (Hparams : ECJwk.public_params (name c) x y params = Ok jwk).
  { unfold ECJwk.public_params, bind_params, kwargs. cbn [forallb fst].
    rewrite Fcls, Fcrv, Fx, Fy. cbn [bool_decide decide_rel andb rbind].
    rewrite Hcurve. cbn [rbind]. rewrite Hbx, Hby. cbn [rbind].
    rewrite Fkey. rewrite Ejwk. reflexivity. }
  assert (Lcrv : jwk !! "crv" = Some (PStr (name c))) by (rewrite Ejwk; lookup_named).
  assert (Lx : jwk !! "x" = Some (PBytes (BinaPy.encode_to_b64u bx)))
    by (rewrite Ejwk; lookup_named).
  assert (Ly : jwk !! "y" = Some (PBytes (BinaPy.encode_to_b64u by_)))
    by (rewrite Ejwk; lookup_named).
  assert (Ld : jwk !! "d" = None).
  { rewrite Ejwk. rewrite lookup_union_r; [exact Fd|].
    cbn [list_to_map foldr uncurry fst snd].
    rewrite !lookup_insert_ne by discriminate. apply lookup_empty. }
  clear Ejwk.
  exists jwk. split; [|auto].
  unfold ECJwk.public. rewrite Hparams. cbn [rbind].
  unfold ECJwk.new, ECJwk._validate, attr. rewrite Lcrv.
  cbn [default from_option id].
  rewrite (proj2 (CURVES_lookup (name c) c) (conj Hc eq_refl)).
  unfold ECJwk.PARAMS. cbn [Jwk_validate]. rewrite Lcrv, Lx, Ly, Ld.
  cbn [kind is_required is_private andb negb].
  rewrite !(proj2 (check_kind_encoded _)). reflexivity.
Qed.

(** A public-key mapping on [c] whose coordinates are the octet strings
    [bx] and [by_], of any length. *)
Lemma validate_any_length (c : EllipticCurve) (bx by_ : list byte) :
  In c registered_curves ->
  let jwk : gmap string pyval :=
    list_to_map [("kty", PStr "EC"); ("crv", PStr (name c));
                 ("x", PStr (b64u_encode (PBytes bx)));
                 ("y", PStr (b64u_encode (PBytes by_)))]%string in
  ECJwk.new jwk = Ok jwk
  /\ ECJwk.x_coordinate jwk = Ok (int_from_bytes bx)
  /\ ECJwk.y_coordinate jwk = Ok (int_from_bytes by_).
Proof.
  intros Hc jwk.
  assert (Lcrv : jwk !! "crv" = Some (PStr (name c))).
  { subst jwk. cbn [list_to_map foldr uncurry fst snd].
    repeat (rewrite lookup_insert_ne by discriminate). apply lookup_insert_eq. }
  assert (Lx : jwk !! "x" = Some (PStr (b64u_encode (PBytes bx)))).
  { subst jwk. cbn [list_to_map foldr uncurry fst snd].
    repeat (rewrite lookup_insert_ne by discriminate). apply lookup_insert_eq. }
  assert (Ly : jwk !! "y" = Some (PStr (b64u_encode (PBytes by_)))).
  { subst jwk. cbn [list_to_map foldr uncurry fst snd].
    repeat (rewrite lookup_insert_ne by discriminate). apply lookup_insert_eq. }
  assert (Ld : jwk !! "d" = None).
  { subst jwk. cbn [list_to_map foldr uncurry fst snd].
    rewrite !lookup_insert_ne by discriminate. apply lookup_empty. }
  clearbody jwk.
  split; [|split].
  - unfold ECJwk.new, ECJwk._validate, attr. rewrite Lcrv.
    cbn [default from_option id].
    rewrite (proj2 (CURVES_lookup (name c) c) (conj Hc eq_refl)).
    unfold ECJwk.PARAMS. cbn [Jwk_validate]. rewrite Lcrv, Lx, Ly, Ld.
    cbn [kind is_required is_private andb negb check_kind].
    rewrite !b64u_decode_encode. reflexivity.
  - apply (coordinate_of_encoding jwk "x" bx). left. exact Lx.
  - apply (coordinate_of_encoding jwk "y" by_). left. exact Ly.
Qed.

(** C6, as amended. For every registered curve: [ECJwk.private] and
    [ECJwk.public] store each coordinate (and the private scalar) as the
    base64url text of exactly coordinate-size octets, the big-endian value
    zero-padded on the left; decoding does not check the length: a mapping
    whose coordinates are encodings of octet strings of any length passes
    [ECJwk]'s validation, which adds only the curve lookup to the generic
    validation, and the accessors return the big-endian integers of those
    octets. *)
Theorem coordinates_padded_on_store_unchecked_on_read (c : EllipticCurve) :
  In c registered_curves ->
  let n := Z.to_nat (coordinate_size c) in
  (forall x y d params,
      0 <= x < 256 ^ coordinate_size c ->
      0 <= y < 256 ^ coordinate_size c ->
      0 <= d < 256 ^ coordinate_size c ->
      Forall (fun k => params !! k = None)
        ["cls"; "kty"; "crv"; "x"; "y"; "d"]%string ->
      exists jwk,
        ECJwk.private (name c) x y d params = Ok jwk
        /\ stored_as jwk "x" (to_bytes_be n x)
        /\ stored_as jwk "y" (to_bytes_be n y)
        /\ stored_as jwk "d" (to_bytes_be n d))
  /\ (forall x y params,
        0 <= x < 256 ^ coordinate_size c ->
        0 <= y < 256 ^ coordinate_size c ->
        Forall (fun k => params !! k = None)
          ["cls"; "key"; "crv"; "x"; "y"; "d"]%string ->
        exists jwk,
          ECJwk.public (name c) x y params = Ok jwk
          /\ stored_as jwk "x" (to_bytes_be n x)
          /\ stored_as jwk "y" (to_bytes_be n y))
  /\ (forall (v : Z) (k : nat),
        0 <= v < 256 ^ Z.of_nat k -> (k <= n)%nat ->
        to_bytes_be n v = repeat x00 (n - k) ++ to_bytes_be k v
        /\ List.length (to_bytes_be n v) = n
        /\ int_from_bytes (to_bytes_be n v) = v)
  /\ (forall jwk,
        jwk !! "crv" = Some (PStr (name c)) ->
        ECJwk._validate jwk = Jwk_validate ECJwk.PARAMS jwk)
  /\ (forall bx by_ : list byte,
        let jwk : gmap string pyval :=
          list_to_map [("kty", PStr "EC"); ("crv", PStr (name c));
                       ("x", PStr (b64u_encode (PBytes bx)));
                       ("y", PStr (b64u_encode (PBytes by_)))]%string in
        ECJwk.new jwk = Ok jwk
        /\ ECJwk.x_coordinate jwk = Ok (int_from_bytes bx)
        /\ ECJwk.y_coordinate jwk = Ok (int_from_bytes by_)).
Proof.
  intros Hc n.
  pose proof (registered_size_nonneg c Hc) as Hsz.
  split; [|split; [|split; [|split]]].
  - intros x y d params Hx Hy Hd Hfree.
    destruct (private_stored c x y d params Hc Hx Hy Hd Hfree)
      as (jwk & Hjwk & Lx & Ly & Ld).
    exists jwk. split; [exact Hjwk|].
    repeat split; apply stored_as_encoded; left; assumption.
  - intros x y params Hx Hy Hfree.
    destruct (public_stored c x y params Hc Hx Hy Hfree)
      as (jwk & Hjwk & _ & Lx & Ly & _).
    exists jwk. split; [exact Hjwk|].
    split; apply stored_as_encoded; right; assumption.
  - intros v k Hv Hk. split; [|split].
    + apply to_bytes_be_zero_pad; assumption.
    + apply length_to_bytes_be.
    + apply int_from_bytes_to_bytes_be. split; [lia|].
      apply Z.lt_le_trans with (256 ^ Z.of_nat k); [lia|].
      apply Z.pow_le_mono_r; lia.
  - intros jwk Hcrv. unfold ECJwk._validate, attr. rewrite Hcrv.
    cbn [default from_option id].
    now rewrite (proj2 (CURVES_lookup (name c) c) (conj Hc eq_refl)).
  - intros bx by_. apply validate_any_length, Hc.
Qed.

Lemma coordinates_padded_on_store_unchecked_on_read_witness :
  (forall x y d params,
      0 <= x < 256 ^ coordinate_size P_521 ->
      0 <= y < 256 ^ coordinate_size P_521 ->
      0 <= d < 256 ^ coordinate_size P_521 ->
      Forall (fun k => params !! k = None)
        ["cls"; "kty"; "crv"; "x"; "y"; "d"]%string ->
      exists jwk,
        ECJwk.private (name P_521) x y d params = Ok jwk
        /\ stored_as jwk "x" (to_bytes_be (Z.to_nat (coordinate_size P_521)) x)
        /\ stored_as jwk "y" (to_bytes_be (Z.to_nat (coordinate_size P_521)) y)
        /\ stored_as jwk "d" (to_bytes_be (Z.to_nat (coordinate_size P_521)) d))
  /\ (forall x y params,
        0 <= x < 256 ^ coordinate_size P_521 ->
        0 <= y < 256 ^ coordinate_size P_521 ->
        Forall (fun k => params !! k = None)
          ["cls"; "key"; "crv"; "x"; "y"; "d"]%string ->
        exists jwk,
          ECJwk.public (name P_521) x y params = Ok jwk
          /\ stored_as jwk "x" (to_bytes_be (Z.to_nat (coordinate_size P_521)) x)
          /\ stored_as jwk "y" (to_bytes_be (Z.to_nat (coordinate_size P_521)) y))
  /\ (forall (v : Z) (k : nat),
        0 <= v < 256 ^ Z.of_nat k -> (k <= Z.to_nat (coordinate_size P_521))%nat ->
        to_bytes_be (Z.to_nat (coordinate_size P_521)) v
        = repeat x00 (Z.to_nat (coordinate_size P_521) - k) ++ to_bytes_be k v
        /\ List.length (to_bytes_be (Z.to_nat (coordinate_size P_521)) v)
           = Z.to_nat (coordinate_size P_521)
        /\ int_from_bytes (to_bytes_be (Z.to_nat (coordinate_size P_521)) v) = v)
  /\ (forall jwk,
        jwk !! "crv" = Some (PStr (name P_521)) ->
        ECJwk._validate jwk = Jwk_validate ECJwk.PARAMS jwk)
  /\ (forall bx by_ : list byte,
        let jwk : gmap string pyval :=
          list_to_map [("kty", PStr "EC"); ("crv", PStr (name P_521));
                       ("x", PStr (b64u_encode (PBytes bx)));
                       ("y", PStr (b64u_encode (PBytes by_)))]%string in
        ECJwk.new jwk = Ok jwk
        /\ ECJwk.x_coordinate jwk = Ok (int_from_bytes bx)
        /\ ECJwk.y_coordinate jwk = Ok (int_from_bytes by_)).
Proof.
  apply (coordinates_padded_on_store_unchecked_on_read P_521).
  simpl. auto.
Defined.

(** X19. On a registered curve, with coordinates and private scalar that fit
    the curve's coordinate size, [ECJwk.private] returns a key that passes
    validation and whose accessors give back exactly [x], [y] and [d]. *)
Theorem private_coordinates (c : EllipticCurve) (x y d : Z)
    (params : gmap string pyval) :
  In c registered_curves ->
  0 <= x < 256 ^ coordinate_size c ->
  0 <= y < 256 ^ coordinate_size c ->
  0 <= d < 256 ^ coordinate_size c ->
  Forall (fun k => params !! k = None) ["cls"; "kty"; "crv"; "x"; "y"; "d"]%string ->
  exists jwk,
    ECJwk.private (name c) x y d params = Ok jwk
    /\ ECJwk.x_coordinate jwk = Ok x
    /\ ECJwk.y_coordinate jwk = Ok y
    /\ ECJwk.ecc_private_key jwk = Ok d
    /\ ECJwk.coordinate_size_of jwk = Ok (coordinate_size c)
    /\ jwk !! "kty" = Some (PStr "EC").
Proof.
  intros Hc Hx Hy Hd Hfree.
  inversion Hfree as [|? ? Fcls F1]; subst.
  inversion F1 as [|? ? Fkty F2]; subst.
  inversion F2 as [|? ? Fcrv F3]; subst.
  inversion F3 as [|? ? Fx F4]; subst.
  inversion F4 as [|? ? Fy F5]; subst.
  inversion F5 as [|? ? Fd _]; subst.
  pose proof (registered_size_nonneg c Hc) as Hsz.
  assert (Hcurve : ECJwk.get_curve (PStr (name c)) = Ok c).
  { unfold ECJwk.get_curve.
    now rewrite (proj2 (CURVES_lookup (name c) c) (conj Hc eq_refl)). }
  destruct (from_int_fits x _ Hsz Hx) as [Hbx Hix].
  destruct (from_int_fits y _ Hsz Hy) as [Hby Hiy].
  destruct (from_int_fits d _ Hsz Hd) as [Hbd Hid].
  set (bx := to_bytes_be (Z.to_nat (coordinate_size c)) x) in *.
  set (by_ := to_bytes_be (Z.to_nat (coordinate_size c)) y) in *.
  set (bd := to_bytes_be (Z.to_nat (coordinate_size c)) d) in *.
  remember
    ((list_to_map
        [("kty", PStr "EC"); ("crv", PStr (name c));
         ("x", PStr (decode_ascii (BinaPy.encode_to_b64u bx)));
         ("y", PStr (decode_ascii (BinaPy.encode_to_b64u by_)));
         ("d", PStr (decode_ascii (BinaPy.encode_to_b64u bd)))]%string
      : gmap string pyval) ∪ params) as jwk eqn:Ejwk.
  assert (Hparams : ECJwk.private_params (name c) x y d params = Ok jwk).
  { unfold ECJwk.private_params, bind_params, kwargs. cbn [forallb fst].
    rewrite Fcls, Fcrv, Fx, Fy, Fd. cbn [bool_decide decide_rel andb rbind].
    rewrite Hcurve. cbn [rbind]. rewrite Hbx, Hby, Hbd. cbn [rbind].
    rewrite Fkty. rewrite Ejwk. reflexivity. }
  assert (Lcrv : jwk !! "crv" = Some (PStr (name c))) by (rewrite Ejwk; lookup_named).
  assert (Lx : jwk !! "x" = Some (PStr (decode_ascii (BinaPy.encode_to_b64u bx))))
    by (rewrite Ejwk; lookup_named).
  assert (Ly : jwk !! "y" = Some (PStr (decode_ascii (BinaPy.encode_to_b64u by_))))
    by (rewrite Ejwk; lookup_named).
  assert (Ld : jwk !! "d" = Some (PStr (decode_ascii (BinaPy.encode_to_b64u bd))))
    by (rewrite Ejwk; lookup_named).
  assert (Lkty : jwk !! "kty" = Some (PStr "EC")) by (rewrite Ejwk; lookup_named).
  clear Ejwk.
  exists jwk. split; [|split; [|split; [|split; [|split]]]].
  - unfold ECJwk.private. rewrite Hparams. cbn [rbind].
    unfold ECJwk.new, ECJwk._validate, attr. rewrite Lcrv.
    cbn [default from_option id].
    rewrite (proj2 (CURVES_lookup (name c) c) (conj Hc eq_refl)).
    unfold ECJwk.PARAMS. cbn [Jwk_validate]. rewrite Lcrv, Lx, Ly, Ld.
    cbn [kind]. rewrite !(proj1 (check_kind_encoded _)). reflexivity.
  - unfold ECJwk.x_coordinate.
    rewrite (coordinate_of_encoding jwk "x" bx (or_introl Lx)). now rewrite Hix.
  - unfold ECJwk.y_coordinate.
    rewrite (coordinate_of_encoding jwk "y" by_ (or_introl Ly)). now rewrite Hiy.
  - unfold ECJwk.ecc_private_key.
    rewrite (coordinate_of_encoding jwk "d" bd (or_introl Ld)). now rewrite Hid.
  - unfold ECJwk.coordinate_size_of, ECJwk.curve_of, attr. rewrite Lcrv.
    cbn [default from_option id]. now rewrite Hcurve.
  - exact Lkty.
Qed.

Lemma private_coordinates_witness :
  exists jwk,
    ECJwk.private (name secp256k1) 5 6 7 ∅ = Ok jwk
    /\ ECJwk.x_coordinate jwk = Ok 5
    /\ ECJwk.y_coordinate jwk = Ok 6
    /\ ECJwk.ecc_private_key jwk = Ok 7
    /\ ECJwk.coordinate_size_of jwk = Ok (coordinate_size secp256k1)
    /\ jwk !! "kty" = Some (PStr "EC").
Proof.
  apply (private_coordinates secp256k1 5 6 7 ∅).
  - cbn. auto.
  - cbn. lia.
  - cbn. lia.
  - cbn. lia.
  - repeat constructor.
Defined.

(** X20. On a registered curve, with coordinates that fit, [ECJwk.public]
    returns a key that passes validation; it stores [x] and [y] as [bytes]
    (the base64url text of the coordinate-size big-endian octets, not
    decoded to [str]), its accessors give back [x] and [y], and the mapping
    has no [d] parameter. *)
Theorem public_coordinates (c : EllipticCurve) (x y : Z)
    (params : gmap string pyval) :
  In c registered_curves ->
  0 <= x < 256 ^ coordinate_size c ->
  0 <= y < 256 ^ coordinate_size c ->
  Forall (fun k => params !! k = None) ["cls"; "key"; "crv"; "x"; "y"; "d"]%string ->
  exists jwk,
    ECJwk.public (name c) x y params = Ok jwk
    /\ jwk !! "x" = Some (PBytes (b64u_encode_bytes
                            (to_bytes_be (Z.to_nat (coordinate_size c)) x) false))
    /\ jwk !! "y" = Some (PBytes (b64u_encode_bytes
                            (to_bytes_be (Z.to_nat (coordinate_size c)) y) false))
    /\ jwk !! "d" = None
    /\ ECJwk.x_coordinate jwk = Ok x
    /\ ECJwk.y_coordinate jwk = Ok y
    /\ ECJwk.coordinate_size_of jwk = Ok (coordinate_size c).
Proof.
  intros Hc Hx Hy Hfree.
  pose proof (registered_size_nonneg c Hc) as Hsz.
  destruct (public_stored c x y params Hc Hx Hy Hfree)
    as (jwk & Hjwk & Lcrv & Lx & Ly & Ld).
  destruct (from_int_fits x _ Hsz Hx) as [_ Hix].
  destruct (from_int_fits y _ Hsz Hy) as [_ Hiy].
  exists jwk. split; [exact Hjwk|].
  split; [exact Lx | split; [exact Ly | split; [exact Ld|]]].
  split; [|split].
  - unfold ECJwk.x_coordinate.
    rewrite (coordinate_of_encoding jwk "x" _ (or_intror Lx)). now rewrite Hix.
  - unfold ECJwk.y_coordinate.
    rewrite (coordinate_of_encoding jwk "y" _ (or_intror Ly)). now rewrite Hiy.
  - unfold ECJwk.coordinate_size_of, ECJwk.curve_of, attr. rewrite Lcrv.
    cbn [default from_option id]. unfold ECJwk.get_curve.
    now rewrite (proj2 (CURVES_lookup (name c) c) (conj Hc eq_refl)).
Qed.

Lemma public_coordinates_witness :
  exists jwk,
    ECJwk.public (name P_384) 5 6 ∅ = Ok jwk
    /\ jwk !! "x" = Some (PBytes (b64u_encode_bytes
                            (to_bytes_be (Z.to_nat (coordinate_size P_384)) 5) false))
    /\ jwk !! "y" = Some (PBytes (b64u_encode_bytes
                            (to_bytes_be (Z.to_nat (coordinate_size P_384)) 6) false))
    /\ jwk !! "d" = None
    /\ ECJwk.x_coordinate jwk = Ok 5
    /\ ECJwk.y_coordinate jwk = Ok 6
    /\ ECJwk.coordinate_size_of jwk = Ok (coordinate_size P_384).
Proof.
  apply (public_coordinates P_384 5 6 ∅).
  - cbn. auto.
  - cbn. lia.
  - cbn. lia.
  - repeat constructor.
Defined.

(** X21. [ECJwk.private] raises [UnsupportedEllipticCurve] for an
    identifier that no registered curve has, before it looks at the numbers;
    on a registered curve it raises [OverflowError] as soon as [x], [y] or [d]
    is negative or does not fit the curve's coordinate size. *)
Theorem private_rejects (crv : string) (x y d : Z) (params : gmap string pyval) :
  Forall (fun k => params !! k = None) ["cls"; "crv"; "x"; "y"; "d"]%string ->
  ((forall c, In c registered_curves -> name c <> crv) ->
   ECJwk.private crv x y d params
   = Raise (UnsupportedEllipticCurve (Some (PStr crv))))
  /\ (forall c, In c registered_curves -> name c = crv ->
        (x < 0 \/ 256 ^ coordinate_size c <= x)
        \/ (y < 0 \/ 256 ^ coordinate_size c <= y)
        \/ (d < 0 \/ 256 ^ coordinate_size c <= d) ->
        ECJwk.private crv x y d params = Raise OverflowError).
Proof.
  intros Hfree.
  assert (Hformals : bind_params ["cls"; "crv"; "x"; "y"; "d"]%string params = Ok tt)
    by (apply bind_params_Ok, Hfree).
  unfold ECJwk.private, ECJwk.private_params. rewrite Hformals. cbn [rbind].
  split.
  - intros Hnone. unfold ECJwk.get_curve.
    destruct (assoc ECJwk.CURVES crv) as [c|] eqn:E; [|reflexivity].
    apply CURVES_lookup in E as [Hin Hname]. exfalso. exact (Hnone c Hin Hname).
  - intros c Hc Hname Hbad.
    pose proof (registered_size_nonneg c Hc) as Hsz.
    unfold ECJwk.get_curve.
    rewrite (proj2 (CURVES_lookup crv c) (conj Hc Hname)). cbn [rbind].
    destruct (BinaPy.from_int x (coordinate_size c)) as [bx|e] eqn:Ex.
    2:{ destruct (Z.lt_ge_cases x 0) as [Hn|Hn];
          [|destruct (Z.lt_ge_cases x (256 ^ coordinate_size c)) as [Hl|Hl]].
        - rewrite from_int_overflow in Ex by auto. now injection Ex as <-.
        - rewrite (proj1 (from_int_fits x _ Hsz (conj Hn Hl))) in Ex. discriminate.
        - rewrite from_int_overflow in Ex by auto. now injection Ex as <-. }
    cbn [rbind].
    destruct (BinaPy.from_int y (coordinate_size c)) as [by_|e] eqn:Ey.
    2:{ destruct (Z.lt_ge_cases y 0) as [Hn|Hn];
          [|destruct (Z.lt_ge_cases y (256 ^ coordinate_size c)) as [Hl|Hl]].
        - rewrite from_int_overflow in Ey by auto. now injection Ey as <-.
        - rewrite (proj1 (from_int_fits y _ Hsz (conj Hn Hl))) in Ey. discriminate.
        - rewrite from_int_overflow in Ey by auto. now injection Ey as <-. }
    cbn [rbind].
    destruct (BinaPy.from_int d (coordinate_size c)) as [bd|e] eqn:Ed.
    2:{ destruct (Z.lt_ge_cases d 0) as [Hn|Hn];
          [|destruct (Z.lt_ge_cases d (256 ^ coordinate_size c)) as [Hl|Hl]].
        - rewrite from_int_overflow in Ed by auto. now injection Ed as <-.
        - rewrite (proj1 (from_int_fits d _ Hsz (conj Hn Hl))) in Ed. discriminate.
        - rewrite from_int_overflow in Ed by auto. now injection Ed as <-. }
    exfalso.
    destruct Hbad as [Hb | [Hb | Hb]].
    + rewrite from_int_overflow in Ex by auto. discriminate.
    + rewrite from_int_overflow in Ey by auto. discriminate.
    + rewrite from_int_overflow in Ed by auto. discriminate.
Qed.

Lemma private_rejects_witness :
  ((forall c, In c registered_curves -> name c <> "X-999"%string) ->
   ECJwk.private "X-999" 1 2 3 ∅
   = Raise (UnsupportedEllipticCurve (Some (PStr "X-999"))))
  /\ (forall c, In c registered_curves -> name c = "X-999"%string ->
        (1 < 0 \/ 256 ^ coordinate_size c <= 1)
        \/ (2 < 0 \/ 256 ^ coordinate_size c <= 2)
        \/ (3 < 0 \/ 256 ^ coordinate_size c <= 3) ->
        ECJwk.private "X-999" 1 2 3 ∅ = Raise OverflowError).
Proof.
  apply (private_rejects "X-999" 1 2 3 ∅). repeat constructor.
Defined.

(** X22. A mapping whose [crv] parameter is present but is not the name of
    a registered curve is rejected by validation with
    [UnsupportedEllipticCurve] carrying that value; a mapping that passes
    validation has the name of a registered curve as [crv], so [curve] and
    [coordinate_size] succeed on it, and [supported_signing_algorithms]
    returns a list in which every identifier is an algorithm of the signing
    table on that curve. *)
Theorem new_checks_curve (jwk : gmap string pyval) (v : pyval) :
  jwk !! "crv" = Some v ->
  ((forall c, In c registered_curves -> v <> PStr (name c)) ->
   ECJwk.new jwk = Raise (UnsupportedEllipticCurve (Some v)))
  /\ (forall jwk',
        ECJwk.new jwk = Ok jwk' ->
        exists c l,
          In c registered_curves
          /\ v = PStr (name c)
          /\ ECJwk.curve_of jwk' = Ok c
          /\ ECJwk.coordinate_size_of jwk' = Ok (coordinate_size c)
          /\ ECJwk.supported_signing_algorithms jwk' = Ok l
          /\ forall a, In a l ->
               exists alg, assoc ECJwk.SIGNATURE_ALGORITHMS a = Some alg
                           /\ curve alg = c).
Proof.
  intros Ecrv. unfold ECJwk.new, ECJwk._validate, attr. rewrite Ecrv.
  cbn [default from_option id]. split.
  - intros Hnone. destruct v as [|crv|b]; cbn [rbind]; try reflexivity.
    destruct (assoc ECJwk.CURVES crv) as [c|] eqn:E; [|reflexivity].
    apply CURVES_lookup in E as [Hin <-]. exfalso. exact (Hnone c Hin eq_refl).
  - intros jwk' Hnew.
    destruct v as [|crv|b]; cbn [rbind] in Hnew; try discriminate Hnew.
    destruct (assoc ECJwk.CURVES crv) as [c|] eqn:E; [|discriminate Hnew].
    apply rbind_Ok in Hnew as (_ & _ & [= <-]).
    assert (Hown : ECJwk.curve_of jwk = Ok c).
    { unfold ECJwk.curve_of, attr. rewrite Ecrv. cbn [default from_option id].
      unfold ECJwk.get_curve. now rewrite E. }
    apply CURVES_lookup in E as [Hin Hname].
    exists c.
    unfold ECJwk.coordinate_size_of, ECJwk.supported_signing_algorithms,
      ECJwk.SIGNATURE_ALGORITHMS.
    cbn [map ECJwk.curve_gated]. rewrite Hown. cbn [rbind].
    clear Hown Ecrv. subst crv. cbn in Hin.
    destruct Hin as [<- | [<- | [<- | [<- | []]]]].
    all: eexists; split; [cbn; auto 10|].
    all: do 4 (split; [reflexivity|]).
    all: intros a [<- | []]; eexists; split; reflexivity.
Qed.

Lemma new_checks_curve_witness :
  ((forall c, In c registered_curves -> PStr "X-999" <> PStr (name c)) ->
   ECJwk.new {[ "crv" := PStr "X-999" ]}
   = Raise (UnsupportedEllipticCurve (Some (PStr "X-999"))))
  /\ (forall jwk',
        ECJwk.new {[ "crv" := PStr "X-999" ]} = Ok jwk' ->
        exists c l,
          In c registered_curves
          /\ PStr "X-999" = PStr (name c)
          /\ ECJwk.curve_of jwk' = Ok c
          /\ ECJwk.coordinate_size_of jwk' = Ok (coordinate_size c)
          /\ ECJwk.supported_signing_algorithms jwk' = Ok l
          /\ forall a, In a l ->
               exists alg, assoc ECJwk.SIGNATURE_ALGORITHMS a = Some alg
                           /\ curve alg = c).
Proof.
  apply (new_checks_curve {[ "crv" := PStr "X-999" ]} (PStr "X-999")).
  reflexivity.
Defined.

Section GenerateEC.
Context `{CurveGeneration}.

(** X23. [ECJwk.generate] raises [UnsupportedEllipticCurve] for an
    identifier that no registered curve has, without running the curve's
    generator; on a registered curve it runs the generator once and builds
    the key from the generated [(x, y, d)] with [ECJwk.private], and an error
    of the generator is raised unchanged. *)
Theorem generate_from_generator (crv : string) (params : gmap string pyval)
    (w : world) :
  params !! "cls" = None -> params !! "crv" = None ->
  ((forall c, In c registered_curves -> name c <> crv) ->
   ECJwk.generate crv params w
   = (Raise (UnsupportedEllipticCurve (Some (PStr crv))), w))
  /\ (forall c, In c registered_curves -> name c = crv ->
        (forall x y d w1,
            curve_generate c w = (Ok (x, y, d), w1) ->
            ECJwk.generate crv params w = (ECJwk.private crv x y d params, w1))
        /\ (forall e w1,
              curve_generate c w = (Raise e, w1) ->
              ECJwk.generate crv params w = (Raise e, w1))).
Proof.
  intros Hcls Hcrv.
  assert (Hb : bind_params ["cls"; "crv"]%string params = Ok tt).
  { unfold bind_params. cbn [forallb]. now rewrite Hcls, Hcrv. }
  unfold ECJwk.generate, bind, lift. rewrite Hb. split.
  - intros Hnone. unfold ECJwk.get_curve.
    destruct (assoc ECJwk.CURVES crv) as [c|] eqn:E; [|reflexivity].
    apply CURVES_lookup in E as [Hin Hname]. exfalso. exact (Hnone c Hin Hname).
  - intros c Hc Hname.
    assert (Hcurve : ECJwk.get_curve (PStr crv) = Ok c).
    { unfold ECJwk.get_curve.
      now rewrite (proj2 (CURVES_lookup crv c) (conj Hc Hname)). }
    rewrite Hcurve. split.
    + intros x y d w1 Hgen. rewrite Hgen.
      destruct (ECJwk.private crv x y d params); reflexivity.
    + intros e w1 Hgen. rewrite Hgen. reflexivity.
Qed.

End GenerateEC.

Lemma generate_from_generator_witness :
  ((forall c, In c registered_curves -> name c <> "P-256"%string) ->
   @ECJwk.generate (fixed_generation 5 6 7) "P-256" ∅ zero_world
   = (Raise (UnsupportedEllipticCurve (Some (PStr "P-256"))), zero_world))
  /\ (forall c, In c registered_curves -> name c = "P-256"%string ->
        (forall x y d w1,
            @curve_generate (fixed_generation 5 6 7) c zero_world
            = (Ok (x, y, d), w1) ->
            @ECJwk.generate (fixed_generation 5 6 7) "P-256" ∅ zero_world
            = (ECJwk.private "P-256" x y d ∅, w1))
        /\ (forall e w1,
              @curve_generate (fixed_generation 5 6 7) c zero_world
              = (Raise e, w1) ->
              @ECJwk.generate (fixed_generation 5 6 7) "P-256" ∅ zero_world
              = (Raise e, w1))).
Proof.
  apply (@generate_from_generator (fixed_generation 5 6 7) "P-256" ∅ zero_world);
    reflexivity.
Defined.
